(** * Verina agent backend: a shallow embedding of the orchestration core

  The development follows the Python sources under [backend/src/chat]:
  - [PyStr]      the [str] operations the code relies on
                 ([startswith], [in], [count], [replace], [lower], [strip]);
  - [Thinking]   [BaseAgent._create_thinking_step];
  - [Sources]    [BaseAgent._process_web_search_result] and its Agent Mode twin;
  - [Paths], [FileTools]   the workspace tools [file_read], [file_write], [file_edit];
  - [MessageLog] [MessageManager];
  - [Compaction] [CompactContextTool.execute];
  - [Artifact]   the HTML artifact extraction at the end of [agent_stream];
  - [Loop]       the two React loops [chat_stream] and [agent_stream], and
                 the service wrapper [process_message_stream];
  - [Protocol]   the vocabulary of the statements about event streams and logs;
  - [WebSearch]  [WebSearchTool.execute] with [_sanitize_filename] and the cache;
  - [Frontend]   [MessageManager.get_messages_for_frontend];
  - [FileList]   [FileListTool.execute];
  - [Workspace]  [_initialize_workspace], [_clean_workspace_after_research],
                 [_clean_workspace_after_chat] and the workspace part of
                 [_switch_to_research_stage];
  - [History]    the response history of [BaseAgent] ([chat_history.json])
                 and [ChatService.get_conversation_history_public];
  - [Sessions]   the session records of [ChatService]:
                 [_load_existing_sessions] and [get_user_chat_sessions].

  External collaborators (the model vendor, the search vendor, tool bodies,
  the JSON decoder, the cancel button) are oracles collected in records, so
  that every definition computes on a concrete scenario.

  Conventions of the embedding:
  - a Python [str] is a [string] of bytes; [lower], [strip] and the
    regular expressions act on ASCII;
  - an exception is a [None] (or an [inr]) result, and the embedded
    function turns it into what the enclosing [except] produces;
  - tool arguments that decode at all decode to a JSON object;
  - paths are resolved in a file system without symbolic links, in which
    the directories that a [..] component steps out of exist;
  - [messages.json] is represented by the list it decodes to, and is kept
    with the manager, not in the file system of the tools;
  - of the agents' other file effects inside a turn ([chat_history.json],
    the sandbox, the removal of the workspace at the end) nothing is read
    back by the control flow of [Loop], and they are left out there; the
    set-up and the removal of the workspace are embedded on their own in
    [Workspace], the response history in [History];
  - a reading of the clock or a random identifier is an argument of the
    function that takes it. *)

From Stdlib Require Import Ascii String DecimalString DecimalNat.
From stdpp Require Import base option strings list gmap sorting.

Open Scope string_scope.
Open Scope list_scope.

(** ** Python [str] operations *)

Module PyStr.

(** Character-level algorithms work on [list ascii]; the [string] wrappers
    below are what the embedded code calls. *)

Definition chars (s : string) : list ascii := list_ascii_of_string s.
Definition text (l : list ascii) : string := string_of_list_ascii l.

Definition nl : string := String (ascii_of_nat 10) EmptyString.

Fixpoint is_prefix (p l : list ascii) : bool :=
  match p, l with
  | [], _ => true
  | _ :: _, [] => false
  | a :: p', b :: l' => Ascii.eqb a b && is_prefix p' l'
  end.

(** [sub in l]: some tail of [l] starts with [sub]. *)
Fixpoint occurs_in (sub l : list ascii) : bool :=
  is_prefix sub l ||
  match l with
  | [] => false
  | _ :: l' => occurs_in sub l'
  end.

(** [l.count(sub)] for a non-empty [sub]: matches are taken left to right
    and do not overlap.  [skip] is the number of characters of the current
    match still to be stepped over. *)
Fixpoint count_from (skip : nat) (sub l : list ascii) : nat :=
  match l with
  | [] => 0
  | _ :: l' =>
      match skip with
      | S k => count_from k sub l'
      | O => if is_prefix sub l
             then S (count_from (length sub - 1) sub l')
             else count_from 0 sub l'
      end
  end.

(** CPython counts [len + 1] occurrences of the empty string. *)
Definition count_chars (l sub : list ascii) : nat :=
  match sub with
  | [] => S (length l)
  | _ :: _ => count_from 0 sub l
  end.

Fixpoint replace_from (skip : nat) (old new l : list ascii) : list ascii :=
  match l with
  | [] => []
  | c :: l' =>
      match skip with
      | S k => replace_from k old new l'
      | O => if is_prefix old l
             then new ++ replace_from (length old - 1) old new l'
             else c :: replace_from 0 old new l'
      end
  end.

(** Replacing the empty string puts [new] before every character and at
    the end. *)
Fixpoint interleave (new l : list ascii) : list ascii :=
  match l with
  | [] => new
  | c :: l' => new ++ c :: interleave new l'
  end.

Definition replace_chars (l old new : list ascii) : list ascii :=
  match old with
  | [] => interleave new l
  | _ :: _ => replace_from 0 old new l
  end.

Definition is_upper (c : ascii) : bool :=
  let n := nat_of_ascii c in (65 <=? n)%nat && (n <=? 90)%nat.

Definition lower_char (c : ascii) : ascii :=
  if is_upper c then ascii_of_nat (nat_of_ascii c + 32) else c.

(** ASCII white space, as matched by [\s] and removed by [strip]. *)
Definition is_space (c : ascii) : bool :=
  let n := nat_of_ascii c in
  ((9 <=? n)%nat && (n <=? 13)%nat) || (n =? 32)%nat || ((28 <=? n)%nat && (n <=? 31)%nat).

Fixpoint lstrip_chars (l : list ascii) : list ascii :=
  match l with
  | c :: l' => if is_space c then lstrip_chars l' else l
  | [] => []
  end.

Definition strip_chars (l : list ascii) : list ascii :=
  reverse (lstrip_chars (reverse (lstrip_chars l))).

(** The wrappers, named after the Python methods. *)
Definition startswith (s pre : string) : bool := is_prefix (chars pre) (chars s).
Definition contains (sub s : string) : bool := occurs_in (chars sub) (chars s).
Definition count (s sub : string) : nat := count_chars (chars s) (chars sub).
Definition replace (s old new : string) : string :=
  text (replace_chars (chars s) (chars old) (chars new)).
Definition lower (s : string) : string := text (map lower_char (chars s)).
Definition strip (s : string) : string := text (strip_chars (chars s)).
Definition is_empty (s : string) : bool := match s with EmptyString => true | _ => false end.

End PyStr.

(** ** JSON values, as far as the agents look into them *)

Module Json.

#[local] Unset Elimination Schemes.
Inductive jval :=
| JNull
| JBool (b : bool)
| JNum (digits : string)
| JStr (s : string)
| JArr (items : list jval)
| JObj (fields : list (string * jval)).
#[local] Set Elimination Schemes.

(** A decoded argument object: the [dict] that [json.loads] returns for the
    arguments of a tool call. *)
Definition jobj := list (string * jval).

Fixpoint get (key : string) (d : jobj) : option jval :=
  match d with
  | [] => None
  | (k, v) :: d' => if String.eqb k key then Some v else get key d'
  end.

Definition has_key (key : string) (d : jobj) : bool :=
  match get key d with Some _ => true | None => false end.

(** Python truthiness of a decoded value. *)
Definition truthy (v : jval) : bool :=
  match v with
  | JNull => false
  | JBool b => b
  | JNum d => negb (String.eqb d "0")
  | JStr s => negb (PyStr.is_empty s)
  | JArr l => match l with [] => false | _ => true end
  | JObj l => match l with [] => false | _ => true end
  end.

End Json.

(** ** ThinkingStep and its success flag ([BaseAgent._create_thinking_step]) *)

Module Thinking.
Import PyStr Json.

Record ThinkingStep := mkThinkingStep {
  step : nat;
  tool : string;
  input : jobj;
  output : string;
  success : bool;
  thinking : option string;
  urls : option jval;
  has_code : bool;
  has_image : bool
}.

(** The [is_error] expression of the source. *)
Definition is_error (tool_result : string) : bool :=
  startswith tool_result "Failed to"
  || startswith tool_result "Tool execution failed"
  || (startswith tool_result "Tool '" && contains "' not found" tool_result).

Definition _create_thinking_step
    (step : nat) (tool_name : string) (tool_args : jobj)
    (tool_result : string) (reasoning : option string) : ThinkingStep :=
  let urls :=
    if String.eqb tool_name "web_search" then
      match get "url" tool_args with
      | Some u => Some (JArr [u])
      | None => get "urls" tool_args
      end
    else None in
  let has_code := String.eqb tool_name "execute_python" in
  let has_image :=
    has_code && (contains "image" (lower tool_result) || contains "plot" (lower tool_result)) in
  {| step := step; tool := tool_name; input := tool_args; output := tool_result;
     success := negb (is_error tool_result); thinking := reasoning;
     urls := urls; has_code := has_code; has_image := has_image |}.

End Thinking.

(** ** Sources of a web search ([_process_web_search_result]) *)

Module Sources.
Import PyStr.

(** One entry of the normalised result list built by [WebSearchTool.execute]. *)
Record SearchHit := mkHit {
  h_url : string;
  h_title : string;
  h_snippet : string;
  h_age : option string;
  h_cache_path : option string
}.

(** The dict returned by [WebSearchTool.execute]. *)
Record WebSearchResult := mkWebSearchResult {
  query : string;
  search_type : option string;
  results : list SearchHit;
  error : option string
}.

Record Source := mkSource {
  idx : nat;
  title : string;
  url : string;
  snippet : string;
  age : option string;
  cache_path : option string
}.

(** [enumerate(l, start)] *)
Fixpoint enumerate {A} (start : nat) (l : list A) : list (nat * A) :=
  match l with
  | [] => []
  | x :: l' => (start, x) :: enumerate (S start) l'
  end.

Definition str_of_nat (n : nat) : string :=
  NilEmpty.string_of_uint (Nat.to_uint n).

Fixpoint repeat_str (s : string) (n : nat) : string :=
  match n with
  | O => ""
  | S k => s +:+ repeat_str s k
  end.

Definition nonempty (o : option string) : option string :=
  match o with
  | Some s => if is_empty s then None else Some s
  | None => None
  end.

Definition source_of (i : nat) (r : SearchHit) : Source :=
  {| idx := i; title := h_title r; url := h_url r; snippet := h_snippet r;
     age := h_age r; cache_path := h_cache_path r |}.

Definition opt_line (label : string) (o : option string) : list string :=
  match nonempty o with
  | Some s => [label +:+ s]
  | None => []
  end.

(** The lines shown to the model for one hit: numbered in Chat Mode, a
    bullet in Agent Mode. *)
Definition chat_lines (i : nat) (r : SearchHit) : list string :=
  ["[" +:+ str_of_nat i +:+ "] " +:+ h_title r; "    URL: " +:+ h_url r]
  ++ opt_line "    Cached: " (h_cache_path r)
  ++ opt_line "    Published: " (h_age r)
  ++ opt_line "    " (Some (h_snippet r))
  ++ [""].

Definition bullet : string :=
  String (ascii_of_nat 226) (String (ascii_of_nat 128) (String (ascii_of_nat 162) "")).

Definition agent_lines (i : nat) (r : SearchHit) : list string :=
  [bullet +:+ " " +:+ h_title r; "  URL: " +:+ h_url r]
  ++ opt_line "  Cached: " (h_cache_path r)
  ++ opt_line "  Published: " (h_age r)
  ++ opt_line "  " (Some (h_snippet r))
  ++ [""].

Definition header (result : WebSearchResult) : list string :=
  ["Search query: " +:+ query result;
   "Found " +:+ str_of_nat (length (results result)) +:+ " results";
   "Search type: " +:+ default "auto" (search_type result);
   nl +:+ repeat_str "=" 80 +:+ nl].

(** The common body of the two post-processors.  The result is the pair the
    source returns, followed by the new value of [self.current_sources]
    (unchanged on the failure branch). *)
Definition process_with (lines : nat -> SearchHit -> list string)
    (current_sources : list Source) (result : WebSearchResult)
    : (string * list Source) * list Source :=
  match nonempty (error result), results result with
  | Some e, _ => (("Search failed: " +:+ e, []), current_sources)
  | None, [] =>
      (("Search failed: " +:+ default "No results found" (error result), []),
       current_sources)
  | None, _ :: _ =>
      let numbered := enumerate 1 (results result) in
      let sources := map (fun p => source_of (fst p) (snd p)) numbered in
      let formatted_lines :=
        header result ++ concat (map (fun p => lines (fst p) (snd p)) numbered) in
      ((String.concat nl formatted_lines, sources), sources)
  end.

Definition _process_web_search_result := process_with chat_lines.
Definition _process_web_search_for_agent := process_with agent_lines.

End Sources.

(** ** POSIX paths, as [pathlib] handles them *)

Module Paths.
Import PyStr.

(** A [PurePosixPath]: whether it is anchored at the root, and its
    components. *)
Record Path := mkPath {
  absolute : bool;
  parts : list string
}.

(** [s.split(sep)] for a one-character separator. *)
Fixpoint split_on (sep : ascii) (s : string) : list string :=
  match s with
  | EmptyString => [""]
  | String c s' =>
      if Ascii.eqb c sep then "" :: split_on sep s'
      else match split_on sep s' with
           | x :: r => String c x :: r
           | [] => [String c ""]
           end
  end.

Definition slash : ascii := ascii_of_nat 47.

(** [Path(s)]: empty components and [.] are dropped, [..] is kept. *)
Definition parse (s : string) : Path :=
  {| absolute := match s with String c _ => Ascii.eqb c slash | EmptyString => false end;
     parts := filter (fun c => c <> "" /\ c <> ".") (split_on slash s) |}.

Definition is_absolute (p : Path) : bool := absolute p.

(** [a / b] *)
Definition join (a b : Path) : Path :=
  if absolute b then b
  else {| absolute := absolute a; parts := parts a ++ parts b |}.

(** Removal of [..] components, left to right; [..] at the root stays at the
    root. *)
Fixpoint normalise (acc : list string) (l : list string) : list string :=
  match l with
  | [] => acc
  | c :: l' =>
      if String.eqb c ".." then normalise (removelast acc) l'
      else normalise (acc ++ [c]) l'
  end.

(** [p.resolve()] in a file system without symbolic links: the path is made
    absolute from the working directory [cwd] and its [..] components are
    removed.  The result is the list of components below the root. *)
Definition resolve (cwd : list string) (p : Path) : list string :=
  if absolute p then normalise [] (parts p) else normalise cwd (parts p).

(** [str(p)] for a resolved path. *)
Definition render (p : list string) : string :=
  String slash (String.concat (String slash "") p).

Fixpoint components_prefix (base p : list string) : bool :=
  match base, p with
  | [], _ => true
  | _ :: _, [] => false
  | a :: base', b :: p' => String.eqb a b && components_prefix base' p'
  end.

(** [p.relative_to(base)] succeeds exactly when the components of [base]
    begin those of [p]; otherwise it raises [ValueError]. *)
Definition relative_to (p base : list string) : option (list string) :=
  if components_prefix base p then Some (drop (length base) p) else None.

Definition parent (p : list string) : list string := removelast p.

End Paths.

(** ** The workspace tools *)

Module FileTools.
Import PyStr Paths.

Inductive node :=
| File (content : string)
| Dir.

Inductive access :=
| Stat (p : list string)
| Read (p : list string)
| Write (p : list string)
| Mkdir (p : list string).

Definition target (a : access) : list string :=
  match a with Stat p | Read p | Write p | Mkdir p => p end.

(** The file system, keyed by resolved path, and the trace of the paths the
    tool code has touched (most recent last). *)
Record World := mkWorld {
  fs : gmap (list string) node;
  trace : list access
}.

Inductive result :=
| ReadOk (filename content : string) (size : nat)
| WriteOk (operation filename : string) (size total_size : nat)
| EditOk (file_path : string) (old_length new_length : nat)
| Failure (error : string).


Definition touch (a : access) (w : World) : World :=
  {| fs := fs w; trace := trace w ++ [a] |}.

(** [path.exists()] *)
Definition exists_ (p : list string) (w : World) : bool * World :=
  (bool_decide (is_Some (fs w !! p)), touch (Stat p) w).

(** [path.read_text()]; reading a missing file or a directory raises. *)
Definition read_text (p : list string) (w : World) : option string * World :=
  (match fs w !! p with Some (File c) => Some c | _ => None end, touch (Read p) w).

(** [path.write_text(c)]: an existing file is overwritten, a new one needs
    its parent directory; writing to a directory raises. *)
Definition write_text (p : list string) (c : string) (w : World) : option unit * World :=
  let w' := touch (Write p) w in
  let written := {| fs := <[p := File c]> (fs w); trace := trace w' |} in
  match fs w !! p, fs w !! parent p with
  | Some Dir, _ => (None, w')
  | Some (File _), _ => (Some tt, written)
  | None, Some Dir => (Some tt, written)
  | None, _ => (None, w')
  end.

(** [path.mkdir(parents=True, exist_ok=True)]: every missing ancestor is
    created, from the root down; an ancestor that is a file raises. *)
Fixpoint mkdir_chain (done todo : list string) (m : gmap (list string) node)
    : option (gmap (list string) node) :=
  match m !! done with
  | Some (File _) => None
  | _ =>
      let m' := <[done := Dir]> m in
      match todo with
      | [] => Some m'
      | c :: todo' => mkdir_chain (done ++ [c]) todo' m'
      end
  end.

Definition mkdir_parents (p : list string) (w : World) : option unit * World :=
  let w' := touch (Mkdir p) w in
  match mkdir_chain [] p (fs w) with
  | Some m => (Some tt, {| fs := m; trace := trace w' |})
  | None => (None, w')
  end.

(** A tool instance: the workspace directory it was built with (absent when
    the agent has no session) and the working directory of the process. *)
Record Tool := mkTool {
  workspace_dir : option Path;
  cwd : list string
}.

Definition traversal_error : string := "Invalid filename: path traversal detected".

(** [FileReadTool._get_file_path]: [Some] resolved target, or [None] for the
    [ValueError]. *)
Definition read_get_file_path (t : Tool) (ws : Path) (filename : string)
    : option (list string) :=
  let file_path := join ws (parse filename) in
  match relative_to (resolve (cwd t) file_path) (resolve (cwd t) ws) with
  | Some _ => Some (resolve (cwd t) file_path)
  | None => None
  end.

(** [FileReadTool.execute].  Without a workspace directory the path join
    itself raises, which the enclosing [except] turns into a failure. *)
Definition file_read (t : Tool) (filename : string) (w : World) : result * World :=
  match workspace_dir t with
  | None => (Failure "unsupported operand type(s)", w)
  | Some ws =>
      match read_get_file_path t ws filename with
      | None => (Failure traversal_error, w)
      | Some p =>
          let '(ex, w1) := exists_ p w in
          if negb ex then
            (Failure ("File not found: '" +:+ filename +:+ "'"), w1)
          else
            match read_text p w1 with
            | (Some content, w2) => (ReadOk filename content (String.length content), w2)
            | (None, w2) => (Failure "Is a directory", w2)
            end
      end
  end.

(** [FileWriteTool._get_file_path]: as for reading, and the parent
    directory is created. *)
Definition write_get_file_path (t : Tool) (ws : Path) (filename : string) (w : World)
    : (list string + string) * World :=
  let file_path := join ws (parse filename) in
  match relative_to (resolve (cwd t) file_path) (resolve (cwd t) ws) with
  | None => (inr traversal_error, w)
  | Some _ =>
      let p := resolve (cwd t) file_path in
      match mkdir_parents (parent p) w with
      | (Some _, w1) => (inl p, w1)
      | (None, w1) => (inr "File exists", w1)
      end
  end.

(** [FileWriteTool.execute] *)
Definition file_write (t : Tool) (filename content : string) (append : bool) (w : World)
    : result * World :=
  match workspace_dir t with
  | None => (Failure "unsupported operand type(s)", w)
  | Some ws =>
      match write_get_file_path t ws filename w with
      | (inr e, w1) => (Failure e, w1)
      | (inl p, w1) =>
          if append then
            let '(ex, w2) := exists_ p w1 in
            let '(existing, w3) :=
              if ex then read_text p w2 else (Some "", w2) in
            match existing with
            | None => (Failure "Is a directory", w3)
            | Some existing =>
                let new_content :=
                  existing +:+ (if is_empty existing then "" else nl) +:+ content in
                match write_text p new_content w3 with
                | (Some _, w4) =>
                    (WriteOk "append" filename (String.length content)
                             (String.length new_content), w4)
                | (None, w4) => (Failure "Is a directory", w4)
                end
            end
          else
            match write_text p content w1 with
            | (Some _, w2) =>
                (WriteOk "write" filename (String.length content) (String.length content), w2)
            | (None, w2) => (Failure "Is a directory", w2)
            end
      end
  end.

(** The first step of [FileEditTool.execute]: an absolute [file_path] is
    taken as it is, a relative one is joined to the workspace directory. *)
Definition full_path (ws : Path) (file_path : string) : Path :=
  if is_absolute (parse file_path) then parse file_path
  else join ws (parse file_path).

(** [FileEditTool.execute].  The containment test compares the rendered
    strings of the two resolved paths with [str.startswith]. *)
Definition file_edit (t : Tool) (file_path old_text new_text : string) (w : World)
    : result * World :=
  match workspace_dir t with
  | None => (Failure "No workspace configured.", w)
  | Some ws =>
      let p := resolve (cwd t) (full_path ws file_path) in
      if negb (startswith (render p) (render (resolve (cwd t) ws))) then
        (Failure ("Security error: File path outside workspace: " +:+ file_path), w)
      else
        let '(ex, w1) := exists_ p w in
        if negb ex then (Failure ("File not found: " +:+ file_path), w1)
        else
          match read_text p w1 with
          | (None, w2) => (Failure ("Unexpected error editing " +:+ file_path), w2)
          | (Some original_content, w2) =>
              if negb (contains old_text original_content) then
                (Failure ("Text not found in " +:+ file_path), w2)
              else
                let occurrences := count original_content old_text in
                if (1 <? occurrences)%nat then
                  (Failure ("Ambiguous replacement: Text appears "
                            +:+ Sources.str_of_nat occurrences +:+ " times in " +:+ file_path), w2)
                else
                  let new_content := replace original_content old_text new_text in
                  match write_text p new_content w2 with
                  | (Some _, w3) =>
                      (EditOk file_path (String.length old_text) (String.length new_text), w3)
                  | (None, w3) => (Failure ("Unexpected error editing " +:+ file_path), w3)
                  end
          end
  end.

End FileTools.

(** ** The Message Log ([MessageManager]) *)

Module MessageLog.
Import PyStr.

Inductive Role := System | User | Assistant | ToolRole.

#[global] Instance Role_eq_dec : EqDecision Role.
Proof. solve_decision. Defined.

(** A tool-call proposal in the vendor's function-calling shape. *)
Record ToolCall := mkToolCall {
  tc_id : string;
  tc_type : string;
  tc_name : string;
  tc_arguments : string
}.

Record Message := mkMessage {
  role : Role;
  content : option string;
  tool_calls : option (list ToolCall);
  tool_call_id : option string
}.

(** The manager: the in-memory list, whether a [persist_dir] was given, the
    decoded content of [messages.json] ([None] while the file does not
    exist), and whether the directory accepts writes. *)
Record Manager := mkManager {
  messages : list Message;
  persisting : bool;
  messages_file : option (list Message);
  writable : bool
}.

(** [_save]: nothing without a [persist_dir]; a failing write is logged and
    swallowed. *)
Definition _save (m : Manager) : Manager :=
  if persisting m && writable m then
    {| messages := messages m; persisting := persisting m;
       messages_file := Some (messages m); writable := writable m |}
  else m.

Definition append (msg : Message) (m : Manager) : Manager :=
  {| messages := messages m ++ [msg]; persisting := persisting m;
     messages_file := messages_file m; writable := writable m |}.

Definition add_system_message (c : string) (m : Manager) : Manager :=
  _save (append {| role := System; content := Some c; tool_calls := None; tool_call_id := None |} m).

Definition add_user_message (c : string) (m : Manager) : Manager :=
  _save (append {| role := User; content := Some c; tool_calls := None; tool_call_id := None |} m).

Definition truthy_str (o : option string) : bool :=
  match o with Some s => negb (is_empty s) | None => false end.

Definition truthy_list {A} (o : option (list A)) : bool :=
  match o with Some (_ :: _) => true | _ => false end.

(** The five assertions on a proposal; the record type already provides the
    keys, so only the type tag can fail. *)
Definition valid_tool_call (tc : ToolCall) : bool := String.eqb (tc_type tc) "function".

(** [add_assistant_message]; [None] stands for the raised [ValueError] or
    [AssertionError], in which case nothing was appended. *)
Definition add_assistant_message (c : option string) (tcs : option (list ToolCall))
    (m : Manager) : option Manager :=
  if negb (truthy_str c) && negb (truthy_list tcs) then None
  else
    let c' := if truthy_str c then c else None in
    if truthy_list tcs then
      if forallb valid_tool_call (default [] tcs) then
        Some (_save (append {| role := Assistant; content := c'; tool_calls := tcs;
                               tool_call_id := None |} m))
      else None
    else
      Some (_save (append {| role := Assistant; content := c'; tool_calls := None;
                             tool_call_id := None |} m)).

Definition add_tool_result (call_id c : string) (m : Manager) : Manager :=
  _save (append {| role := ToolRole; content := Some c; tool_calls := None;
                   tool_call_id := Some call_id |} m).

Definition get_messages (m : Manager) : list Message := messages m.

Definition is_role (r : Role) (msg : Message) : bool := bool_decide (role msg = r).

(** [clear] *)
Definition clear (keep_system : bool) (m : Manager) : Manager :=
  {| messages := if keep_system then List.filter (is_role System) (messages m) else [];
     persisting := persisting m; messages_file := messages_file m; writable := writable m |}.

Definition get_last_message (m : Manager) : option Message := last (messages m).

Definition get_conversation_length (m : Manager) : nat :=
  length (List.filter (fun msg => negb (is_role System msg)) (messages m)).

(** [_load]: a missing or unreadable file leaves the list as it is. *)
Definition _load (m : Manager) : Manager :=
  match messages_file m with
  | Some data => {| messages := data; persisting := persisting m;
                    messages_file := messages_file m; writable := writable m |}
  | None => m
  end.

(** [MessageManager(system_prompt, persist_dir)] over the given disk state. *)
Definition init (system_prompt : string) (persist : bool)
    (on_disk : option (list Message)) (can_write : bool) : Manager :=
  let m0 := {| messages := []; persisting := persist;
               messages_file := if persist then on_disk else None; writable := can_write |} in
  let m1 := if persist then _load m0 else m0 in
  if negb (is_empty system_prompt) && bool_decide (messages m1 = [])
  then add_system_message system_prompt m1 else m1.

(** The mutators, as data, for statements that range over all of them. *)
Inductive mutator :=
| AppendSystem (c : string)
| AppendUser (c : string)
| AppendAssistant (c : option string) (tcs : option (list ToolCall))
| AppendToolResult (call_id c : string)
| Clear (keep_system : bool).

Definition run (op : mutator) (m : Manager) : option Manager :=
  match op with
  | AppendSystem c => Some (add_system_message c m)
  | AppendUser c => Some (add_user_message c m)
  | AppendAssistant c tcs => add_assistant_message c tcs m
  | AppendToolResult i c => Some (add_tool_result i c m)
  | Clear k => Some (clear k m)
  end.

(** What "flushed" means: the file holds the in-memory list. *)
Definition flushed (m : Manager) : Prop := messages_file m = Some (messages m).

End MessageLog.

(** ** Context compaction ([CompactContextTool.execute]) *)

Module Compaction.
Import PyStr Json MessageLog.

(** What the code reads from a model response: [message.content] and
    [message.tool_calls]. *)
Record Reply := mkReply {
  r_content : option string;
  r_tool_calls : option (list ToolCall)
}.

(** The collaborators of the tool.  [chat] is the model call; [None] is a
    raised exception.  [json_loads] decodes tool arguments.  [dumps] is
    [json.dumps] of a [file_read] result. *)
Record Env := mkEnv {
  chat : list Message -> option Reply;
  json_loads : string -> option jobj;
  dumps : FileTools.result -> string
}.

Record Tool := mkTool {
  has_message_manager : bool;
  has_llm_provider : bool;
  file_tool : FileTools.Tool
}.

Inductive result :=
| Unavailable (error : string)
| Kept (message : string) (messages_before messages_after : nat)
| Compacted (messages_before messages_after old_messages_summarized recent_messages_kept : nat)
| Failed (error : string).

Definition msg (r : Role) (c : option string) : Message :=
  {| role := r; content := c; tool_calls := None; tool_call_id := None |}.

(** The backwards walk of step 3.  [rev_msgs] is the part of the log still
    to visit, last message first, so the head sits at index
    [length (tail)].  Returns the final [user_count] and the index at which
    the walk stopped, if it did. *)
Fixpoint scan_back (K : Z) (rev_msgs : list Message) (user_count : nat)
    : nat * option nat :=
  match rev_msgs with
  | [] => (user_count, None)
  | m :: rest =>
      if is_role User m then
        if (Z.of_nat (S user_count) =? K)%Z then (S user_count, Some (length rest))
        else scan_back K rest (S user_count)
      else scan_back K rest user_count
  end.

(** [all_messages[a:b]] *)
Definition slice {A} (a b : nat) (l : list A) : list A := drop a (take b l).

(** The opening sentence of the prompt; its text takes part in no branch. *)
Definition COMPACTION_AGENT_SYSTEM_PROMPT : string :=
  "You are a conversation context compressor agent.".

Definition dq : string := String (ascii_of_nat 34) EmptyString.

(** [json.dumps({"error": f"Unknown tool: {tool_name}"})] for a name that
    needs no escaping. *)
Definition unknown_tool_json (tool_name : string) : string :=
  "{" +:+ dq +:+ "error" +:+ dq +:+ ": " +:+ dq +:+ "Unknown tool: " +:+ tool_name +:+ dq +:+ "}".

Definition summarize_request : string :=
  "Summarize the above conversation using the 5-section XML format. Use file_read if needed.".

Definition summary_head : string :=
  String (ascii_of_nat 195) (String (ascii_of_nat 176) (String (ascii_of_nat 197)
  (String (ascii_of_nat 184) (String (ascii_of_nat 226) (String (ascii_of_nat 128)
  (String (ascii_of_nat 156) (String (ascii_of_nat 226) (String (ascii_of_nat 128)
  (String (ascii_of_nat 185) " **[Context Summary - Previous Conversation]**")))))))))
  +:+ nl +:+ nl.

Definition summary_tail : string :=
  nl +:+ nl +:+ "---" +:+ nl
  +:+ "Please review the above summary and confirm your understanding of previous work.".

Definition fallback_confirmation : string :=
  "I understand the previous work and will continue from here.".

Definition continue_text : string := "Good. Please continue your work.".

(** One tool call of the compaction agent: the tool message to append, or
    [None] when the code raises (undecodable arguments, no [filename], no
    [file_read] tool). *)
Definition run_tool_call (env : Env) (t : Tool) (tc : ToolCall) (w : FileTools.World)
    : option (Message * FileTools.World) :=
  match json_loads env (tc_arguments tc) with
  | None => None
  | Some tool_args =>
      if String.eqb (tc_name tc) "file_read" then
        match FileTools.workspace_dir (file_tool t), get "filename" tool_args with
        | Some _, Some (JStr filename) =>
            let '(res, w') := FileTools.file_read (file_tool t) filename w in
            Some ({| role := ToolRole; content := Some (dumps env res);
                     tool_calls := None; tool_call_id := Some (tc_id tc) |}, w')
        | Some _, Some _ =>
            Some ({| role := ToolRole;
                     content := Some (dumps env (FileTools.Failure "unsupported operand type(s)"));
                     tool_calls := None; tool_call_id := Some (tc_id tc) |}, w)
        | _, _ => None
        end
      else
        Some ({| role := ToolRole;
                 content := Some (unknown_tool_json (tc_name tc));
                 tool_calls := None; tool_call_id := Some (tc_id tc) |}, w)
  end.

Fixpoint run_tool_calls (env : Env) (t : Tool) (tcs : list ToolCall)
    (acc : list Message) (w : FileTools.World) : option (list Message * FileTools.World) :=
  match tcs with
  | [] => Some (acc, w)
  | tc :: tcs' =>
      match run_tool_call env t tc w with
      | None => None
      | Some (m, w') => run_tool_calls env t tcs' (acc ++ [m]) w'
      end
  end.

Inductive agent_outcome :=
| Summary (summary_text : option string)
| Exhausted
| Raised.

(** Step 7, the nested loop: [iterations] model calls at most. *)
Fixpoint compaction_agent (env : Env) (t : Tool) (iterations : nat)
    (compact_messages : list Message) (w : FileTools.World)
    : agent_outcome * FileTools.World :=
  match iterations with
  | O => (Exhausted, w)
  | S n =>
      match chat env compact_messages with
      | None => (Raised, w)
      | Some reply =>
          if negb (truthy_list (r_tool_calls reply)) then
            (Summary (r_content reply), w)
          else
            let assistant :=
              {| role := Assistant; content := r_content reply;
                 tool_calls := r_tool_calls reply; tool_call_id := None |} in
            match run_tool_calls env t (default [] (r_tool_calls reply))
                    (compact_messages ++ [assistant]) w with
            | None => (Raised, w)
            | Some (msgs, w') => compaction_agent env t n msgs w'
            end
      end
  end.

Definition replace_messages (new_messages : list Message) (m : Manager) : Manager :=
  _save {| messages := new_messages; persisting := persisting m;
           messages_file := messages_file m; writable := writable m |}.

(** The messages kept in front: every system message of the log. *)
Definition system_messages (all_messages : list Message) : list Message :=
  List.filter (is_role System) all_messages.

(** The index found by step 3, defaulting to the length of the log. *)
Definition split_index (K : Z) (all_messages : list Message) : nat :=
  default (length all_messages) (snd (scan_back K (rev all_messages) 0)).

Definition user_count (K : Z) (all_messages : list Message) : nat :=
  fst (scan_back K (rev all_messages) 0).

Definition old_messages (K : Z) (all_messages : list Message) : list Message :=
  slice (length (system_messages all_messages)) (split_index K all_messages) all_messages.

Definition recent_messages (K : Z) (all_messages : list Message) : list Message :=
  drop (split_index K all_messages) all_messages.

Definition summary_message (summary_text : string) : Message :=
  msg User (Some (summary_head +:+ summary_text +:+ summary_tail)).

Definition continue_message : Message := msg User (Some continue_text).

(** [execute(keep_recent_user_messages)] *)
Definition execute (env : Env) (t : Tool) (keep_recent_user_messages : Z)
    (m : Manager) (w : FileTools.World) : result * Manager * FileTools.World :=
  if negb (has_message_manager t) then (Unavailable "MessageManager not available", m, w)
  else if negb (has_llm_provider t) then (Unavailable "LLM provider not available", m, w)
  else
    let all_messages := get_messages m in
    let n := length all_messages in
    if (n <=? 3)%nat then (Kept "Too few messages to compact" n n, m, w)
    else if (Z.of_nat (user_count keep_recent_user_messages all_messages)
             <? keep_recent_user_messages)%Z
    then (Kept ("Only "
                +:+ Sources.str_of_nat (user_count keep_recent_user_messages all_messages)
                +:+ " user messages found, keeping all") n n, m, w)
    else
      let old := old_messages keep_recent_user_messages all_messages in
      let recent := recent_messages keep_recent_user_messages all_messages in
      match old with
      | [] => (Kept "No old messages to compact" n n, m, w)
      | _ :: _ =>
          let compact_messages :=
            msg System (Some COMPACTION_AGENT_SYSTEM_PROMPT) :: old
            ++ [msg User (Some summarize_request)] in
          match compaction_agent env t 10 compact_messages w with
          | (Raised, w') => (Failed "exception", m, w')
          | (Exhausted, w') => (Failed "Compaction agent timeout", m, w')
          | (Summary summary, w') =>
              if negb (truthy_str summary) then (Failed "Compaction agent timeout", m, w')
              else
                let summary_text := default "" summary in
                let confirmation_messages :=
                  system_messages all_messages ++ [summary_message summary_text] in
                match chat env confirmation_messages with
                | None => (Failed "exception", m, w')
                | Some reply =>
                    let confirmation_text :=
                      if truthy_str (r_content reply) then default "" (r_content reply)
                      else fallback_confirmation in
                    let new_messages :=
                      (system_messages all_messages
                       ++ [summary_message summary_text; msg Assistant (Some confirmation_text)]
                       ++ recent) ++ [continue_message] in
                    (Compacted n (length new_messages) (length old) (length recent),
                     replace_messages new_messages m, w')
                end
          end
      end.

End Compaction.

(** ** Artifact extraction (the tail of [agent_stream]) *)

Module Artifact.
Import PyStr.

Record Artifact := mkArtifact {
  type : string;
  title : string;
  html_content : string;
  file_path : string;
  file_size_kb : nat
}.

(** Literal match under [re.IGNORECASE]. *)
Fixpoint is_prefix_ci (p l : list ascii) : bool :=
  match p, l with
  | [], _ => true
  | _ :: _, [] => false
  | a :: p', b :: l' => Ascii.eqb (lower_char a) (lower_char b) && is_prefix_ci p' l'
  end.

(** A lazy [.*?]: the shortest prefix after which [stop] accepts the rest.
    [dot] tells which characters the dot may consume. *)
Fixpoint lazy_until (dot : ascii -> bool) (stop : list ascii -> bool) (l : list ascii)
    : option (list ascii * list ascii) :=
  if stop l then Some ([], l)
  else match l with
       | [] => None
       | c :: l' =>
           if dot c then
             match lazy_until dot stop l' with
             | Some (x, r) => Some (c :: x, r)
             | None => None
             end
           else None
       end.

(** [re.search]: the leftmost position at which [m] matches; returns the
    text before the match and what [m] captured. *)
Fixpoint search {G} (m : list ascii -> option G) (l : list ascii)
    : option (list ascii * G) :=
  match m l with
  | Some g => Some ([], g)
  | None =>
      match l with
      | [] => None
      | c :: l' =>
          match search m l' with
          | Some (before, g) => Some (c :: before, g)
          | None => None
          end
      end
  end.

Definition any_char (c : ascii) : bool := true.
Definition not_newline (c : ascii) : bool := negb (Ascii.eqb c (ascii_of_nat 10)).

Definition DOCTYPE : string := "<!DOCTYPE html>".
Definition fence_html : string := "```html".
Definition fence : string := "```".
Definition html_close : string := "</html>".

(** The body [<!DOCTYPE html>.*?</html>] followed by [tail]; the capture is
    the body. *)
Definition match_document (tail : list ascii -> bool) (l : list ascii)
    : option (list ascii) :=
  if is_prefix_ci (chars DOCTYPE) l then
    let n := length (chars DOCTYPE) in
    let closes r :=
      is_prefix_ci (chars html_close) r && tail (drop (length (chars html_close)) r) in
    match lazy_until any_char closes (drop n l) with
    | Some (x, r) => Some (take n l ++ x ++ take (length (chars html_close)) r)
    | None => None
    end
  else None.

(** Pattern 1: a fenced block; group 1 is the document. *)
Definition match_fenced (l : list ascii) : option (list ascii) :=
  if is_prefix_ci (chars fence_html) l then
    match_document (fun r => is_prefix (chars fence) (lstrip_chars r))
                   (lstrip_chars (drop (length (chars fence_html)) l))
  else None.

(** Pattern 2: a bare document; group 0 is the document. *)
Definition match_bare (l : list ascii) : option (list ascii) :=
  match_document (fun _ => true) l.

Definition gt : ascii := ascii_of_nat 62.
Definition lt : ascii := ascii_of_nat 60.

Fixpoint skip_to_gt (l : list ascii) : option (list ascii * list ascii) :=
  match l with
  | [] => None
  | c :: l' =>
      if Ascii.eqb c gt then Some ([], l')
      else match skip_to_gt l' with
           | Some (x, r) => Some (c :: x, r)
           | None => None
           end
  end.

(** The title pattern; the dot does not cross a line end here. *)
Definition match_h1 (l : list ascii) : option (list ascii) :=
  if is_prefix_ci (chars "<h1") l then
    match skip_to_gt (drop 3 l) with
    | Some (_, r) =>
        match lazy_until not_newline (is_prefix_ci (chars "</h1>")) r with
        | Some (x, _) => Some x
        | None => None
        end
    | None => None
    end
  else None.

(** [re.sub(r'<[^>]+>', '', s)] *)
Fixpoint strip_tags_from (skip : nat) (l : list ascii) : list ascii :=
  match l with
  | [] => []
  | c :: l' =>
      match skip with
      | S k => strip_tags_from k l'
      | O =>
          if Ascii.eqb c lt then
            match skip_to_gt l' with
            | Some ((_ :: _) as x, _) => strip_tags_from (S (length x)) l'
            | _ => c :: strip_tags_from 0 l'
            end
          else c :: strip_tags_from 0 l'
      end
  end.

Definition blog_title (html_code : list ascii) : string :=
  let raw :=
    match search match_h1 html_code with
    | Some (_, g) => g
    | None => chars "Research Report"
    end in
  text (strip_chars (strip_tags_from 0 raw)).

(** [html_match]: the text before the match and the extracted document. *)
Definition html_match (final_response : string) : option (list ascii * list ascii) :=
  match search match_fenced (chars final_response) with
  | Some m => Some m
  | None => search match_bare (chars final_response)
  end.

Definition default_overview : string := "Research completed. See interactive report below.".

(** The extraction block.  Returns the artifact and the assistant message of
    the envelope; the artifact's [html_content] is also what is written to
    [artifact.html]. *)
Definition extract (ready_for_final_answer : bool) (workspace_dir : option string)
    (final_response : string) : option Artifact * string :=
  if ready_for_final_answer && contains DOCTYPE final_response then
    match html_match final_response with
    | Some (before, html) =>
        let html_code := strip (text html) in
        let overview_text :=
          strip (replace (replace (strip (text before)) fence_html "") fence "") in
        match workspace_dir with
        | Some dir =>
            (Some {| type := "html_blog"; title := blog_title (chars html_code);
                     html_content := html_code;
                     file_path := dir +:+ "/artifact.html";
                     file_size_kb := String.length html_code / 1024 |},
             if is_empty overview_text then default_overview else overview_text)
        | None => (None, final_response)
        end
    | None => (None, final_response)
    end
  else (None, final_response).

End Artifact.

(** ** The response envelope *)

Module Response.

(** [ChatResponse], without the identifiers, the clock readings and the
    model label, which no branch of the agents reads. *)
Record ChatResponse := mkChatResponse {
  user_message : string;
  assistant_message : string;
  mode : string;
  thinking_steps : option (list Thinking.ThinkingStep);
  sources : option (list Sources.Source);
  used_tools : bool;
  has_code : bool;
  has_web_results : bool;
  prompt_tokens : option N;
  artifact : option Artifact.Artifact
}.

End Response.

(** ** The React loops *)

Module Loop.
Import PyStr Json MessageLog.

Inductive Stage := Hil | Research.

#[global] Instance Stage_eq_dec : EqDecision Stage.
Proof. solve_decision. Defined.

Inductive Event :=
| SessionCreated
| StageSwitch (stage : Stage)
| ThinkingStepEvent (data : Thinking.ThinkingStep)
| Cancelled (steps_completed : nat) (stage : option Stage)
| Error (message : string)
| Complete (data : Response.ChatResponse).

(** What [tool.execute] hands back: the dict of [web_search], any other
    dict (with its [success], [output] and [error] entries and its
    [json.dumps] rendering), a non-dict value (with its [str]), or an
    exception. *)
Inductive tool_return :=
| RetSearch (r : Sources.WebSearchResult)
| RetDict (success : bool) (output error : option string) (dumped : string)
| RetText (s : string)
| RetRaise (e : string).

(** A model response, as far as the loops read it: [usage.prompt_tokens]
    when [usage] is present, and the [reasoning], [content] and
    [tool_calls] of the first choice. *)
Record ModelReply := mkModelReply {
  usage : option N;
  reasoning : option string;
  reply_content : option string;
  reply_tool_calls : option (list ToolCall)
}.

(** The collaborators of one turn.  Indices are iteration numbers (from 1)
    for the cancel flag and the model, and step numbers (from 1) for tool
    executions.  [None] from a model call is a raised exception. *)
Record Env := mkEnv {
  cancel_requested : nat -> bool;
  llm_chat : nat -> list Message -> option ModelReply;
  llm_final : list Message -> option ModelReply;
  json_loads : string -> jobj + string;
  run_tool : nat -> string -> jobj -> tool_return;
  mcp_connect : option (list string);
  workspace_file : string -> option string;
  usage_percent : N -> string;
  compaction : Compaction.Env;
  compaction_files : FileTools.Tool;
  world : FileTools.World
}.

Record Config := mkConfig {
  max_iterations : nat;
  has_chat_service : bool;
  has_e2b_key : bool;
  workspace_dir : option string
}.

(** The agent object and the locals of the running turn.  [tools] is
    [self.tools]; [compact_ready] tells whether [compact_context] has been
    given the message manager.  The last two fields are traces kept for the
    statements: the tools whose [execute] ran, and the events yielded. *)
Record State := mkState {
  manager : Manager;
  stage : Stage;
  tools : gset string;
  tools_research : gset string;
  compact_ready : bool;
  thinking_steps : list Thinking.ThinkingStep;
  step_counter : nat;
  current_sources : list Sources.Source;
  last_prompt_tokens : N;
  executed : list string;
  events : list Event
}.

Definition MAX_ITERATIONS : nat := 200.
Definition CONTEXT_LIMIT : N := 400000.
Definition AUTO_COMPACT_THRESHOLD : N := 280000.

(** [max_iterations or ChatConfig.MAX_ITERATIONS], the value that
    [BaseAgent.__init__] stores and [Config.max_iterations] stands for. *)
Definition stored_max_iterations (max_iterations : option nat) : nat :=
  match max_iterations with
  | Some (S n) => S n
  | _ => MAX_ITERATIONS
  end.

(** State updates. *)
Definition with_manager (m : Manager) (st : State) : State :=
  mkState m (stage st) (tools st) (tools_research st) (compact_ready st)
          (thinking_steps st) (step_counter st) (current_sources st)
          (last_prompt_tokens st) (executed st) (events st).

Definition with_stage (s : Stage) (t tr : gset string) (ready : bool) (st : State) : State :=
  mkState (manager st) s t tr ready
          (thinking_steps st) (step_counter st) (current_sources st)
          (last_prompt_tokens st) (executed st) (events st).

Definition with_step (n : nat) (ts : list Thinking.ThinkingStep) (st : State) : State :=
  mkState (manager st) (stage st) (tools st) (tools_research st) (compact_ready st)
          ts n (current_sources st) (last_prompt_tokens st) (executed st) (events st).

Definition with_sources (src : list Sources.Source) (st : State) : State :=
  mkState (manager st) (stage st) (tools st) (tools_research st) (compact_ready st)
          (thinking_steps st) (step_counter st) src
          (last_prompt_tokens st) (executed st) (events st).

Definition with_tokens (n : N) (st : State) : State :=
  mkState (manager st) (stage st) (tools st) (tools_research st) (compact_ready st)
          (thinking_steps st) (step_counter st) (current_sources st)
          n (executed st) (events st).

Definition ran (name : string) (st : State) : State :=
  mkState (manager st) (stage st) (tools st) (tools_research st) (compact_ready st)
          (thinking_steps st) (step_counter st) (current_sources st)
          (last_prompt_tokens st) (executed st ++ [name]) (events st).

(** [yield e] *)
Definition emit (e : Event) (st : State) : State :=
  mkState (manager st) (stage st) (tools st) (tools_research st) (compact_ready st)
          (thinking_steps st) (step_counter st) (current_sources st)
          (last_prompt_tokens st) (executed st) (events st ++ [e]).

Definition user_says (c : string) (st : State) : State :=
  with_manager (add_user_message c (manager st)) st.

(** [_execute_tool] of [BaseAgent] ([agent = false]) and its override in
    [AgentModeAgent] ([agent = true]); they differ in the post-processing
    of [web_search].  [WebSearchTool.execute] returns nothing but its own
    dict, so any other shape under that name is treated as the exception
    the post-processor would raise on it. *)
Definition _execute_tool (agent : bool) (env : Env) (tool_call : ToolCall) (st : State)
    : string * State :=
  let tool_name := tc_name tool_call in
  match json_loads env (tc_arguments tool_call) with
  | inr e => ("Failed to parse tool arguments: " +:+ e, st)
  | inl tool_args =>
      if negb (bool_decide (tool_name ∈ tools st)) then
        ("Tool '" +:+ tool_name +:+ "' not found", st)
      else
        let st := ran tool_name st in
        let failed e := ("Tool execution failed: " +:+ e, st) in
        match run_tool env (step_counter st) tool_name tool_args with
        | RetRaise e => failed e
        | result =>
            if String.eqb tool_name "web_search" then
              match result with
              | RetSearch r =>
                  let '((formatted_text, _), src) :=
                    (if agent then Sources._process_web_search_for_agent
                     else Sources._process_web_search_result) (current_sources st) r in
                  (formatted_text, with_sources src st)
              | _ => failed "unexpected web_search result"
              end
            else if startswith tool_name "mcp_" then
              match result with
              | RetDict true output _ _ => (default "" output, st)
              | RetDict false _ error _ =>
                  ("Error: " +:+ default "MCP tool execution failed" error, st)
              | RetSearch _ => ("Error: MCP tool execution failed", st)
              | RetText s => (s, st)
              | RetRaise e => failed e
              end
            else
              match result with
              | RetDict _ _ _ dumped => (dumped, st)
              | RetSearch _ => failed "unexpected result"
              | RetText s => (s, st)
              | RetRaise e => failed e
              end
        end
  end.

(** The arguments recorded in the ThinkingStep: the decoded object, or
    [{"raw": ...}] when decoding fails. *)
Definition step_args (env : Env) (tool_call : ToolCall) : jobj :=
  match json_loads env (tc_arguments tool_call) with
  | inl tool_args => tool_args
  | inr _ => [("raw", JStr (tc_arguments tool_call))]
  end.

(** The body of [for tool_call in tool_calls]. *)
Definition run_tool_call (agent : bool) (env : Env) (reasoning : option string)
    (tool_call : ToolCall) (st : State) : State :=
  let st := with_step (S (step_counter st)) (thinking_steps st) st in
  let tool_args := step_args env tool_call in
  let '(tool_result, st) := _execute_tool agent env tool_call st in
  let thinking_step :=
    Thinking._create_thinking_step (step_counter st) (tc_name tool_call)
                                   tool_args tool_result reasoning in
  let st := with_step (step_counter st) (thinking_steps st ++ [thinking_step]) st in
  let st := emit (ThinkingStepEvent thinking_step) st in
  with_manager (add_tool_result (tc_id tool_call) tool_result (manager st)) st.

Fixpoint run_tool_calls (agent : bool) (env : Env) (reasoning : option string)
    (tool_calls : list ToolCall) (st : State) : State :=
  match tool_calls with
  | [] => st
  | tool_call :: rest =>
      run_tool_calls agent env reasoning rest (run_tool_call agent env reasoning tool_call st)
  end.

(** [any(step.has_code ...)], [any(step.tool == "web_search" ...)] *)
Definition any_code (ts : list Thinking.ThinkingStep) : bool := existsb Thinking.has_code ts.
Definition any_web (ts : list Thinking.ThinkingStep) : bool :=
  existsb (fun s => String.eqb (Thinking.tool s) "web_search") ts.

Definition non_empty {A} (l : list A) : option (list A) :=
  match l with [] => None | _ => Some l end.

Definition positive (n : N) : option N :=
  if (0 <? n)%N then Some n else None.

Definition error_text (e : string) : string := "Error during processing: " +:+ e.

(** The [except Exception] handler of both loops; the message is not empty,
    so appending it cannot raise. *)
Definition fail_turn (e : string) (st : State) : State :=
  let m := default (manager st) (add_assistant_message (Some (error_text e)) None (manager st)) in
  emit (Error (error_text e)) (with_manager m st).

(** *** Chat Mode: [ChatModeAgent.chat_stream] *)

(** [_initialize_tools] *)
Definition chat_tools (cfg : Config) (env : Env) : gset string :=
  {["web_search"]}
  ∪ (if has_e2b_key cfg then {["execute_python"]} else ∅)
  ∪ (match workspace_dir cfg with Some _ => {["file_read"]} | None => ∅ end)
  ∪ list_to_set (default [] (mcp_connect env)).

(** The per-turn locals are reset; the event list of the state collects
    what this turn yields. *)
Definition begin_turn (st : State) : State :=
  mkState (manager st) (stage st) (tools st) (tools_research st) (compact_ready st)
          [] 0 [] 0%N [] [].

Inductive chat_exit :=
| ChatBreak (final_response : string)
| ChatReturn.

Definition model_failure : string := "model call failed".
Definition type_assertion : string := "Tool call type must be 'function'".
Definition stopped_chat : string := "Response stopped by user.".
Definition no_response : string := "I don't have a response at this time.".

Definition track_usage (response : ModelReply) (st : State) : State :=
  match usage response with
  | Some n => with_tokens n st
  | None => st
  end.

Definition keep_truthy (o : option string) : option string :=
  if truthy_str o then o else None.

(** One pass through the body of the [while]; [None] is [continue]. *)
Definition chat_iteration (cfg : Config) (env : Env) (iteration : nat) (st : State)
    : State * option chat_exit :=
  if has_chat_service cfg && cancel_requested env iteration then
    (emit (Cancelled (length (thinking_steps st)) None) st, Some (ChatBreak stopped_chat))
  else
    match llm_chat env iteration (get_messages (manager st)) with
    | None => (fail_turn model_failure st, Some ChatReturn)
    | Some response =>
        let st := track_usage response st in
        let content := reply_content response in
        let tool_calls := reply_tool_calls response in
        if truthy_list tool_calls then
          match add_assistant_message (keep_truthy content) tool_calls (manager st) with
          | None => (fail_turn type_assertion st, Some ChatReturn)
          | Some m =>
              (run_tool_calls false env None (default [] tool_calls) (with_manager m st), None)
          end
        else
          let final_response :=
            if truthy_str content then default "" content else no_response in
          let m := default (manager st)
                     (add_assistant_message (Some final_response) None (manager st)) in
          (with_manager m st, Some (ChatBreak final_response))
    end.

(** [while iteration < self.max_iterations]; [fuel] is the number of
    iterations left and [iteration] the number already started.  Leaving
    the loop by exhaustion keeps the initial [final_response = ""]. *)
Fixpoint chat_loop (cfg : Config) (env : Env) (fuel iteration : nat) (st : State)
    : State * chat_exit :=
  match fuel with
  | O => (st, ChatBreak "")
  | S fuel' =>
      match chat_iteration cfg env (S iteration) st with
      | (st', Some exit) => (st', exit)
      | (st', None) => chat_loop cfg env fuel' (S iteration) st'
      end
  end.

(** What a generator leaves behind: the final state (with the events it
    yielded) and the exception that escaped it, if any. *)
Record Outcome := mkOutcome {
  final : State;
  escaped : option string
}.

Definition chat_response (message final_response : string) (st : State)
    : Response.ChatResponse :=
  {| Response.user_message := message;
     Response.assistant_message := final_response;
     Response.mode := "chat";
     Response.thinking_steps := non_empty (thinking_steps st);
     Response.sources := non_empty (current_sources st);
     Response.used_tools := (0 <? length (thinking_steps st))%nat;
     Response.has_code := any_code (thinking_steps st);
     Response.has_web_results := any_web (thinking_steps st);
     Response.prompt_tokens := positive (last_prompt_tokens st);
     Response.artifact := None |}.

Definition chat_stream (cfg : Config) (env : Env) (message : string) (st0 : State) : Outcome :=
  let st :=
    if bool_decide (tools st0 = ∅)
    then with_stage (stage st0) (chat_tools cfg env) (tools_research st0) (compact_ready st0) st0
    else st0 in
  let st := user_says message (begin_turn st) in
  match chat_loop cfg env (max_iterations cfg) 0 st with
  | (st, ChatReturn) => {| final := st; escaped := None |}
  | (st, ChatBreak final_response) =>
      {| final := emit (Complete (chat_response message final_response st)) st;
         escaped := None |}
  end.

(** *** Agent Mode: [AgentModeAgent.agent_stream] *)

Definition tools_hil : gset string := {["web_search"; "start_research"]}.

(** [self.tools_research] as [_initialize_tools] builds it. *)
Definition initial_tools_research (cfg : Config) : gset string :=
  {["web_search"; "stop_answer"; "compact_context"]}
  ∪ (if has_e2b_key cfg then {["execute_python"]} else ∅)
  ∪ (match workspace_dir cfg with
     | Some _ => {["file_read"; "file_write"; "file_list"; "research_assistant"]}
     | None => ∅
     end).

Definition reset_to_hil (st : State) : State :=
  with_stage Hil tools_hil (tools_research st) (compact_ready st) st.

(** [_switch_to_research_stage].  [self.tools] and [self.tools_research]
    are the same dict from here on, so the external tools join both. *)
Definition _switch_to_research_stage (env : Env) (st : State) : State :=
  let tr := tools_research st ∪ list_to_set (default [] (mcp_connect env)) in
  with_stage Research tr tr
             (bool_decide ("compact_context" ∈ tools_research st) || compact_ready st) st.

(** Opening words of the guidance of [StartResearchTool]. *)
Definition guidance : string := "You are now in deep research mode.".

Definition stop_prompt : string :=
  "Based on all the information gathered above, please provide a comprehensive "
  +:+ "answer to the user's query. Include relevant citations and references to "
  +:+ "the sources you've accessed. Structure your response clearly and be thorough.".

(** The blog prompt around the two injected files; the fixed sections are
    cut to their headings. *)
Definition blog_prompt (draft_content notes_content : string) : string :=
  "Research completed! Your research materials are provided below." +:+ nl
  +:+ "### draft.md (Your organized research with citations):" +:+ nl
  +:+ "---" +:+ nl +:+ draft_content +:+ nl +:+ "---" +:+ nl
  +:+ "### notes.md (Additional insights and observations):" +:+ nl
  +:+ "---" +:+ nl +:+ notes_content +:+ nl +:+ "---" +:+ nl
  +:+ "## Now Generate the HTML Blog".

Definition error_prompt : string :=
  "ERROR: In research stage, you must call tools." +:+ nl +:+ nl
  +:+ "RULES:" +:+ nl
  +:+ "1. Need more info → call web_search, execute_python, file_write, etc." +:+ nl
  +:+ "2. Ready to answer → call stop_answer" +:+ nl +:+ nl
  +:+ "What tool do you want to use?".

Definition str_of_N (n : N) : string := NilEmpty.string_of_uint (N.to_uint n).

Definition context_info (env : Env) (n : N) : string :=
  "<context_usage tokens=" +:+ Compaction.dq +:+ str_of_N n +:+ Compaction.dq
  +:+ " limit=" +:+ Compaction.dq +:+ str_of_N CONTEXT_LIMIT +:+ Compaction.dq
  +:+ " usage=" +:+ Compaction.dq +:+ usage_percent env n +:+ "%" +:+ Compaction.dq +:+ " />".

Definition more_information : string := "I need more information to provide an answer.".
Definition more_iterations : string := "I need more iterations to complete this request.".
Definition missing_tool : string := "'NoneType' object has no attribute 'execute'".

Definition proposes (name : string) (tool_calls : list ToolCall) : bool :=
  existsb (fun tc => String.eqb (tc_name tc) name) tool_calls.

(** The forced compaction after the tool results. *)
Definition force_compaction (env : Env) (st : State) : State :=
  if (AUTO_COMPACT_THRESHOLD <? last_prompt_tokens st)%N
     && bool_decide ("compact_context" ∈ tools st)
  then
    let tool := {| Compaction.has_message_manager := compact_ready st;
                   Compaction.has_llm_provider := true;
                   Compaction.file_tool := compaction_files env |} in
    let '(_, m, _) := Compaction.execute (compaction env) tool 10 (manager st) (world env) in
    with_manager m st
  else st.

Inductive agent_exit :=
| AgentCancelled
| AgentReady
| AgentReturn.

(** The envelope of the direct HIL answer; it is built without [mode],
    [has_code] is fixed and there is no artifact. *)
Definition hil_response (message final_response : string) (st : State)
    : Response.ChatResponse :=
  {| Response.user_message := message;
     Response.assistant_message := final_response;
     Response.mode := "chat";
     Response.thinking_steps := non_empty (thinking_steps st);
     Response.sources := non_empty (current_sources st);
     Response.used_tools := (0 <? length (thinking_steps st))%nat;
     Response.has_code := false;
     Response.has_web_results := any_web (thinking_steps st);
     Response.prompt_tokens := positive (last_prompt_tokens st);
     Response.artifact := None |}.

(** One pass through the body of the [while]; [None] is [continue]. *)
Definition agent_iteration (cfg : Config) (env : Env) (message : string)
    (iteration : nat) (st : State) : State * option agent_exit :=
  if has_chat_service cfg && cancel_requested env iteration then
    let st := if bool_decide (stage st = Research) then reset_to_hil st else st in
    (emit (Cancelled (length (thinking_steps st)) (Some (stage st))) st, Some AgentCancelled)
  else
    match llm_chat env iteration (get_messages (manager st)) with
    | None => (fail_turn model_failure st, Some AgentReturn)
    | Some response =>
        let st := track_usage response st in
        let reasoning := reasoning response in
        let content := reply_content response in
        let tool_calls := reply_tool_calls response in
        if truthy_list tool_calls then
          let calls := default [] tool_calls in
          if proposes "start_research" calls then
            if bool_decide ("start_research" ∈ tools st) then
              let st := ran "start_research" st in
              let st := _switch_to_research_stage env st in
              let st := emit (StageSwitch Research) st in
              (user_says guidance st, None)
            else (fail_turn missing_tool st, Some AgentReturn)
          else if proposes "stop_answer" calls then
            if bool_decide ("stop_answer" ∈ tools st) then
              let st := ran "stop_answer" st in
              let st :=
                if bool_decide (stage st = Research) then
                  user_says (blog_prompt (default "" (workspace_file env "draft.md"))
                                         (default "" (workspace_file env "notes.md"))) st
                else user_says stop_prompt st in
              (st, Some AgentReady)
            else (fail_turn missing_tool st, Some AgentReturn)
          else
            match add_assistant_message (keep_truthy reasoning) tool_calls (manager st) with
            | None => (fail_turn type_assertion st, Some AgentReturn)
            | Some m =>
                let st := run_tool_calls true env (keep_truthy reasoning) calls
                                         (with_manager m st) in
                let st :=
                  if (0 <? last_prompt_tokens st)%N
                  then user_says (context_info env (last_prompt_tokens st)) st else st in
                (force_compaction env st, None)
            end
        else if bool_decide (stage st = Hil) then
          let answer := if truthy_str content then content else reasoning in
          let final_response := if truthy_str answer then default "" answer else more_information in
          let m := default (manager st)
                     (add_assistant_message (Some final_response) None (manager st)) in
          let st := with_manager m st in
          (emit (Complete (hil_response message final_response st)) st, Some AgentReturn)
        else
          let st :=
            if truthy_str reasoning || truthy_str content then
              with_manager
                (default (manager st)
                   (add_assistant_message (if truthy_str reasoning then reasoning else content)
                                          None (manager st))) st
            else st in
          (user_says error_prompt st, None)
    end.

(** The loop; [None] as exit means the iterations ran out. *)
Fixpoint agent_loop (cfg : Config) (env : Env) (message : string)
    (fuel iteration : nat) (st : State) : State * option agent_exit :=
  match fuel with
  | O => (st, None)
  | S fuel' =>
      match agent_iteration cfg env message (S iteration) st with
      | (st', Some exit) => (st', Some exit)
      | (st', None) => agent_loop cfg env message fuel' (S iteration) st'
      end
  end.

Definition agent_response (message assistant_message : string)
    (artifact : option Artifact.Artifact) (st : State) : Response.ChatResponse :=
  {| Response.user_message := message;
     Response.assistant_message := assistant_message;
     Response.mode := "agent";
     Response.thinking_steps := non_empty (thinking_steps st);
     Response.sources := non_empty (current_sources st);
     Response.used_tools := (0 <? length (thinking_steps st))%nat;
     Response.has_code := any_code (thinking_steps st);
     Response.has_web_results := any_web (thinking_steps st);
     Response.prompt_tokens := positive (last_prompt_tokens st);
     Response.artifact := artifact |}.

(** Everything after the loop: the final-answer call when [stop_answer] was
    seen, the fixed text otherwise, then extraction and the envelope.  The
    final call and the append after it sit in a [try] that has no [except],
    so their exceptions leave the generator. *)
Definition agent_finish (cfg : Config) (env : Env) (message : string)
    (ready_for_final_answer : bool) (st : State) : Outcome :=
  let closing (final_response : string) (st : State) :=
    let '(artifact, assistant_message) :=
      Artifact.extract ready_for_final_answer (workspace_dir cfg) final_response in
    {| final := emit (Complete (agent_response message assistant_message artifact st)) st;
       escaped := None |} in
  if ready_for_final_answer then
    match llm_final env (get_messages (manager st)) with
    | None => {| final := st; escaped := Some model_failure |}
    | Some response =>
        let st := track_usage response st in
        match add_assistant_message (reply_content response) None (manager st) with
        | None =>
            {| final := st;
               escaped := Some "Assistant message must have either content or tool_calls" |}
        | Some m =>
            let st := with_manager m st in
            let st := if bool_decide (stage st = Research) then reset_to_hil st else st in
            closing (default "" (reply_content response)) st
        end
    end
  else
    let m := default (manager st)
               (add_assistant_message (Some more_iterations) None (manager st)) in
    closing more_iterations (with_manager m st).

Definition agent_stream (cfg : Config) (env : Env) (message : string) (st0 : State) : Outcome :=
  let st := user_says message (begin_turn st0) in
  match agent_loop cfg env message (max_iterations cfg) 0 st with
  | (st, Some AgentReturn) => {| final := st; escaped := None |}
  | (st, Some AgentReady) => agent_finish cfg env message true st
  | (st, Some AgentCancelled) => agent_finish cfg env message false st
  | (st, None) => agent_finish cfg env message false st
  end.

(** *** The turn: [ChatService.process_message_stream] over [route_stream] *)

Definition route_stream (cfg : Config) (env : Env) (mode message : string) (st : State)
    : Outcome :=
  if String.eqb mode "chat" then chat_stream cfg env message st
  else agent_stream cfg env message st.

(** The events of one turn, in order.  An exception leaving the agent is
    turned into an [error] event here. *)
Definition process_message_stream (cfg : Config) (env : Env)
    (session_id : option string) (mode message : string) (st : State) : list Event :=
  let out := route_stream cfg env mode message st in
  (match session_id with None => [SessionCreated] | Some _ => [] end)
  ++ events (final out)
  ++ (match escaped out with Some e => [Error e] | None => [] end).

Definition is_complete (e : Event) : bool := match e with Complete _ => true | _ => false end.
Definition is_cancelled (e : Event) : bool := match e with Cancelled _ _ => true | _ => false end.
Definition is_error (e : Event) : bool := match e with Error _ => true | _ => false end.
Definition is_thinking_step (e : Event) : bool :=
  match e with ThinkingStepEvent _ => true | _ => false end.
Definition is_terminal (e : Event) : bool := is_complete e || is_cancelled e || is_error e.

Definition count_events (p : Event -> bool) (l : list Event) : nat := length (List.filter p l).

End Loop.

(** ** Vocabulary of the statements *)

Module Shape.
Import MessageLog Loop.

(** No terminal event. *)
Definition quiet (l : list Event) : Prop :=
  Forall (fun e => is_terminal e = false) l.

(** A [cancelled] event at the end and no terminal event before it. *)
Definition cancelled_last (l : list Event) : Prop :=
  exists pre n s, l = pre ++ [Cancelled n s] /\ quiet pre.

(** Indices 1, 2, ..., M in this order. *)
Definition dense_from_one (src : list Sources.Source) : Prop :=
  map Sources.idx src = seq 1 (length src).

(** The Source list that the post-processors build from a result. *)
Definition built_from (r : Sources.WebSearchResult) : list Sources.Source :=
  map (fun p => Sources.source_of p.1 p.2) (Sources.enumerate 1 (Sources.results r)).

(** The list was built from the non-empty result of a [web_search]
    execution of the turn. *)
Definition from_search (env : Env) (src : list Sources.Source) : Prop :=
  exists n args r,
    run_tool env n "web_search" args = RetSearch r
    /\ Sources.results r <> []
    /\ src = built_from r.

Definition sources_ok (env : Env) (src : list Sources.Source) : Prop :=
  src = [] \/ from_search env src.

Definition event_ok (env : Env) (e : Event) : Prop :=
  match e with
  | Complete resp =>
      forall src, Response.sources resp = Some src -> from_search env src
  | _ => True
  end.

(** The invariant of a turn for its sources: the current list is empty or
    built from a search, and so are the lists of the envelopes sent. *)
Definition TurnInv (env : Env) (st : State) : Prop :=
  sources_ok env (current_sources st) /\ Forall (event_ok env) (events st).

(** The cancel flag can have been seen by the loop. *)
Definition cancel_observed (cfg : Config) (env : Env) : Prop :=
  has_chat_service cfg = true /\ exists i, cancel_requested env i = true.

(** [complete] or [error]. *)
Definition closing (e : Event) : bool := is_complete e || is_error e.

(** The events of a finished turn: a closing event at the end, before it
    no terminal event at all, or a single [cancelled] right in front of a
    closing [complete]. *)
Definition turn_shape (cfg : Config) (env : Env) (l : list Event) : Prop :=
  exists pre last,
    l = pre ++ [last] /\ closing last = true
    /\ (quiet pre
        \/ (cancelled_last pre /\ is_complete last = true /\ cancel_observed cfg env)).

(** What holds of the events when the chat loop is left. *)
Definition chat_post (cfg : Config) (env : Env) (st : State) (ex : chat_exit) : Prop :=
  match ex with
  | ChatReturn => exists pre e, events st = pre ++ [Error e] /\ quiet pre
  | ChatBreak _ =>
      quiet (events st) \/ (cancelled_last (events st) /\ cancel_observed cfg env)
  end.

(** The same for the agent loop; [None] is exhaustion. *)
Definition agent_post (cfg : Config) (env : Env) (st : State) (ex : option agent_exit)
    : Prop :=
  match ex with
  | Some AgentReturn =>
      exists pre last, events st = pre ++ [last] /\ closing last = true /\ quiet pre
  | Some AgentCancelled => cancelled_last (events st) /\ cancel_observed cfg env
  | Some AgentReady | None => quiet (events st)
  end.

(** A generator that raised has yielded no terminal event; one that
    returned has the shape of a finished turn. *)
Definition outcome_shape (cfg : Config) (env : Env) (out : Outcome) : Prop :=
  match escaped out with
  | Some _ => quiet (events (final out))
  | None => turn_shape cfg env (events (final out))
  end.

(** The model keeps proposing tools that the log accepts, and nobody
    cancels: no iteration ends the loop. *)
Definition keeps_calling_tools (cfg : Config) (env : Env) : Prop :=
  (forall i, has_chat_service cfg && cancel_requested env i = false)
  /\ forall i msgs, exists response calls,
       llm_chat env i msgs = Some response
       /\ reply_tool_calls response = Some calls
       /\ calls <> []
       /\ forallb valid_tool_call calls = true.

(** No proposal of the model is a control tool. *)
Definition no_control_proposal (env : Env) : Prop :=
  forall i msgs response calls,
    llm_chat env i msgs = Some response ->
    reply_tool_calls response = Some calls ->
    proposes "start_research" calls = false /\ proposes "stop_answer" calls = false.

(** The number of user messages of a log. *)
Definition users (l : list Message) : nat := length (List.filter (is_role User) l).

End Shape.

(** ** Concrete scenarios *)

Module Scenario.
Import Json MessageLog Loop.

(** A decoder that knows the empty object and one search request. *)
Definition decode (s : string) : jobj + string :=
  if String.eqb s "{}" then inl []
  else if String.eqb s "{query}" then inl [("query", JStr "postgres release")]
  else inr "Expecting value: line 1 column 1 (char 0)".

Definition idle_compaction : Compaction.Env :=
  {| Compaction.chat := fun _ => None;
     Compaction.json_loads := fun _ => None;
     Compaction.dumps := fun _ => "" |}.

Definition no_files : FileTools.Tool :=
  {| FileTools.workspace_dir := None; FileTools.cwd := [] |}.

Definition empty_world : FileTools.World :=
  {| FileTools.fs := ∅; FileTools.trace := [] |}.

Definition call (id name arguments : string) : ToolCall :=
  {| tc_id := id; tc_type := "function"; tc_name := name; tc_arguments := arguments |}.

Definition proposing (calls : list ToolCall) : ModelReply :=
  {| usage := None; reasoning := None; reply_content := None; reply_tool_calls := Some calls |}.

Definition saying (answer : string) : ModelReply :=
  {| usage := None; reasoning := None; reply_content := Some answer; reply_tool_calls := None |}.

Definition log0 : Manager :=
  {| messages := [{| role := System; content := Some "system prompt";
                     tool_calls := None; tool_call_id := None |}];
     persisting := false; messages_file := None; writable := true |}.

Definition cfg (n : nat) : Config :=
  {| max_iterations := n; has_chat_service := true; has_e2b_key := false;
     workspace_dir := Some "/data/chats/s1/workspace_agent" |}.

Definition fresh (s : Stage) (t : gset string) : State :=
  {| manager := log0; stage := s; tools := t;
     tools_research := initial_tools_research (cfg 1); compact_ready := false;
     thinking_steps := []; step_counter := 0; current_sources := [];
     last_prompt_tokens := 0%N; executed := []; events := [] |}.

(** An environment given by its cancel flag, its model and its tools. *)
Definition world_of (cancel : nat -> bool) (model : nat -> option ModelReply)
    (final_reply : option ModelReply) (tool : string -> tool_return) : Env :=
  {| cancel_requested := cancel;
     llm_chat := fun i _ => model i;
     llm_final := fun _ => final_reply;
     json_loads := decode;
     run_tool := fun _ name _ => tool name;
     mcp_connect := Some [];
     workspace_file := fun _ => None;
     usage_percent := fun _ => "0.0";
     compaction := idle_compaction;
     compaction_files := no_files;
     world := empty_world |}.

Definition never : nat -> bool := fun _ => false.
Definition at_once : nat -> bool := fun _ => true.
Definition no_tool : string -> tool_return := fun _ => RetText "".


(** A search whose vendor result lists the same page twice, then an answer. *)
Definition hit (url title : string) : Sources.SearchHit :=
  {| Sources.h_url := url; Sources.h_title := title; Sources.h_snippet := "";
     Sources.h_age := None; Sources.h_cache_path := None |}.

Definition twice_hit : Sources.WebSearchResult :=
  {| Sources.query := "postgres release";
     Sources.search_type := Some "auto";
     Sources.results := [hit "https://www.postgresql.org/" "PostgreSQL";
                         hit "https://www.postgresql.org/" "PostgreSQL: Home"];
     Sources.error := None |}.

Definition search_then_answer : nat -> option ModelReply :=
  fun i => if (i =? 1)%nat
           then Some (proposing [call "call_1" "web_search" "{query}"])
           else Some (saying "PostgreSQL 17 [1]").

Definition search_tool : string -> tool_return :=
  fun name => if String.eqb name "web_search" then RetSearch twice_hit else RetText "".

Definition searching : Env := world_of never search_then_answer None search_tool.

(** The stop button was pressed before the first iteration. *)
Definition stopped : Env := world_of at_once (fun _ => None) None no_tool.

(** A model that asks for one more search in every iteration. *)
Definition always_searching : nat -> option ModelReply :=
  fun _ => Some (proposing [call "call_1" "web_search" "{query}"]).

Definition tireless : Env := world_of never always_searching None search_tool.



(** A final answer whose document spells the doctype in lower case. *)
Definition lower_case_report : string :=
  "Overview. <!doctype html><html><h1>Quorum Tuning</h1></html>".

Definition reporting : Env :=
  world_of never (fun _ => None) (Some (saying lower_case_report)) no_tool.

(** A session workspace and, next to it, a directory whose name merely
    begins with the name of the workspace. *)
Definition session : list string := ["data"; "chats"; "s1"].
Definition workspace : list string := session ++ ["workspace_agent"].
Definition neighbour : list string := session ++ ["workspace_agent_old"].

Definition editor : FileTools.Tool :=
  {| FileTools.workspace_dir := Some (Paths.parse "/data/chats/s1/workspace_agent");
     FileTools.cwd := ["app"] |}.

Definition disk : FileTools.World :=
  {| FileTools.fs :=
       {[ workspace := FileTools.Dir;
          workspace ++ ["notes.md"] := FileTools.File "alpha beta alpha";
          neighbour := FileTools.Dir;
          neighbour ++ ["notes.md"] := FileTools.File "their secret" ]};
     FileTools.trace := [] |}.

(** A persisted log in step with its file. *)
Definition synced : Manager :=
  add_user_message "hello" (init "system prompt" true None true).

Definition user_msg (c : string) : Message := Compaction.msg User (Some c).
Definition assistant_msg (c : string) : Message := Compaction.msg Assistant (Some c).

(** Eleven user messages; the two messages before the tenth most recent
    one are all there is to summarise. *)
Definition long_log : Manager :=
  {| messages :=
       Compaction.msg System (Some "system prompt")
       :: user_msg "q1" :: assistant_msg "a1"
       :: map user_msg ["q2"; "q3"; "q4"; "q5"; "q6"; "q7"; "q8"; "q9"; "q10"; "q11"];
     persisting := true; messages_file := None; writable := true |}.

Definition summarizer : Compaction.Env :=
  {| Compaction.chat :=
       fun _ => Some {| Compaction.r_content := Some "<overall_goal>answer</overall_goal>";
                        Compaction.r_tool_calls := None |};
     Compaction.json_loads := fun _ => None;
     Compaction.dumps := fun _ => "" |}.

Definition compactor : Compaction.Tool :=
  {| Compaction.has_message_manager := true;
     Compaction.has_llm_provider := true;
     Compaction.file_tool := no_files |}.

End Scenario.
(** ** Vocabulary of the further statements *)

Module Protocol.
Import MessageLog Loop.

(** The ThinkingSteps carried by the [thinking_step] events of a stream, in
    order. *)
Fixpoint steps_of (l : list Event) : list Thinking.ThinkingStep :=
  match l with
  | [] => []
  | ThinkingStepEvent d :: l' => d :: steps_of l'
  | _ :: l' => steps_of l'
  end.

(** Reading a stream from the left with the ThinkingSteps [seen] so far:
    each [thinking_step] event carries the next number, a [cancelled] event
    reports the number of steps seen, and a [complete] event carries the
    steps seen (or nothing when there are none). *)
Fixpoint consistent (seen : list Thinking.ThinkingStep) (l : list Event) : Prop :=
  match l with
  | [] => True
  | e :: l' =>
      match e with
      | ThinkingStepEvent d =>
          Thinking.step d = S (length seen) /\ consistent (seen ++ [d]) l'
      | Cancelled n _ => n = length seen /\ consistent seen l'
      | Complete r =>
          Response.thinking_steps r = non_empty seen /\ consistent seen l'
      | _ => consistent seen l'
      end
  end.

(** The function-calling discipline of a message list: an assistant message
    that carries proposals is followed by one tool message per proposal,
    with the proposals' ids in their order, and tool messages occur nowhere
    else.  [pending] are the ids still to be answered. *)
Fixpoint answered (pending : list string) (l : list Message) : bool :=
  match l with
  | [] => match pending with [] => true | _ => false end
  | m :: l' =>
      match pending with
      | id :: rest =>
          bool_decide (role m = ToolRole) && bool_decide (tool_call_id m = Some id)
          && answered rest l'
      | [] =>
          match role m with
          | ToolRole => false
          | Assistant => answered (map tc_id (default [] (tool_calls m))) l'
          | _ => answered [] l'
          end
      end
  end.

(** The invariant of the steps: the events so far are consistent and report exactly the
    steps the agent has collected. *)
Definition StepInv (st : State) : Prop :=
  consistent [] (events st)
  /\ steps_of (events st) = thinking_steps st
  /\ step_counter st = length (thinking_steps st).

(** The invariant of the log: the log is the log [base] the loop started
    from, followed by messages that keep the calling discipline. *)
Definition LogInv (base : list Message) (st : State) : Prop :=
  exists added,
    messages (manager st) = base ++ added /\ answered [] added = true.

(** The file follows the log whenever the manager persists and the
    directory takes writes. *)
Definition in_step (p w : bool) (m : Manager) : Prop :=
  persisting m = p /\ writable m = w /\ (p && w = true -> flushed m).

Definition FlushInv (p w : bool) (st : State) : Prop := in_step p w (manager st).


(** An access made for the compaction agent: its target lies below the
    resolved workspace directory of the agent's [file_read] tool. *)
Definition reads_inside (t : Compaction.Tool) (a : FileTools.access) : Prop :=
  exists ws rest,
    FileTools.workspace_dir (Compaction.file_tool t) = Some ws
    /\ FileTools.target a
       = Paths.resolve (FileTools.cwd (Compaction.file_tool t)) ws ++ rest.

End Protocol.

(** ** The search tool ([WebSearchTool]) *)

Module WebSearch.
Import PyStr Paths FileTools.

(** The character classes of [_sanitize_filename], on ASCII: [\w] and the
    hyphen; [\s] is [PyStr.is_space]. *)
Definition is_digit (c : ascii) : bool :=
  let n := nat_of_ascii c in (48 <=? n)%nat && (n <=? 57)%nat.

Definition is_lower (c : ascii) : bool :=
  let n := nat_of_ascii c in (97 <=? n)%nat && (n <=? 122)%nat.

Definition underscore : ascii := ascii_of_nat 95.
Definition hyphen : ascii := ascii_of_nat 45.

Definition is_word (c : ascii) : bool :=
  is_digit c || is_upper c || is_lower c || Ascii.eqb c underscore.

Definition is_ascii (c : ascii) : bool := (nat_of_ascii c <? 128)%nat.

(** The characters of a sanitised name: letters, digits, underscore and
    hyphen. *)
Definition plain (c : ascii) : bool := is_word c || Ascii.eqb c hyphen.

(** [re.sub(p+, '_', s)] for a character class [p]: every maximal run of
    characters of the class becomes one underscore.  [in_run] tells that
    the previous character belonged to a run. *)
Fixpoint squeeze (p : ascii -> bool) (in_run : bool) (l : list ascii) : list ascii :=
  match l with
  | [] => []
  | c :: l' =>
      if p c then
        if in_run then squeeze p true l' else underscore :: squeeze p true l'
      else c :: squeeze p false l'
  end.

Fixpoint lstrip_with (p : ascii -> bool) (l : list ascii) : list ascii :=
  match l with
  | c :: l' => if p c then lstrip_with p l' else l
  | [] => []
  end.

(** [s.strip('_')] *)
Definition strip_underscores (l : list ascii) : list ascii :=
  reverse (lstrip_with (Ascii.eqb underscore)
             (reverse (lstrip_with (Ascii.eqb underscore) l))).

(** [_sanitize_filename(title, max_length)], for a title of ASCII
    characters (the classes above say nothing about other characters, which
    the three patterns of the source keep, replace or remove by their
    Unicode class). *)
Definition _sanitize_filename (title : string) (max_length : nat) : string :=
  if is_empty title then "untitled"
  else
    let sanitized :=
      List.filter (fun c => is_word c || is_space c || Ascii.eqb c hyphen) (chars title) in
    let sanitized := squeeze is_space false sanitized in
    let sanitized := squeeze (Ascii.eqb underscore) false sanitized in
    let sanitized := strip_underscores (take max_length sanitized) in
    match sanitized with
    | [] => "untitled"
    | _ :: _ => text sanitized
    end.

(** One result of the vendor, as [ExaSearchProvider._normalize_response]
    hands it over; titles, URLs and contents are strings. *)
Record VendorHit := mkVendorHit {
  v_title : string;
  v_url : string;
  v_content : string;
  v_age : option string;
  v_highlights : list string
}.

Record VendorResponse := mkVendorResponse {
  vr_search_type : option string;
  vr_results : list VendorHit
}.

(** The search provider: the query, the number of results asked for, the
    search type and the category; [inr] is a raised exception. *)
Definition Provider : Type :=
  string -> Z -> string -> option string -> VendorResponse + string.

(** [max(1, min(num_results, 10))] *)
Definition clamp (num_results : Z) : Z := Z.max 1 (Z.min num_results 10).

(** The text of a cache file. *)
Definition file_content (r : VendorHit) : string :=
  "# " +:+ v_title r +:+ nl +:+ nl
  +:+ "**URL**: " +:+ v_url r +:+ nl
  +:+ "**Published**: " +:+ default "None" (v_age r) +:+ nl +:+ nl
  +:+ "---" +:+ nl +:+ nl
  +:+ v_content r.

(** The names tried for a cache file: [safe.md], then [safe_1.md],
    [safe_2.md] and so on. *)
Definition candidate (safe_filename : string) (counter : nat) : string :=
  match counter with
  | O => safe_filename +:+ ".md"
  | S _ => safe_filename +:+ "_" +:+ Sources.str_of_nat counter +:+ ".md"
  end.

(** [while file_path.exists()]: the first candidate from [counter] on that
    does not exist; every test is recorded.  [rounds] bounds the number of
    tests; the loop of the source has no bound and ends because the
    candidates differ from one another and the directory is finite. *)
Fixpoint free_path (rounds : nat) (cache_dir : list string) (safe_filename : string)
    (counter : nat) (w : World) : option (list string) * World :=
  let file_path := cache_dir ++ [candidate safe_filename counter] in
  let '(ex, w1) := exists_ file_path w in
  if ex then
    match rounds with
    | O => (None, w1)
    | S rounds' => free_path rounds' cache_dir safe_filename (S counter) w1
    end
  else (Some file_path, w1).

(** The caching of one result: the [cache_path] entry and the new world.
    Any exception (a file in the way of the directory, a failing write)
    leaves the entry at [None]. *)
Definition cache_result (t : Tool) (r : VendorHit) (w : World) : option string * World :=
  match workspace_dir t with
  | Some ws =>
      if is_empty (v_content r) then (None, w)
      else
        let cache_dir := resolve (cwd t) ws ++ ["cache"] in
        match mkdir_parents cache_dir w with
        | (None, w1) => (None, w1)
        | (Some _, w1) =>
            let safe_filename := _sanitize_filename (v_title r) 100 in
            match free_path (size (fs w1)) cache_dir safe_filename 0 w1 with
            | (None, w2) => (None, w2)
            | (Some file_path, w2) =>
                match write_text file_path (file_content r) w2 with
                | (Some _, w3) =>
                    (Some ("cache/" +:+ default "" (last file_path)), w3)
                | (None, w3) => (None, w3)
                end
            end
        end
  | None => (None, w)
  end.

(** The loop over the results of the vendor. *)
Fixpoint normalize (t : Tool) (results : list VendorHit) (w : World)
    : list Sources.SearchHit * World :=
  match results with
  | [] => ([], w)
  | r :: results' =>
      let '(cache_path, w1) := cache_result t r w in
      let hit :=
        {| Sources.h_url := v_url r;
           Sources.h_title := v_title r;
           Sources.h_snippet := String.concat " " (v_highlights r);
           Sources.h_age := v_age r;
           Sources.h_cache_path := cache_path |} in
      let '(hits, w2) := normalize t results' w1 in
      (hit :: hits, w2)
  end.

(** [WebSearchTool.execute] *)
Definition execute (t : Tool) (search : Provider) (query : string) (num_results : Z)
    (search_type : string) (category : option string) (w : World)
    : Sources.WebSearchResult * World :=
  match search query (clamp num_results) search_type category with
  | inr e =>
      ({| Sources.query := query; Sources.search_type := Some "error";
          Sources.results := []; Sources.error := Some ("Web search failed: " +:+ e) |}, w)
  | inl response =>
      let '(hits, w') := normalize t (vr_results response) w in
      ({| Sources.query := query;
          Sources.search_type := Some (default "auto" (vr_search_type response));
          Sources.results := hits; Sources.error := None |}, w')
  end.

End WebSearch.

(** ** The Message Log as the frontend sees it ([get_messages_for_frontend]) *)

Module Frontend.
Import PyStr MessageLog.

(** [MessageDisplay], without its time stamp.  The keys [tool_calls] and
    [is_tool_result] that the code puts into the dict are no fields of the
    model and are dropped by its constructor. *)
Record MessageDisplay := mkMessageDisplay {
  d_role : Role;
  d_content : string
}.

(** The body of the loop for a message that is not a system message.  In
    a [Message], [tool_calls = Some _] stands for a dict with the key
    [tool_calls], and [content = None] for a [content] of [None].  [None]
    as result is the validation error of [MessageDisplay], whose [content]
    must be a string. *)
Definition display (msg : Message) : option MessageDisplay :=
  let content :=
    match tool_calls msg with
    | Some tcs =>
        if truthy_str (content msg) then content msg
        else Some ("Using tools: " +:+ String.concat ", " (map tc_name tcs))
    | None => content msg
    end in
  match content with
  | Some c => Some {| d_role := role msg; d_content := c |}
  | None => None
  end.

Fixpoint frontend_messages (l : list Message) : option (list MessageDisplay) :=
  match l with
  | [] => Some []
  | msg :: l' =>
      if is_role System msg then frontend_messages l'
      else
        match display msg with
        | None => None
        | Some d =>
            match frontend_messages l' with
            | Some ds => Some (d :: ds)
            | None => None
            end
        end
  end.

Definition get_messages_for_frontend (m : Manager) : option (list MessageDisplay) :=
  frontend_messages (messages m).

(** A sequence of calls of the mutating methods; a call that raises leaves
    the manager as it was. *)
Definition apply_all (ops : list mutator) (m : Manager) : Manager :=
  foldl (fun m op => default m (run op m)) m ops.

(** A message that the frontend can show: it has a content or proposals. *)
Definition showable (msg : Message) : Prop :=
  is_Some (content msg) \/ is_Some (tool_calls msg).

End Frontend.

(** ** Listing the workspace ([FileListTool]) *)

Module FileList.
Import PyStr Paths FileTools.

Record entry := mkEntry {
  name : string;
  size : nat
}.

(** What [execute] returns: the "Workspace is empty" answer, the list of
    files with its [count], [workspace] and [message] entries, or the
    failure of the enclosing [except]. *)
Inductive listing :=
| Empty
| Found (files : list entry) (count : nat) (workspace message : string)
| ListError (error : string).

(** [str(p)] for a path as it was given. *)
Definition str (p : Path) : string :=
  if absolute p then String slash (String.concat "/" (parts p))
  else match parts p with
       | [] => "."
       | _ => String.concat "/" (parts p)
       end.

(** The walk of [rglob] reaches [base/rest] when every directory on the way
    down exists: [base] itself and each proper prefix of [rest]. *)
Fixpoint walkable (m : gmap (list string) node) (base rest : list string) : bool :=
  match rest with
  | [] => true
  | c :: rest' =>
      match m !! base with
      | Some Dir => walkable m (base ++ [c]) rest'
      | _ => false
      end
  end.

(** One entry of the file system seen from the walk: a regular file
    strictly below [base] gives its relative name and its size. *)
Definition found (m : gmap (list string) node) (base : list string)
    (kv : list string * node) : option entry :=
  match kv.2, relative_to kv.1 base with
  | File content, Some (c :: rest) =>
      if walkable m base (c :: rest)
      then Some {| name := String.concat "/" (c :: rest); size := String.length content |}
      else None
  | _, _ => None
  end.

(** The order of [files.sort(key=lambda x: x["name"])]. *)
Definition name_le (a b : entry) : Prop := String.leb (name a) (name b) = true.

#[global] Instance name_le_dec : RelDecision name_le :=
  fun a b => decide (String.leb (name a) (name b) = true).

(** [FileListTool.execute].  The tool only reads.  The order in which the
    walk meets the files does not matter after the sort, since two files
    have different relative names. *)
Definition execute (t : Tool) (w : World) : listing :=
  match workspace_dir t with
  | None => ListError "'NoneType' object has no attribute 'exists'"
  | Some ws =>
      let base := resolve (cwd t) ws in
      if negb (bool_decide (is_Some (fs w !! base))) then Empty
      else
        let files := merge_sort name_le (omap (found (fs w) base) (map_to_list (fs w))) in
        match files with
        | [] => Empty
        | _ =>
            Found files (length files) (str ws)
                  ("Found " +:+ Sources.str_of_nat (length files) +:+ " file(s) in workspace")
        end
  end.

End FileList.

(** ** The life of the workspace directory *)

Module Workspace.
Import PyStr Paths FileTools.

(** [path.mkdir(exist_ok=True)]: an existing directory is accepted, a file
    in its place raises, and a new directory needs its parent. *)
Definition mkdir (p : list string) (w : World) : option unit * World :=
  let w' := touch (Mkdir p) w in
  match fs w !! p, fs w !! parent p with
  | Some Dir, _ => (Some tt, w')
  | Some (File _), _ => (None, w')
  | None, Some Dir => (Some tt, {| fs := <[p := Dir]> (fs w); trace := trace w' |})
  | None, _ => (None, w')
  end.

(** One statement after the other; an exception ends the sequence. *)
Definition and_then (a b : World -> option unit * World) (w : World)
    : option unit * World :=
  match a w with
  | (Some _, w1) => b w1
  | (None, w1) => (None, w1)
  end.

Infix ">>" := and_then (at level 61, left associativity).

(** [if not f.exists(): f.write_text(c)] *)
Definition seed (p : list string) (c : string) (w : World) : option unit * World :=
  let '(ex, w1) := exists_ p w in
  if ex then (Some tt, w1) else write_text p c w1.

Definition progress_template : string :=
  "# Research Progress" +:+ nl +:+ nl +:+
  "## Strategy" +:+ nl +:+
  "Document your research strategy and plan here." +:+ nl +:+ nl +:+
  "## Status" +:+ nl +:+
  "Track your current progress." +:+ nl.

Definition notes_template : string :=
  "# Work Notes" +:+ nl +:+ nl +:+
  "Record your analysis, takeaways, and findings here during the research process."
  +:+ nl +:+ nl.

Definition draft_template : string :=
  "# Draft Answer" +:+ nl +:+ nl +:+
  "Compose your final answer here. Use [1][2] for citations." +:+ nl +:+ nl.

(** [shutil.rmtree(p)]: the directory goes with everything below it; a
    path that is no directory raises. *)
Definition rmtree (p : list string) (w : World) : option unit * World :=
  let w' := touch (Write p) w in
  match fs w !! p with
  | Some Dir =>
      (Some tt,
       {| fs := filter (fun kv => components_prefix p kv.1 = false) (fs w);
          trace := trace w' |})
  | _ => (None, w')
  end.

(** [if d.exists(): shutil.rmtree(d)] inside a [try] whose [except] logs
    the exception and goes on. *)
Definition remove_workspace (t : Tool) (w : World) : World :=
  match workspace_dir t with
  | None => w
  | Some ws =>
      let base := resolve (cwd t) ws in
      let '(ex, w1) := exists_ base w in
      if ex then (rmtree base w1).2 else w1
  end.

Module ChatMode.

(** [ChatModeAgent._initialize_workspace] (the one of [BaseAgent] is the
    same); [None] when one of the calls raises. *)
Definition _initialize_workspace (t : Tool) (w : World) : option unit * World :=
  match workspace_dir t with
  | None => (Some tt, w)
  | Some ws =>
      let base := resolve (cwd t) ws in
      (mkdir_parents base
       >> mkdir (base ++ ["cache"])
       >> mkdir_parents (base ++ ["analysis"; "images"])
       >> mkdir_parents (base ++ ["analysis"; "data"])) w
  end.

(** [ChatModeAgent._clean_workspace_after_chat] *)
Definition _clean_workspace_after_chat : Tool -> World -> World := remove_workspace.

End ChatMode.

Module AgentMode.

(** [AgentModeAgent._initialize_workspace] *)
Definition _initialize_workspace (t : Tool) (w : World) : option unit * World :=
  match workspace_dir t with
  | None => (Some tt, w)
  | Some ws =>
      let base := resolve (cwd t) ws in
      (mkdir_parents base
       >> mkdir (base ++ ["cache"])
       >> mkdir (base ++ ["conversations"])
       >> mkdir_parents (base ++ ["analysis"; "images"])
       >> mkdir_parents (base ++ ["analysis"; "data"])
       >> mkdir_parents (base ++ ["analysis"; "reports"])
       >> seed (base ++ ["progress.md"]) progress_template
       >> seed (base ++ ["notes.md"]) notes_template
       >> seed (base ++ ["draft.md"]) draft_template) w
  end.



End AgentMode.



(** A tool whose workspace is the root, and the empty disk. *)
Definition at_root : Tool := {| workspace_dir := Some (parse "/"); cwd := [] |}.

Definition blank : World := {| fs := ∅; trace := [] |}.

(** [op] neither removes nor changes an entry of the file system. *)
Definition keeps (op : World -> option unit * World) : Prop :=
  forall w q n, fs w !! q = Some n -> fs (op w).2 !! q = Some n.

End Workspace.

(** ** The response history ([chat_history.json]) *)

Module History.
Import PyStr Json.

Record ChatHistory := mkChatHistory {
  session_id : option string;
  created_at : string;
  updated_at : string;
  responses : list jobj
}.

(** The file: absent, not decodable, or holding a history.  A file that
    decodes to something else than a history is not considered. *)
Inductive stored :=
| Missing
| Unreadable
| Stored (h : ChatHistory).

Record Disk := mkDisk {
  file : stored;
  writable : bool
}.

(** What the history functions use of an agent; an agent without a session
    has no file. *)
Record Agent := mkAgent {
  session : option string;
  model : string;
  temperature : string;
  chat_history : ChatHistory
}.

(** The readings of the clock and the random identifier of one call, in
    the order in which the code takes them. *)
Record Stamps := mkStamps {
  created_now : string;
  updated_now : string;
  response_id : string;
  timestamp : string;
  saved_now : string
}.

(** The arguments of [_add_response_to_history]. *)
Record Turn := mkTurn {
  user_message : string;
  assistant_message : string;
  sources : list jval;
  thinking_steps : option (list Thinking.ThinkingStep);
  total_time_ms : string;
  mode : string;
  prompt_tokens : option string;
  artifact : option jobj;
  stage : option string
}.

Definition _create_empty_history (a : Agent) (s : Stamps) : ChatHistory :=
  {| session_id := session a;
     created_at := created_now s;
     updated_at := updated_now s;
     responses := [] |}.

(** [_load_chat_history]: a file that cannot be decoded is logged and
    taken for none. *)
Definition _load_chat_history (a : Agent) (d : Disk) (s : Stamps) : ChatHistory :=
  match session a with
  | None => _create_empty_history a s
  | Some _ =>
      match file d with
      | Stored h => h
      | _ => _create_empty_history a s
      end
  end.

Definition with_history (h : ChatHistory) (a : Agent) : Agent :=
  {| session := session a; model := model a; temperature := temperature a;
     chat_history := h |}.

(** [_save_chat_history]: the time is set in memory first; a failing write
    is logged. *)
Definition _save_chat_history (a : Agent) (d : Disk) (now : string) : Agent * Disk :=
  match session a with
  | None => (a, d)
  | Some _ =>
      let h := {| session_id := session_id (chat_history a);
                  created_at := created_at (chat_history a);
                  updated_at := now;
                  responses := responses (chat_history a) |} in
      (with_history h a,
       if writable d then {| file := Stored h; writable := writable d |} else d)
  end.

Definition opt_num (o : option string) : jval :=
  match o with Some n => JNum n | None => JNull end.

(** The dict that [_add_response_to_history] appends.  [dump] is
    [model_dump(mode='json')] of a ThinkingStep. *)
Definition response_entry (dump : Thinking.ThinkingStep -> jval) (a : Agent) (t : Turn)
    (s : Stamps) : jobj :=
  [ ("response_id", JStr (response_id s));
    ("user_message", JStr (user_message t));
    ("assistant_message", JStr (assistant_message t));
    ("sources", JArr (sources t));
    ("thinking_steps",
     match thinking_steps t with
     | Some (x :: l) => JArr (map dump (x :: l))
     | _ => JNull
     end);
    ("mode", JStr (mode t));
    ("used_tools",
     JBool ((0 <? length (sources t))%nat
            || match thinking_steps t with
               | Some l => (0 <? length l)%nat
               | None => false
               end));
    ("has_code",
     match thinking_steps t with
     | None => JNull
     | Some [] => JArr []
     | Some l => JBool (existsb Thinking.has_code l)
     end);
    ("has_web_results", JBool (0 <? length (sources t))%nat);
    ("total_time_ms", JNum (total_time_ms t));
    ("model_used", JStr (model a));
    ("temperature", JNum (temperature a));
    ("prompt_tokens", opt_num (prompt_tokens t));
    ("timestamp", JStr (timestamp s)) ]
  ++ match artifact t with
     | Some (x :: l) => [("artifact", JObj (x :: l))]
     | _ => []
     end
  ++ match stage t with
     | Some st => if is_empty st then [] else [("stage", JStr st)]
     | None => []
     end.

(** [_add_response_to_history]: the history is read again from the file,
    the entry is appended and the whole is written back. *)
Definition _add_response_to_history (dump : Thinking.ThinkingStep -> jval) (a : Agent)
    (d : Disk) (t : Turn) (s : Stamps) : string * Agent * Disk :=
  let h := _load_chat_history a d s in
  let h' := {| session_id := session_id h; created_at := created_at h;
               updated_at := updated_at h;
               responses := responses h ++ [response_entry dump a t s] |} in
  let '(a', d') := _save_chat_history (with_history h' a) d (saved_now s) in
  (response_id s, a', d').

Definition get_chat_history (a : Agent) : ChatHistory := chat_history a.

(** The two agents of a router and the file they share. *)
Record Router := mkRouter {
  chat_agent : Agent;
  agent_mode : Agent;
  disk : Disk
}.

Inductive Mode := ChatMode | AgentMode.

(** [BaseAgent.__init__] for the two agents of [AgentRouter.__init__]. *)
Definition new_router (session_id : option string) (model_chat model_agent temp : string)
    (d : Disk) (s_chat s_agent : Stamps) : Router :=
  let chat0 := {| session := session_id; model := model_chat; temperature := temp;
                  chat_history := mkChatHistory None "" "" [] |} in
  let agent0 := {| session := session_id; model := model_agent; temperature := temp;
                   chat_history := mkChatHistory None "" "" [] |} in
  {| chat_agent := with_history (_load_chat_history chat0 d s_chat) chat0;
     agent_mode := with_history (_load_chat_history agent0 d s_agent) agent0;
     disk := d |}.

(** The end of a turn of either mode. *)
Definition respond (dump : Thinking.ThinkingStep -> jval) (m : Mode) (t : Turn) (s : Stamps)
    (r : Router) : Router :=
  match m with
  | ChatMode =>
      let '(_, a, d) := _add_response_to_history dump (chat_agent r) (disk r) t s in
      {| chat_agent := a; agent_mode := agent_mode r; disk := d |}
  | AgentMode =>
      let '(_, a, d) := _add_response_to_history dump (agent_mode r) (disk r) t s in
      {| chat_agent := chat_agent r; agent_mode := a; disk := d |}
  end.

Definition respond_all (dump : Thinking.ThinkingStep -> jval)
    (turns : list (Mode * Turn * Stamps)) (r : Router) : Router :=
  foldl (fun r '(m, t, s) => respond dump m t s r) r turns.

(** The entry that a turn adds. *)
Definition entry_of (dump : Thinking.ThinkingStep -> jval) (r : Router)
    (x : Mode * Turn * Stamps) : jobj :=
  let '(m, t, s) := x in
  response_entry dump (match m with ChatMode => chat_agent r | AgentMode => agent_mode r end)
    t s.

(** [AgentRouter.get_chat_history]: the copy of the Chat Mode agent. *)
Definition router_chat_history (r : Router) : ChatHistory := get_chat_history (chat_agent r).

Definition stored_responses (f : stored) : list jobj :=
  match f with Stored h => responses h | _ => [] end.

(** The result of [ChatService.get_conversation_history_public]. *)
Record PublicHistory := mkPublicHistory {
  p_responses : list jobj;
  p_total_messages : nat;
  p_created_at : string;
  p_updated_at : string
}.

(** [ChatService.get_conversation_history_public]: read from the file;
    [None] without a file, without responses, or when reading fails. *)
Definition get_conversation_history_public (d : Disk) : option PublicHistory :=
  match file d with
  | Stored h =>
      match responses h with
      | [] => None
      | _ =>
          Some {| p_responses := responses h;
                  p_total_messages := length (responses h);
                  p_created_at := created_at h;
                  p_updated_at := updated_at h |}
      end
  | _ => None
  end.

End History.

(** ** The session records of [ChatService] *)

Module Sessions.
Import PyStr Json.

(** A value of [self.chat_records].  [user_id] and [first_message] are
    what the code found in a file or was given; times are instants. *)
Record ChatRecord := mkChatRecord {
  r_session_id : string;
  r_user_id : jval;
  r_first_message : jval;
  r_display_name : option string;
  r_message_count : nat;
  r_created_at : Z;
  r_updated_at : Z
}.

(** A Python [dict] with string keys: the order of insertion is the order
    of iteration. *)
Definition dict (A : Type) : Type := list (string * A).

Fixpoint dict_get {A} (k : string) (d : dict A) : option A :=
  match d with
  | [] => None
  | (k', v) :: d' => if String.eqb k' k then Some v else dict_get k d'
  end.

(** [d[k] = v]: an existing key keeps its place. *)
Fixpoint dict_set {A} (k : string) (v : A) (d : dict A) : dict A :=
  match d with
  | [] => [(k, v)]
  | (k', v') :: d' =>
      if String.eqb k' k then (k', v) :: d' else (k', v') :: dict_set k v d'
  end.

(** One entry of [chats_dir.iterdir()]. *)
Record SessionDir := mkSessionDir {
  name : string;
  is_dir : bool;
  history : History.stored
}.

(** [value[:100]] for a value read from JSON; [None] when it raises. *)
Definition first_100 (v : jval) : option jval :=
  match v with
  | JStr s => Some (JStr (String.substring 0 100 s))
  | JArr l => Some (JArr (take 100 l))
  | _ => None
  end.

(** The body of the loop of [_load_existing_sessions] for one directory:
    the record to store, or [None] when the directory is passed over or
    an exception is logged.  [fromisoformat] is the parser of the standard
    library, [None] for its [ValueError]. *)
Definition load_session (fromisoformat : string -> option Z) (d : SessionDir)
    : option ChatRecord :=
  if negb (is_dir d) then None
  else
    match history d with
    | History.Stored h =>
        match History.responses h with
        | [] => None
        | first_response :: _ =>
            let user_id := default (JStr "anonymous") (get "user_id" first_response) in
            let user_message := default (JStr "") (get "user_message" first_response) in
            match fromisoformat (replace (History.created_at h) "Z" "+00:00"),
                  fromisoformat (replace (History.updated_at h) "Z" "+00:00"),
                  first_100 user_message with
            | Some created, Some updated, Some first =>
                Some {| r_session_id := name d;
                        r_user_id := user_id;
                        r_first_message := first;
                        r_display_name := None;
                        r_message_count := length (History.responses h);
                        r_created_at := created;
                        r_updated_at := updated |}
            | _, _, _ => None
            end
        end
    | _ => None
    end.

(** [_load_existing_sessions]; without a [chats] directory there is
    nothing to load. *)
Definition _load_existing_sessions (fromisoformat : string -> option Z)
    (chats_dir : option (list SessionDir)) : dict ChatRecord :=
  match chats_dir with
  | None => []
  | Some dirs =>
      foldl (fun recs d =>
               match load_session fromisoformat d with
               | Some r => dict_set (name d) r recs
               | None => recs
               end) [] dirs
  end.

(** An element of the list that [get_user_chat_sessions] returns. *)
Record Summary := mkSummary {
  s_session_id : string;
  s_first_message : jval;
  s_display_name : option string;
  s_message_count : nat;
  s_created_at : Z;
  s_updated_at : Z
}.

Definition summary (k : string) (r : ChatRecord) : Summary :=
  {| s_session_id := k;
     s_first_message := r_first_message r;
     s_display_name := r_display_name r;
     s_message_count := r_message_count r;
     s_created_at := r_created_at r;
     s_updated_at := r_updated_at r |}.

#[global] Instance jval_eq_dec : EqDecision jval.
Proof.
  refine (fix go (x y : jval) : Decision (x = y) :=
            match x, y with
            | JNull, JNull => left eq_refl
            | JBool a, JBool b => cast_if (decide (a = b))
            | JNum a, JNum b => cast_if (decide (a = b))
            | JStr a, JStr b => cast_if (decide (a = b))
            | JArr a, JArr b => cast_if (@list_eq_dec _ go a b)
            | JObj a, JObj b =>
                cast_if (@list_eq_dec _ (@prod_eq_dec _ _ _ go) a b)
            | _, _ => right _
            end);
    abstract congruence.
Defined.

(** The records of one user, in the order of the dict. *)
Fixpoint of_user (user_id : string) (records : dict ChatRecord) : list Summary :=
  match records with
  | [] => []
  | (k, r) :: records' =>
      if bool_decide (r_user_id r = JStr user_id)
      then summary k r :: of_user user_id records'
      else of_user user_id records'
  end.

(** [list.sort(key=updated_at, reverse=True)]: descending, and elements
    with the same key keep their order. *)
Fixpoint insert_desc (x : Summary) (l : list Summary) : list Summary :=
  match l with
  | [] => [x]
  | y :: l' =>
      if (s_updated_at x <? s_updated_at y)%Z then y :: insert_desc x l'
      else x :: y :: l'
  end.

Definition sort_desc (l : list Summary) : list Summary := foldr insert_desc [] l.

(** [l[:limit]], also for a negative [limit]. *)
Definition slice_to {A} (limit : Z) (l : list A) : list A :=
  if (0 <=? limit)%Z then take (Z.to_nat limit) l
  else take (length l - Z.to_nat (- limit)) l.

(** [ChatService.get_user_chat_sessions] *)
Definition get_user_chat_sessions (records : dict ChatRecord) (user_id : string) (limit : Z)
    : list Summary :=
  slice_to limit (sort_desc (of_user user_id records)).

Definition newer_first (a b : Summary) : Prop := (s_updated_at b <= s_updated_at a)%Z.

End Sessions.

(** ** Further scenarios *)

Module Cases.
Import Json MessageLog Loop Scenario.

(** The stop button is pressed while the first iteration is at work. *)
Definition late_stop : Env :=
  world_of (fun i => (1 <? i)%nat) always_searching None search_tool.



(** A vendor that returns the same article twice. *)
Definition article : WebSearch.VendorHit :=
  {| WebSearch.v_title := "PostgreSQL 17: What's New?";
     WebSearch.v_url := "https://www.postgresql.org/about/news/";
     WebSearch.v_content := "PostgreSQL 17 is out.";
     WebSearch.v_age := Some "2024-09-26";
     WebSearch.v_highlights := ["faster vacuum"] |}.

Definition articles : WebSearch.VendorResponse :=
  {| WebSearch.vr_search_type := Some "neural";
     WebSearch.vr_results := [article; article] |}.

Definition vendor : WebSearch.Provider := fun _ _ _ _ => inl articles.


(** A session with a Chat Mode turn followed by an Agent Mode turn. *)
Definition dump_step (d : Thinking.ThinkingStep) : Json.jval :=
  Json.JObj [("tool", Json.JStr (Thinking.tool d)); ("output", Json.JStr (Thinking.output d))].

Definition turn_of (question answer mode : string) (stage : option string) : History.Turn :=
  {| History.user_message := question;
     History.assistant_message := answer;
     History.sources := [];
     History.thinking_steps := None;
     History.total_time_ms := "1200";
     History.mode := mode;
     History.prompt_tokens := None;
     History.artifact := None;
     History.stage := stage |}.

Definition stamps_at (second : string) : History.Stamps :=
  {| History.created_now := "2025-03-01T10:00:" +:+ second +:+ "+00:00";
     History.updated_now := "2025-03-01T10:00:" +:+ second +:+ "+00:00";
     History.response_id := "resp_20250301_1000" +:+ second +:+ "_ab12cd";
     History.timestamp := "2025-03-01T10:00:" +:+ second +:+ "+00:00";
     History.saved_now := "2025-03-01T10:00:" +:+ second +:+ "+00:00" |}.

Definition no_history : History.Disk :=
  {| History.file := History.Missing; History.writable := true |}.

Definition new_session : History.Router :=
  History.new_router (Some "s1") "openai/gpt-5-chat" "openai/gpt-5" "0.7" no_history
    (stamps_at "00") (stamps_at "01").

Definition chat_turn : History.Mode * History.Turn * History.Stamps :=
  (History.ChatMode, turn_of "hello" "Hi there." "chat" None, stamps_at "10").

Definition agent_turn : History.Mode * History.Turn * History.Stamps :=
  (History.AgentMode, turn_of "research postgres" "What is the scope?" "agent" (Some "hil"),
   stamps_at "20").

(** The session directory that those two turns leave, and a reader of
    the times in it. *)
Definition stored_session : Sessions.SessionDir :=
  {| Sessions.name := "s1";
     Sessions.is_dir := true;
     Sessions.history :=
       History.file (History.disk
                       (History.respond_all dump_step [chat_turn; agent_turn] new_session)) |}.

Definition seconds (s : string) : option Z :=
  if String.eqb s "2025-03-01T10:00:10+00:00" then Some 10%Z
  else if String.eqb s "2025-03-01T10:00:20+00:00" then Some 20%Z
  else None.

(** A final answer with an overview and a fenced report. *)
Definition fenced_report : string :=
  "Here is the report." +:+ PyStr.nl +:+ "```html" +:+ PyStr.nl
  +:+ "<!DOCTYPE html><html><body><h1>Postgres <b>17</b></h1></body></html>"
  +:+ PyStr.nl +:+ "```" +:+ PyStr.nl +:+ "Done.".

Definition report_artifact : Artifact.Artifact :=
  {| Artifact.type := "html_blog";
     Artifact.title := "Postgres 17";
     Artifact.html_content :=
       "<!DOCTYPE html><html><body><h1>Postgres <b>17</b></h1></body></html>";
     Artifact.file_path := "/data/chats/s1/workspace_agent/artifact.html";
     Artifact.file_size_kb := 0 |}.

Definition record_of (k user : string) (updated : Z) : string * Sessions.ChatRecord :=
  (k, {| Sessions.r_session_id := k;
         Sessions.r_user_id := Json.JStr user;
         Sessions.r_first_message := Json.JStr "hello";
         Sessions.r_display_name := None;
         Sessions.r_message_count := 1;
         Sessions.r_created_at := 0;
         Sessions.r_updated_at := updated |}).

End Cases.

(** * Part II: properties *)

(** ** Facts about the string operations *)

Module PyStrFacts.
Import PyStr.

Lemma chars_app (a b : string) : chars (a +:+ b) = chars a ++ chars b.
Proof. induction a as [|c a IH]; simpl; [reflexivity | by rewrite IH]. Qed.

Lemma text_app (a b : list ascii) : text (a ++ b) = text a +:+ text b.
Proof. induction a as [|c a IH]; simpl; [reflexivity | by rewrite IH]. Qed.

Lemma text_chars (s : string) : text (chars s) = s.
Proof. apply string_of_list_ascii_of_string. Qed.

Lemma chars_text (l : list ascii) : chars (text l) = l.
Proof. apply list_ascii_of_string_of_list_ascii. Qed.


Lemma chars_inj (a b : string) : chars a = chars b -> a = b.
Proof. intros H. rewrite <- (text_chars a), <- (text_chars b). by rewrite H. Qed.

Lemma chars_length (s : string) : length (chars s) = String.length s.
Proof. induction s; simpl; congruence. Qed.

Lemma is_prefix_spec (p l : list ascii) :
  is_prefix p l = true <-> exists r, l = p ++ r.
Proof.
  revert l. induction p as [|a p IH]; intros l; simpl.
  - split; [intros _; by exists l | done].
  - destruct l as [|b l].
    + split; [done | intros [r Hr]; discriminate].
    + rewrite andb_true_iff, IH. split.
      * intros [Hab [r ->]]. apply Ascii.eqb_eq in Hab as ->. by exists r.
      * intros [r Hr]. injection Hr as -> ->. split; [apply Ascii.eqb_refl | by exists r].
Qed.

Lemma is_prefix_app (p r : list ascii) : is_prefix p (p ++ r) = true.
Proof. apply is_prefix_spec. by exists r. Qed.

Lemma occurs_in_spec (sub l : list ascii) :
  occurs_in sub l = true <-> exists a b, l = a ++ sub ++ b.
Proof.
  induction l as [|c l IH]; simpl.
  - rewrite orb_false_r, is_prefix_spec. split.
    + intros [r Hr]. by exists [], r.
    + intros (a & b & H). destruct a; [by exists b|discriminate].
  - rewrite orb_true_iff, is_prefix_spec, IH. split.
    + intros [[r Hr] | (a & b & ->)]; [by exists [], r | by exists (c :: a), b].
    + intros (a & b & H). destruct a as [|x a]; [left; by exists b|].
      right. injection H as _ ->. by exists a, b.
Qed.


Lemma contains_spec (sub s : string) :
  contains sub s = true <-> exists a b, s = a +:+ sub +:+ b.
Proof.
  unfold contains. rewrite occurs_in_spec. split.
  - intros (a & b & H). exists (text a), (text b). apply chars_inj.
    by rewrite !chars_app, !chars_text.
  - intros (a & b & ->). exists (chars a), (chars b). by rewrite !chars_app.
Qed.

(** The skip counter only postpones the scan. *)
Lemma count_from_skip (k : nat) (sub l : list ascii) :
  count_from k sub l = count_from 0 sub (drop k l).
Proof.
  revert k. induction l as [|c l IH]; intros [|k]; simpl; try reflexivity.
  apply IH.
Qed.


Lemma count_match (x : ascii) (sub r : list ascii) :
  count_from 0 (x :: sub) ((x :: sub) ++ r) = S (count_from 0 (x :: sub) r).
Proof.
  change ((x :: sub) ++ r) with (x :: (sub ++ r)).
  cbn [count_from]. change (x :: sub ++ r) with ((x :: sub) ++ r).
  rewrite is_prefix_app, count_from_skip.
  replace (length (x :: sub) - 1) with (length sub) by (cbn [length]; lia).
  by rewrite drop_app_length.
Qed.

Lemma count_skip_char (c : ascii) (sub l : list ascii) :
  is_prefix sub (c :: l) = false ->
  count_from 0 sub (c :: l) = count_from 0 sub l.
Proof. intros H. cbn [count_from]. by rewrite H. Qed.



(** No occurrence: nothing is counted and nothing is replaced. *)
Lemma count_zero_iff (x : ascii) (sub l : list ascii) :
  count_from 0 (x :: sub) l = 0 <-> occurs_in (x :: sub) l = false.
Proof.
  induction l as [|c l IH]; [done|].
  cbn [occurs_in]. destruct (is_prefix (x :: sub) (c :: l)) eqn:Hp.
  - apply is_prefix_spec in Hp as [r Hr]. rewrite Hr, count_match. done.
  - rewrite count_skip_char by done. by rewrite orb_false_l.
Qed.



(** Two counted occurrences are two disjoint occurrences, and conversely. *)
Lemma count_two_disjoint (x : ascii) (sub l : list ascii) :
  2 <= count_from 0 (x :: sub) l <->
  exists a b c, l = a ++ (x :: sub) ++ b ++ (x :: sub) ++ c.
Proof.
  split.
  - induction l as [|c l IH]; [cbn; lia|].
    destruct (is_prefix (x :: sub) (c :: l)) eqn:Hp.
    + apply is_prefix_spec in Hp as [r Hr]. rewrite Hr, count_match. intros H.
      assert (occurs_in (x :: sub) r = true) as (b & c' & ->)%occurs_in_spec.
      { destruct (occurs_in (x :: sub) r) eqn:Ho; [done|].
        apply count_zero_iff in Ho. lia. }
      by exists [], b, c'.
    + rewrite count_skip_char by done. intros (a & b & c' & ->)%IH.
      by exists (c :: a), b, c'.
  - revert l. intros l (a & b & c & ->). induction a as [|y a IH].
    + rewrite app_nil_l, count_match.
      assert (occurs_in (x :: sub) (b ++ (x :: sub) ++ c) = true) as Ho.
      { apply occurs_in_spec. by exists b, c. }
      destruct (count_from 0 (x :: sub) (b ++ (x :: sub) ++ c)) eqn:Hc; [|lia].
      apply count_zero_iff in Hc. congruence.
    + change ((y :: a) ++ ?t) with (y :: (a ++ t)).
      destruct (is_prefix (x :: sub) (y :: a ++ (x :: sub) ++ b ++ (x :: sub) ++ c)) eqn:Hp.
      * apply is_prefix_spec in Hp as [r Hr]. rewrite Hr, count_match.
        assert (occurs_in (x :: sub) r = true) as Ho.
        { apply occurs_in_spec.
          assert (r = drop (length (x :: sub)) (y :: a ++ (x :: sub) ++ b ++ (x :: sub) ++ c)) as ->.
          { rewrite Hr. by rewrite drop_app_length. }
          exists (drop (length (x :: sub)) ((y :: a) ++ (x :: sub) ++ b)), c.
          change (y :: a ++ (x :: sub) ++ b ++ (x :: sub) ++ c)
            with ((y :: a) ++ (x :: sub) ++ b ++ (x :: sub) ++ c).
          rewrite !(app_assoc _ _ ((x :: sub) ++ c)).
          rewrite <- !app_assoc.
          rewrite (app_assoc (y :: a)), (app_assoc ((y :: a) ++ (x :: sub))).
          rewrite drop_app_le; [by rewrite <- !app_assoc|].
          rewrite !length_app. cbn [length]. lia. }
        destruct (count_from 0 (x :: sub) r) eqn:Hc; [|lia].
        apply count_zero_iff in Hc. congruence.
      * rewrite count_skip_char by done. apply IH.
Qed.



Lemma count_two_disjoint_str (s old : string) :
  old <> "" ->
  (2 <= count s old <-> exists a b c, s = a +:+ old +:+ b +:+ old +:+ c).
Proof.
  intros Hne. unfold count, count_chars.
  destruct (chars old) as [|x old'] eqn:E.
  { destruct old; [done | discriminate]. }
  rewrite count_two_disjoint. split.
  - intros (a & b & c & H). exists (text a), (text b), (text c). apply chars_inj.
    by rewrite !chars_app, !chars_text, E.
  - intros (a & b & c & ->). exists (chars a), (chars b), (chars c).
    by rewrite !chars_app, E.
Qed.

End PyStrFacts.

(** ** Framing lemmas for the loops *)

Module LoopFacts.
Import PyStr Json MessageLog Loop.

(** What a tool execution can change: the sources and the execution trace. *)
Lemma execute_tool_frame (agent : bool) (env : Env) (tc : ToolCall) (st : State) :
  exists src exe,
    (_execute_tool agent env tc st).2
    = mkState (manager st) (stage st) (tools st) (tools_research st) (compact_ready st)
              (thinking_steps st) (step_counter st) src (last_prompt_tokens st)
              exe (events st).
Proof.
  unfold _execute_tool, with_sources, ran.
  destruct st; simpl.
  repeat case_match; simpl; eexists _, _; reflexivity.
Qed.

(** One pass of the [for] body: one step, one event, one tool message. *)
Lemma run_tool_call_frame (agent : bool) (env : Env) (why : option string)
    (tc : ToolCall) (st : State) :
  let res := (_execute_tool agent env tc
                (with_step (S (step_counter st)) (thinking_steps st) st)).1 in
  let ts := Thinking._create_thinking_step (S (step_counter st)) (tc_name tc)
              (step_args env tc) res why in
  exists src exe,
    run_tool_call agent env why tc st
    = mkState (add_tool_result (tc_id tc) res (manager st)) (stage st) (tools st)
              (tools_research st) (compact_ready st) (thinking_steps st ++ [ts])
              (S (step_counter st)) src (last_prompt_tokens st) exe
              (events st ++ [ThinkingStepEvent ts]).
Proof.
  intros res ts. subst res ts. unfold run_tool_call.
  destruct (execute_tool_frame agent env tc
              (with_step (S (step_counter st)) (thinking_steps st) st)) as (src & exe & Hf).
  destruct (_execute_tool agent env tc _) as [res st1]. simpl in Hf. subst st1.
  simpl. by exists src, exe.
Qed.

(** The whole [for]: as many steps and events as proposals, numbered on. *)
Lemma run_tool_calls_frame (agent : bool) (env : Env) (why : option string)
    (calls : list ToolCall) (st : State) :
  exists steps m src exe,
    run_tool_calls agent env why calls st
    = mkState m (stage st) (tools st) (tools_research st) (compact_ready st)
              (thinking_steps st ++ steps) (step_counter st + length calls) src
              (last_prompt_tokens st) exe (events st ++ map ThinkingStepEvent steps)
    /\ length steps = length calls
    /\ persisting m = persisting (manager st)
    /\ map Thinking.tool steps = map tc_name calls.
Proof.
  revert st. induction calls as [|tc calls IH]; intros st.
  - exists [], (manager st), (current_sources st), (executed st).
    rewrite !app_nil_r, Nat.add_0_r. by destruct st.
  - cbn [run_tool_calls].
    destruct (run_tool_call_frame agent env why tc st) as (src1 & exe1 & H1).
    cbv zeta in H1. rewrite H1.
    destruct (IH (mkState (add_tool_result (tc_id tc)
                   (_execute_tool agent env tc
                      (with_step (S (step_counter st)) (thinking_steps st) st)).1 (manager st))
                 (stage st) (tools st) (tools_research st) (compact_ready st)
                 (thinking_steps st ++
                    [Thinking._create_thinking_step (S (step_counter st)) (tc_name tc)
                       (step_args env tc)
                       (_execute_tool agent env tc
                          (with_step (S (step_counter st)) (thinking_steps st) st)).1 why])
                 (S (step_counter st)) src1 (last_prompt_tokens st) exe1
                 (events st ++
                    [ThinkingStepEvent
                       (Thinking._create_thinking_step (S (step_counter st)) (tc_name tc)
                          (step_args env tc)
                          (_execute_tool agent env tc
                             (with_step (S (step_counter st)) (thinking_steps st) st)).1 why)])))
      as (steps & m & src & exe & -> & Hlen & Hp & Hn).
    cbn [stage tools tools_research compact_ready thinking_steps step_counter
         last_prompt_tokens events manager] in *.
    eexists (_ :: steps), m, src, exe. split; [|split; [|split]].
    + rewrite <- !app_assoc. cbn [app map length]. f_equal. lia.
    + cbn [length]. by rewrite Hlen.
    + rewrite Hp. unfold add_tool_result, _save, append. by case_match.
    + cbn [map]. by rewrite Hn.
Qed.

Ltac st_simpl :=
  cbn [manager stage tools tools_research compact_ready thinking_steps step_counter
       current_sources last_prompt_tokens executed events
       with_manager with_stage with_step with_sources with_tokens ran emit user_says
       reset_to_hil _switch_to_research_stage fail_turn begin_turn fst snd] in *.

Lemma track_usage_frame (response : ModelReply) (st : State) :
  exists n, track_usage response st = with_tokens n st.
Proof.
  unfold track_usage. destruct (usage response) as [n|]; [by exists n|].
  exists (last_prompt_tokens st). by destruct st.
Qed.

Lemma force_compaction_frame (env : Env) (st : State) :
  exists m, force_compaction env st = with_manager m st.
Proof.
  unfold force_compaction. case_match.
  - destruct (Compaction.execute _ _ _ _ _) as [[? m] ?]. by exists m.
  - exists (manager st). by destruct st.
Qed.


Lemma force_compaction_events (env : Env) (st : State) :
  events (force_compaction env st) = events st.
Proof.
  unfold force_compaction. case_match; [|done].
  by destruct (Compaction.execute _ _ _ _ _) as [[? ?] ?].
Qed.

Lemma accepted_proposals (c : option string) (calls : list ToolCall) (m : Manager) :
  calls <> [] -> forallb valid_tool_call calls = true ->
  exists m', add_assistant_message c (Some calls) m = Some m'.
Proof.
  intros Hne Hok. unfold add_assistant_message.
  destruct calls as [|tc calls]; [done|].
  cbn -[forallb]. rewrite andb_false_r. cbn -[forallb]. rewrite Hok. eauto.
Qed.

(** An iteration whose proposals the log accepts runs them all and goes on;
    it yields ThinkingSteps only. *)
Lemma chat_iteration_tools (cfg : Config) (env : Env) (i : nat) (st : State)
    (response : ModelReply) (calls : list ToolCall) :
  has_chat_service cfg && cancel_requested env i = false ->
  llm_chat env i (get_messages (manager st)) = Some response ->
  reply_tool_calls response = Some calls ->
  calls <> [] ->
  forallb valid_tool_call calls = true ->
  exists steps,
    (chat_iteration cfg env i st).2 = None
    /\ events (chat_iteration cfg env i st).1 = events st ++ map ThinkingStepEvent steps.
Proof.
  intros Hc Hr Ht Hne Hok. unfold chat_iteration. rewrite Hc, Hr.
  destruct (accepted_proposals (keep_truthy (reply_content response)) calls
              (manager (track_usage response st)) Hne Hok) as [m' Hm'].
  rewrite Ht, Hm'. destruct calls as [|tc calls]; [done|].
  cbn [truthy_list from_option id fst snd].
  destruct (run_tool_calls_frame false env None (tc :: calls)
              (with_manager m' (track_usage response st)))
    as (steps & m & src & exe & Hf & _).
  exists steps. rewrite Hf. split; [done|].
  unfold track_usage. by case_match.
Qed.

Lemma agent_iteration_tools (cfg : Config) (env : Env) (msg : string) (i : nat)
    (st : State) (response : ModelReply) (calls : list ToolCall) :
  has_chat_service cfg && cancel_requested env i = false ->
  llm_chat env i (get_messages (manager st)) = Some response ->
  reply_tool_calls response = Some calls ->
  calls <> [] ->
  forallb valid_tool_call calls = true ->
  proposes "start_research" calls = false ->
  proposes "stop_answer" calls = false ->
  exists steps,
    (agent_iteration cfg env msg i st).2 = None
    /\ events (agent_iteration cfg env msg i st).1 = events st ++ map ThinkingStepEvent steps.
Proof.
  intros Hc Hr Ht Hne Hok Hs1 Hs2. unfold agent_iteration. rewrite Hc, Hr, Ht.
  destruct (accepted_proposals (keep_truthy (reasoning response)) calls
              (manager (track_usage response st)) Hne Hok) as [m' Hm'].
  destruct calls as [|tc calls]; [done|].
  cbn [truthy_list from_option id fst snd].
  rewrite Hs1, Hs2, Hm'.
  destruct (run_tool_calls_frame true env (keep_truthy (reasoning response))
              (tc :: calls) (with_manager m' (track_usage response st)))
    as (steps & m & src & exe & Hf & _).
  exists steps. split; [done|]. cbn [fst].
  rewrite force_compaction_events, Hf.
  case_match; cbn [events user_says with_manager];
    unfold track_usage; by case_match.
Qed.

End LoopFacts.

(** ** The success flag of a ThinkingStep *)

Module ThinkingFacts.
Import PyStr PyStrFacts Json Thinking.



Lemma parse_failure_is_error (e : string) :
  is_error ("Failed to parse tool arguments: " +:+ e) = true.
Proof. reflexivity. Qed.

End ThinkingFacts.

(** ** Tool failures are read off the result text *)

Module ThinkingClaims.
Import PyStr PyStrFacts Json MessageLog Loop LoopFacts.



End ThinkingClaims.

(** ** Induction over the two loops *)

Module LoopRules.
Import PyStr Json MessageLog Loop LoopFacts.

(** An invariant of the iterations holds when the chat loop is left. *)
Lemma chat_loop_rule (cfg : Config) (env : Env)
    (I : State -> Prop) (Q : State -> chat_exit -> Prop) :
  (forall i st, I st ->
     match chat_iteration cfg env i st with
     | (st', None) => I st'
     | (st', Some ex) => Q st' ex
     end) ->
  (forall st, I st -> Q st (ChatBreak "")) ->
  forall fuel i st, I st ->
    Q (chat_loop cfg env fuel i st).1 (chat_loop cfg env fuel i st).2.
Proof.
  intros Hstep Hout fuel. induction fuel as [|fuel IH]; intros i st HI.
  - apply Hout, HI.
  - cbn [chat_loop]. specialize (Hstep (S i) st HI).
    destruct (chat_iteration cfg env (S i) st) as [st' [ex|]]; [exact Hstep|].
    apply IH, Hstep.
Qed.

Lemma agent_loop_rule (cfg : Config) (env : Env) (msg : string)
    (I : State -> Prop) (Q : State -> option agent_exit -> Prop) :
  (forall i st, I st ->
     match agent_iteration cfg env msg i st with
     | (st', None) => I st'
     | (st', Some ex) => Q st' (Some ex)
     end) ->
  (forall st, I st -> Q st None) ->
  forall fuel i st, I st ->
    Q (agent_loop cfg env msg fuel i st).1 (agent_loop cfg env msg fuel i st).2.
Proof.
  intros Hstep Hout fuel. induction fuel as [|fuel IH]; intros i st HI.
  - apply Hout, HI.
  - cbn [agent_loop]. specialize (Hstep (S i) st HI).
    destruct (agent_iteration cfg env msg (S i) st) as [st' [ex|]]; [exact Hstep|].
    apply IH, Hstep.
Qed.

End LoopRules.

(** ** Sources are numbered in result order *)

Module SourcesFacts.
Import Sources Shape.

Lemma enumerate_fst {A} (start : nat) (l : list A) :
  map fst (enumerate start l) = seq start (length l).
Proof.
  revert start. induction l as [|x l IH]; intros start; [done|].
  cbn [enumerate map length seq fst]. by rewrite IH.
Qed.

Lemma enumerate_snd {A} (start : nat) (l : list A) :
  map snd (enumerate start l) = l.
Proof.
  revert start. induction l as [|x l IH]; intros start; [done|].
  cbn [enumerate map snd]. by rewrite IH.
Qed.

Lemma enumerate_length {A} (start : nat) (l : list A) :
  length (enumerate start l) = length l.
Proof. revert start. induction l as [|x l IH]; intros start; cbn; [done | by rewrite IH]. Qed.

Lemma built_from_length (r : WebSearchResult) :
  length (built_from r) = length (results r).
Proof. unfold built_from. by rewrite length_map, enumerate_length. Qed.

Lemma built_from_idx (r : WebSearchResult) : dense_from_one (built_from r).
Proof.
  unfold dense_from_one. rewrite built_from_length. unfold built_from.
  rewrite <- (enumerate_fst 1 (results r)), map_map. done.
Qed.

Lemma built_from_url (r : WebSearchResult) :
  map url (built_from r) = map h_url (results r).
Proof.
  unfold built_from. rewrite map_map.
  rewrite <- (enumerate_snd 1 (results r)) at 2. by rewrite map_map.
Qed.

(** The post-processors either leave [current_sources] alone or replace it
    by the list built from the result. *)
Lemma process_with_sources (lines : nat -> SearchHit -> list string)
    (cur : list Source) (r : WebSearchResult) :
  (process_with lines cur r).2 = cur
  \/ (results r <> [] /\ (process_with lines cur r).2 = built_from r).
Proof.
  unfold process_with. destruct (nonempty (error r)); [by left|].
  destruct (results r) eqn:E; [by left|]. right. unfold built_from. by rewrite E.
Qed.

End SourcesFacts.

Module SourcesClaims.
Import PyStr Json MessageLog Loop LoopFacts LoopRules Shape SourcesFacts.

Lemma inv_same (env : Env) (st st' : State) :
  current_sources st' = current_sources st -> events st' = events st ->
  TurnInv env st -> TurnInv env st'.
Proof. unfold TurnInv. by intros -> ->. Qed.

Lemma inv_emit (env : Env) (e : Event) (st : State) :
  is_complete e = false -> TurnInv env st -> TurnInv env (emit e st).
Proof.
  intros He [Hs Hev]. split; [exact Hs|]. st_simpl.
  apply Forall_app. split; [exact Hev|]. constructor; [|constructor].
  by destruct e.
Qed.

Lemma inv_complete (env : Env) (resp : Response.ChatResponse) (st : State) :
  Response.sources resp = non_empty (current_sources st) ->
  TurnInv env st -> TurnInv env (emit (Complete resp) st).
Proof.
  intros Hr [Hs Hev]. split; [exact Hs|]. st_simpl.
  apply Forall_app. split; [exact Hev|]. constructor; [|constructor].
  cbn. intros src. rewrite Hr. destruct Hs as [-> | Hs]; [done|].
  destruct (current_sources st); [done|]. by intros [= <-].
Qed.

Lemma inv_fail (env : Env) (e : string) (st : State) :
  TurnInv env st -> TurnInv env (fail_turn e st).
Proof.
  intros H. unfold fail_turn. apply inv_emit; [done|]. by apply (inv_same env st).
Qed.

Lemma execute_tool_sources (agent : bool) (env : Env) (tc : ToolCall) (st : State) :
  sources_ok env (current_sources st) ->
  sources_ok env (current_sources (_execute_tool agent env tc st).2).
Proof.
  intros H. unfold _execute_tool.
  destruct (json_loads env (tc_arguments tc)) as [args|]; [|exact H].
  destruct (negb _); [exact H|].
  destruct (run_tool env (step_counter (ran (tc_name tc) st)) (tc_name tc) args)
    as [r| | |] eqn:E; [| | |exact H].
  - destruct (String.eqb (tc_name tc) "web_search") eqn:Hname.
    + apply String.eqb_eq in Hname. rewrite Hname in E.
      pose proof (process_with_sources
                    (if agent then Sources.agent_lines else Sources.chat_lines)
                    (current_sources (ran (tc_name tc) st)) r) as Hp.
      assert ((if agent then Sources._process_web_search_for_agent
               else Sources._process_web_search_result)
              = Sources.process_with
                  (if agent then Sources.agent_lines else Sources.chat_lines)) as ->
        by (by destruct agent).
      destruct (Sources.process_with _ _ r) as [[text ?] src]. cbn [snd] in *.
      st_simpl. destruct Hp as [-> | [Hne ->]]; [exact H|].
      right. by exists (step_counter st), args, r.
    + by destruct (startswith _ _).
  - destruct (String.eqb _ _); [exact H|]. destruct (startswith _ _); [|exact H].
    by destruct success.
  - destruct (String.eqb _ _); [exact H|]. by destruct (startswith _ _).
Qed.

Lemma run_tool_call_inv (agent : bool) (env : Env) (why : option string)
    (tc : ToolCall) (st : State) :
  TurnInv env st -> TurnInv env (run_tool_call agent env why tc st).
Proof.
  intros [Hs Hev]. unfold run_tool_call.
  pose proof (execute_tool_sources agent env tc
                (with_step (S (step_counter st)) (thinking_steps st) st) Hs) as Hs'.
  destruct (execute_tool_frame agent env tc
              (with_step (S (step_counter st)) (thinking_steps st) st)) as (src & exe & Hf).
  destruct (_execute_tool agent env tc _) as [res st1]. cbn [snd] in *. subst st1.
  st_simpl. split; [exact Hs'|].
  apply Forall_app. split; [exact Hev|]. by repeat constructor.
Qed.

Lemma run_tool_calls_inv (agent : bool) (env : Env) (why : option string)
    (calls : list ToolCall) (st : State) :
  TurnInv env st -> TurnInv env (run_tool_calls agent env why calls st).
Proof.
  revert st. induction calls as [|tc calls IH]; intros st H; [exact H|].
  cbn [run_tool_calls]. by apply IH, run_tool_call_inv.
Qed.

Lemma inv_track (env : Env) (response : ModelReply) (st : State) :
  TurnInv env st -> TurnInv env (track_usage response st).
Proof.
  destruct (track_usage_frame response st) as [n ->]. by apply inv_same.
Qed.

Lemma inv_compaction (env : Env) (st : State) :
  TurnInv env st -> TurnInv env (force_compaction env st).
Proof.
  destruct (force_compaction_frame env st) as [m ->]. by apply inv_same.
Qed.

Lemma chat_iteration_inv (cfg : Config) (env : Env) (i : nat) (st : State) :
  TurnInv env st -> TurnInv env (chat_iteration cfg env i st).1.
Proof.
  intros H. unfold chat_iteration.
  destruct (_ && _); [by apply inv_emit|].
  destruct (llm_chat env i _) as [response|]; [|by apply inv_fail].
  apply (inv_track env response) in H.
  destruct (truthy_list _).
  - destruct (add_assistant_message _ _ _) as [m|]; [|by apply inv_fail].
    cbn [fst]. apply run_tool_calls_inv. by apply (inv_same env (track_usage response st)).
  - cbn [fst]. by apply (inv_same env (track_usage response st)).
Qed.

Lemma agent_iteration_inv (cfg : Config) (env : Env) (msg : string) (i : nat) (st : State) :
  TurnInv env st -> TurnInv env (agent_iteration cfg env msg i st).1.
Proof.
  intros H. unfold agent_iteration.
  destruct (_ && _).
  { cbn [fst]. apply inv_emit; [done|]. case_match; [|done]. by apply (inv_same env st). }
  destruct (llm_chat env i _) as [response|]; [|by apply inv_fail].
  apply (inv_track env response) in H.
  set (st1 := track_usage response st) in *.
  destruct (truthy_list _).
  - destruct (proposes "start_research" _).
    { case_match; [|by apply inv_fail]. cbn [fst].
      apply (inv_same env (emit (StageSwitch Research) st1)); [done..|].
      by apply inv_emit. }
    destruct (proposes "stop_answer" _).
    { case_match; [|by apply inv_fail]. cbn [fst].
      case_match; by apply (inv_same env st1). }
    destruct (add_assistant_message _ _ _) as [m|]; [|by apply inv_fail].
    cbn [fst]. apply inv_compaction.
    assert (TurnInv env (run_tool_calls true env (keep_truthy (reasoning response))
                           (default [] (reply_tool_calls response)) (with_manager m st1)))
      as H' by (apply run_tool_calls_inv; by apply (inv_same env st1)).
    case_match; [|exact H'].
    eapply inv_same; [| |exact H']; done.
  - case_match.
    + cbn [fst]. apply inv_complete; [done|]. by apply (inv_same env st1).
    + cbn [fst]. case_match; by apply (inv_same env st1).
Qed.

Lemma chat_stream_inv (cfg : Config) (env : Env) (msg : string) (st : State) :
  Forall (event_ok env) (events (final (chat_stream cfg env msg st))).
Proof.
  unfold chat_stream.
  set (st0 := user_says msg (begin_turn _)).
  assert (TurnInv env st0) as H0.
  { subst st0. split; [by left | by constructor]. }
  pose proof (chat_loop_rule cfg env (TurnInv env) (fun st' _ => TurnInv env st')) as R.
  specialize (R (fun i s Hs => ltac:(
    pose proof (chat_iteration_inv cfg env i s Hs) as X;
    destruct (chat_iteration cfg env i s) as [? [?|]]; exact X))
    (fun s Hs => Hs) (max_iterations cfg) 0 st0 H0).
  destruct (chat_loop cfg env (max_iterations cfg) 0 st0) as [st' [fr|]]; cbn [fst snd final] in *.
  - by apply inv_complete.
  - apply R.
Qed.

Lemma agent_finish_inv (cfg : Config) (env : Env) (msg : string) (ready : bool) (st : State) :
  TurnInv env st -> Forall (event_ok env) (events (final (agent_finish cfg env msg ready st))).
Proof.
  intros H. unfold agent_finish. destruct ready.
  - destruct (llm_final env _) as [response|]; [|apply H].
    apply (inv_track env response) in H.
    destruct (add_assistant_message _ _ _) as [m|]; [|apply H].
    destruct (Artifact.extract _ _ _) as [art text]. cbn [final].
    apply inv_complete; [by case_match|].
    case_match; by apply (inv_same env (track_usage response st)).
  - destruct (Artifact.extract _ _ _) as [art text]. cbn [final].
    apply inv_complete; [done|]. by apply (inv_same env st).
Qed.

Lemma agent_stream_inv (cfg : Config) (env : Env) (msg : string) (st : State) :
  Forall (event_ok env) (events (final (agent_stream cfg env msg st))).
Proof.
  unfold agent_stream.
  set (st0 := user_says msg (begin_turn _)).
  assert (TurnInv env st0) as H0.
  { subst st0. split; [by left | by constructor]. }
  pose proof (agent_loop_rule cfg env msg (TurnInv env) (fun st' _ => TurnInv env st')) as R.
  specialize (R (fun i s Hs => ltac:(
    pose proof (agent_iteration_inv cfg env msg i s Hs) as X;
    destruct (agent_iteration cfg env msg i s) as [? [?|]]; exact X))
    (fun s Hs => Hs) (max_iterations cfg) 0 st0 H0).
  destruct (agent_loop cfg env msg (max_iterations cfg) 0 st0) as [st' [[| |]|]];
    cbn [fst snd final] in *; try by apply agent_finish_inv.
  apply R.
Qed.

(** C4, as amended.  In either mode, the Source list of every [complete]
    envelope of a turn is the list built from the result of one
    [web_search] execution of that turn: its indices are 1, 2, ..., M in
    result order, and its URLs are the URLs of that result, in order and
    with the repetitions the search returned. *)
Theorem sources_follow_search_result (cfg : Config) (env : Env) (sid : option string)
    (mode msg : string) (st : State) (resp : Response.ChatResponse)
    (src : list Sources.Source) :
  In (Complete resp) (process_message_stream cfg env sid mode msg st) ->
  Response.sources resp = Some src ->
  map Sources.idx src = seq 1 (length src)
  /\ exists n args r,
       run_tool env n "web_search" args = RetSearch r
       /\ src = built_from r
       /\ length src = length (Sources.results r)
       /\ map Sources.url src = map Sources.h_url (Sources.results r).
Proof.
  intros Hin Hsrc. unfold process_message_stream, route_stream in Hin.
  assert (Forall (event_ok env)
            (events (final (if String.eqb mode "chat" then chat_stream cfg env msg st
                            else agent_stream cfg env msg st)))) as Hok.
  { destruct (String.eqb mode "chat"); [apply chat_stream_inv | apply agent_stream_inv]. }
  apply in_app_or in Hin as [Hin | Hin].
  { destruct sid; cbn in Hin; [done | by destruct Hin]. }
  apply in_app_or in Hin as [Hin | Hin].
  - rewrite Forall_forall in Hok. apply list_elem_of_In, Hok in Hin.
    destruct (Hin src Hsrc) as (n & args & r & Hr & _ & ->).
    split; [apply built_from_idx|]. exists n, args, r.
    split; [exact Hr|]. split; [done|].
    split; [apply built_from_length | apply built_from_url].
  - destruct (escaped _); cbn in Hin; [by destruct Hin | done].
Qed.

(** The turn of [Scenario.searching]: one search, then the answer. *)
Lemma searching_turn :
  exists resp src,
    In (Complete resp) (process_message_stream (Scenario.cfg 5) Scenario.searching (Some "s1") "chat" "question"
          (Scenario.fresh Hil ∅))
    /\ Response.sources resp = Some src
    /\ map Sources.url src
       = ["https://www.postgresql.org/"; "https://www.postgresql.org/"].
Proof.
  eexists _, _. split; [vm_compute; right; left; reflexivity|].
  split; reflexivity.
Defined.

Lemma sources_follow_search_result_witness :
  exists resp src,
    In (Complete resp) (process_message_stream (Scenario.cfg 5) Scenario.searching (Some "s1") "chat" "question"
          (Scenario.fresh Hil ∅))
    /\ Response.sources resp = Some src
    /\ map Sources.idx src = seq 1 (length src)
    /\ map Sources.url src
       = ["https://www.postgresql.org/"; "https://www.postgresql.org/"].
Proof.
  destruct searching_turn as (resp & src & Hin & Hs & Hu).
  exists resp, src.
  destruct (sources_follow_search_result (Scenario.cfg 5) Scenario.searching (Some "s1")
              "chat" "question" (Scenario.fresh Hil ∅) resp src Hin Hs) as [H _].
  auto.
Defined.

(** C4 as it was stated fails: the two Sources of this turn carry one URL. *)
Lemma sources_share_a_url :
  ~ (forall resp src,
        In (Complete resp)
           (process_message_stream (Scenario.cfg 5) Scenario.searching (Some "s1") "chat" "question"
          (Scenario.fresh Hil ∅)) ->
        Response.sources resp = Some src ->
        map Sources.idx src = seq 1 (length src) /\ NoDup (map Sources.url src)).
Proof.
  intros H. destruct searching_turn as (resp & src & Hin & Hs & Hu).
  destruct (H resp src Hin Hs) as [_ Hnd].
  rewrite Hu in Hnd. apply NoDup_cons in Hnd as [Hnot _]. apply Hnot. by left.
Qed.

End SourcesClaims.

(** ** The terminal events of a turn *)

Module TerminalFacts.
Import PyStr Json MessageLog Loop LoopFacts LoopRules Shape.

Lemma quiet_snoc (l : list Event) (e : Event) :
  quiet l -> is_terminal e = false -> quiet (l ++ [e]).
Proof. intros Hl He. apply Forall_app. split; [exact Hl | by constructor]. Qed.

Lemma quiet_steps (l : list Event) (steps : list Thinking.ThinkingStep) :
  quiet l -> quiet (l ++ map ThinkingStepEvent steps).
Proof.
  intros Hl. apply Forall_app. split; [exact Hl|].
  induction steps; by constructor.
Qed.

Lemma count_app (p : Event -> bool) (l l' : list Event) :
  count_events p (l ++ l') = count_events p l + count_events p l'.
Proof. unfold count_events. by rewrite List.filter_app, length_app. Qed.

Lemma quiet_count (l : list Event) : quiet l -> count_events is_terminal l = 0.
Proof.
  unfold count_events. induction 1 as [|e l He _ IH]; [done|].
  cbn [List.filter]. by rewrite He.
Qed.

Lemma closing_terminal (e : Event) : closing e = true -> is_terminal e = true.
Proof. by destruct e. Qed.

Lemma quiet_track (response : ModelReply) (st : State) :
  events (track_usage response st) = events st.
Proof. by destruct (track_usage_frame response st) as [n ->]. Qed.

Lemma quiet_fail (e : string) (st : State) :
  quiet (events st) ->
  exists pre last, events (fail_turn e st) = pre ++ [last]
                   /\ closing last = true /\ quiet pre.
Proof. intros H. by exists (events st), (Error (error_text e)). Qed.

Lemma chat_iteration_shape (cfg : Config) (env : Env) (i : nat) (st : State) :
  quiet (events st) ->
  match chat_iteration cfg env i st with
  | (st', None) => quiet (events st')
  | (st', Some ex) => chat_post cfg env st' ex
  end.
Proof.
  intros H. unfold chat_iteration.
  destruct (has_chat_service cfg) eqn:Hs, (cancel_requested env i) eqn:Hc; cbn [andb].
  { right. split; [by eexists _, _, _ | by split; [|exists i]]. }
  all: destruct (llm_chat env i _) as [response|];
    [|by exists (events st), (error_text model_failure)].
  all: destruct (truthy_list _).
  all: try (left; cbn [events with_manager]; by rewrite quiet_track).
  all: destruct (add_assistant_message _ _ _) as [m|];
    [|exists (events st), (error_text type_assertion); st_simpl; by rewrite quiet_track].
  all: destruct (run_tool_calls_frame false env None
                   (default [] (reply_tool_calls response))
                   (with_manager m (track_usage response st)))
         as (steps & m' & src & exe & -> & _).
  all: st_simpl; rewrite quiet_track; by apply quiet_steps.
Qed.

Lemma chat_stream_shape (cfg : Config) (env : Env) (msg : string) (st : State) :
  outcome_shape cfg env (chat_stream cfg env msg st).
Proof.
  unfold chat_stream. set (st0 := user_says msg (begin_turn _)).
  pose proof (chat_loop_rule cfg env (fun s => quiet (events s)) (chat_post cfg env)
                (chat_iteration_shape cfg env) (fun s Hs => or_introl Hs)
                (max_iterations cfg) 0 st0 (Forall_nil_2 _)) as R.
  destruct (chat_loop cfg env (max_iterations cfg) 0 st0) as [st' [fr|]];
    cbn [fst snd] in R; unfold outcome_shape; cbn [escaped final].
  - eexists (events st'), _. split; [reflexivity|]. split; [done|].
    destruct R as [R | R]; [by left | right]. by destruct R.
  - destruct R as (pre & e & -> & Hq). exists pre, (Error e). auto.
Qed.

Lemma observed_at (cfg : Config) (env : Env) (i : nat) :
  has_chat_service cfg && cancel_requested env i = true -> cancel_observed cfg env.
Proof. intros [H1 H2]%andb_true_iff. split; [exact H1 | by exists i]. Qed.

(** The tool branch of the agent loop yields ThinkingSteps only. *)
Lemma agent_tools_events (env : Env) (why : option string) (calls : list ToolCall)
    (st : State) :
  let st' := run_tool_calls true env why calls st in
  exists steps,
    events (force_compaction env
              (if (0 <? last_prompt_tokens st')%N
               then user_says (context_info env (last_prompt_tokens st')) st'
               else st'))
    = events st ++ map ThinkingStepEvent steps.
Proof.
  intros st'.
  destruct (run_tool_calls_frame true env why calls st)
    as (steps & m' & src & exe & Hf & _).
  exists steps. rewrite force_compaction_events.
  assert (events st' = events st ++ map ThinkingStepEvent steps) as <-
    by (subst st'; by rewrite Hf).
  by case_match.
Qed.

Lemma agent_iteration_shape (cfg : Config) (env : Env) (msg : string) (i : nat) (st : State) :
  quiet (events st) ->
  match agent_iteration cfg env msg i st with
  | (st', None) => quiet (events st')
  | (st', Some ex) => agent_post cfg env st' (Some ex)
  end.
Proof.
  intros H. unfold agent_iteration.
  destruct (has_chat_service cfg && cancel_requested env i) eqn:Hc.
  { split; [|by apply (observed_at cfg env i)].
    eexists _, _, _. split; [reflexivity|]. by case_match. }
  destruct (llm_chat env i _) as [response|]; [|by apply quiet_fail].
  pose proof (quiet_track response st) as Ht.
  set (st1 := track_usage response st) in *. rewrite <- Ht in H.
  destruct (truthy_list _).
  - destruct (proposes "start_research" _).
    { destruct (bool_decide _); [|by apply quiet_fail]. st_simpl. by apply quiet_snoc. }
    destruct (proposes "stop_answer" _).
    { destruct (bool_decide ("stop_answer" ∈ _)); [|by apply quiet_fail].
      cbn [agent_post]. by destruct (bool_decide _). }
    destruct (add_assistant_message _ _ _) as [m|]; [|by apply quiet_fail].
    destruct (agent_tools_events env (keep_truthy (reasoning response))
                (default [] (reply_tool_calls response)) (with_manager m st1))
      as [steps Hs].
    cbv zeta in Hs. rewrite Hs. st_simpl. by apply quiet_steps.
  - destruct (bool_decide (stage st1 = Hil)).
    + cbn [agent_post]. st_simpl. eexists (events st1), _. by split.
    + by destruct (_ || _).
Qed.

Lemma agent_finish_shape (cfg : Config) (env : Env) (msg : string) (ready : bool) (st : State) :
  (if ready then quiet (events st)
   else quiet (events st) \/ (cancelled_last (events st) /\ cancel_observed cfg env)) ->
  outcome_shape cfg env (agent_finish cfg env msg ready st).
Proof.
  intros H. unfold agent_finish, outcome_shape. destruct ready.
  - destruct (llm_final env _) as [response|]; [|exact H].
    destruct (add_assistant_message _ _ _) as [m|];
      cbn [escaped final]; [|by rewrite quiet_track].
    destruct (Artifact.extract _ _ _) as [art text]. cbn [escaped final].
    eexists _, _. split; [reflexivity|]. split; [done|]. left.
    case_match; st_simpl; by rewrite quiet_track.
  - destruct (Artifact.extract _ _ _) as [art text]. cbn [escaped final].
    eexists _, _. split; [reflexivity|]. split; [done|]. st_simpl.
    destruct H as [H | [H Ho]]; [by left | by right].
Qed.

Lemma agent_stream_shape (cfg : Config) (env : Env) (msg : string) (st : State) :
  outcome_shape cfg env (agent_stream cfg env msg st).
Proof.
  unfold agent_stream. set (st0 := user_says msg (begin_turn _)).
  pose proof (agent_loop_rule cfg env msg (fun s => quiet (events s)) (agent_post cfg env)
                (agent_iteration_shape cfg env msg) (fun s Hs => Hs)
                (max_iterations cfg) 0 st0 (Forall_nil_2 _)) as R.
  destruct (agent_loop cfg env msg (max_iterations cfg) 0 st0) as [st' [[| |]|]];
    cbn [fst snd agent_post] in R.
  - apply agent_finish_shape. by right.
  - by apply agent_finish_shape.
  - unfold outcome_shape. cbn [escaped final].
    destruct R as (pre & last & -> & Hc & Hq). exists pre, last. auto.
  - apply agent_finish_shape. by left.
Qed.

End TerminalFacts.

Module TerminalClaims.
Import PyStr Json MessageLog Loop LoopFacts LoopRules Shape TerminalFacts.

(** C1, as amended.  In both modes the stream of a turn ends with exactly
    one closing event, a [complete] or an [error], and no other [complete]
    or [error] comes before it.  Either there is no [cancelled] event at
    all, and the closing event is the only terminal event; or the loop saw
    the cancel flag, and a single [cancelled] event stands directly in
    front of a closing [complete]. *)
Theorem one_closing_event (cfg : Config) (env : Env) (sid : option string)
    (mode msg : string) (st : State) :
  exists pre last,
    process_message_stream cfg env sid mode msg st = pre ++ [last]
    /\ closing last = true
    /\ ((quiet pre
         /\ count_events is_terminal (process_message_stream cfg env sid mode msg st) = 1)
        \/ (exists pre' n s,
              pre = pre' ++ [Cancelled n s] /\ quiet pre'
              /\ is_complete last = true
              /\ cancel_observed cfg env
              /\ count_events is_terminal
                   (process_message_stream cfg env sid mode msg st) = 2)).
Proof.
  unfold process_message_stream, route_stream.
  set (out := if String.eqb mode "chat" then _ else _).
  assert (outcome_shape cfg env out) as Hout.
  { subst out. destruct (String.eqb mode "chat");
      [apply chat_stream_shape | apply agent_stream_shape]. }
  set (head := match sid with Some _ => [] | None => [SessionCreated] end).
  assert (quiet head) as Hhead by (subst head; destruct sid; by repeat constructor).
  unfold outcome_shape in Hout. destruct (escaped out) as [e|].
  - exists (head ++ events (final out)), (Error e).
    split; [by rewrite app_assoc|]. split; [done|]. left.
    assert (quiet (head ++ events (final out))) as Hq by (by apply Forall_app).
    split; [exact Hq|].
    rewrite app_assoc, count_app, (quiet_count _ Hq). done.
  - destruct Hout as (pre & last & -> & Hc & Hshape). rewrite app_nil_r.
    exists (head ++ pre), last. split; [by rewrite app_assoc|]. split; [exact Hc|].
    pose proof (closing_terminal last Hc) as Hterm.
    destruct Hshape as [Hq | ((pre' & n & s & -> & Hq) & Hl & Ho)].
    + left. assert (quiet (head ++ pre)) as Hq' by (by apply Forall_app).
      split; [exact Hq'|].
      rewrite app_assoc, count_app, (quiet_count _ Hq').
      unfold count_events. cbn [List.filter]. by rewrite Hterm.
    + right. exists (head ++ pre'), n, s.
      assert (quiet (head ++ pre')) as Hq' by (by apply Forall_app).
      split; [by rewrite app_assoc|]. split; [exact Hq'|]. split; [exact Hl|].
      split; [exact Ho|].
      rewrite !count_app, (quiet_count _ Hhead), (quiet_count _ Hq).
      unfold count_events. cbn [List.filter]. by rewrite Hterm.
Qed.

(** C1 as it was stated fails in both modes: the turn that sees the cancel
    flag yields [cancelled] and then [complete], two terminal events. *)
Lemma cancelled_turn_also_completes :
  ~ (forall mode, mode = "chat" \/ mode = "agent" ->
       count_events is_terminal
         (process_message_stream (Scenario.cfg 5) Scenario.stopped (Some "s1") mode
            "question" (Scenario.fresh Hil tools_hil)) = 1)
  /\ (exists r,
        process_message_stream (Scenario.cfg 5) Scenario.stopped (Some "s1") "chat"
          "question" (Scenario.fresh Hil tools_hil)
        = [Cancelled 0 None; Complete r]
        /\ Response.assistant_message r = "Response stopped by user.")
  /\ (exists r,
        process_message_stream (Scenario.cfg 5) Scenario.stopped (Some "s1") "agent"
          "question" (Scenario.fresh Hil tools_hil)
        = [Cancelled 0 (Some Hil); Complete r]).
Proof.
  split; [|split].
  - intros H. specialize (H "chat" (or_introl eq_refl)). vm_compute in H. discriminate.
  - eexists. split; [vm_compute; reflexivity | reflexivity].
  - eexists. vm_compute. reflexivity.
Qed.

End TerminalClaims.

(** ** Running out of iterations *)

Module ExhaustionClaims.
Import PyStr Json MessageLog Loop LoopFacts LoopRules Shape.

Lemma chat_loop_exhausts (cfg : Config) (env : Env) (fuel i : nat) (st : State) :
  keeps_calling_tools cfg env ->
  (chat_loop cfg env fuel i st).2 = ChatBreak "".
Proof.
  intros [Hc Hm]. revert i st. induction fuel as [|fuel IH]; intros i st; [done|].
  cbn [chat_loop].
  destruct (Hm (S i) (get_messages (manager st))) as (response & calls & Hr & Ht & Hne & Hok).
  destruct (chat_iteration_tools cfg env (S i) st response calls (Hc _) Hr Ht Hne Hok)
    as (steps & Hn & _).
  destruct (chat_iteration cfg env (S i) st) as [st' ex]. cbn [snd] in Hn. subst ex.
  apply IH.
Qed.

Lemma agent_loop_exhausts (cfg : Config) (env : Env) (msg : string) (fuel i : nat)
    (st : State) :
  keeps_calling_tools cfg env -> no_control_proposal env ->
  (agent_loop cfg env msg fuel i st).2 = None.
Proof.
  intros [Hc Hm] Hno. revert i st. induction fuel as [|fuel IH]; intros i st; [done|].
  cbn [agent_loop].
  destruct (Hm (S i) (get_messages (manager st))) as (response & calls & Hr & Ht & Hne & Hok).
  destruct (Hno _ _ _ _ Hr Ht) as [Hs1 Hs2].
  destruct (agent_iteration_tools cfg env msg (S i) st response calls
              (Hc _) Hr Ht Hne Hok Hs1 Hs2) as (steps & Hn & _).
  destruct (agent_iteration cfg env msg (S i) st) as [st' ex]. cbn [snd] in Hn. subst ex.
  apply IH.
Qed.

(** In Agent Mode the exhausted loop closes with the fixed sentence. *)
Lemma agent_exhaustion_message (cfg : Config) (env : Env) (sid : option string)
    (msg : string) (st : State) :
  keeps_calling_tools cfg env -> no_control_proposal env ->
  exists pre r,
    process_message_stream cfg env sid "agent" msg st = pre ++ [Complete r]
    /\ Response.assistant_message r = "I need more iterations to complete this request.".
Proof.
  intros Hk Hno. unfold process_message_stream, route_stream.
  change (String.eqb "agent" "chat") with false. cbv iota. unfold agent_stream.
  pose proof (agent_loop_exhausts cfg env msg (max_iterations cfg) 0
                (user_says msg (begin_turn st)) Hk Hno) as He.
  destruct (agent_loop cfg env msg (max_iterations cfg) 0 _) as [st' ex].
  cbn [snd] in He. subst ex. unfold agent_finish.
  change (Artifact.extract false (workspace_dir cfg) more_iterations)
    with (@None Artifact.Artifact, more_iterations).
  cbn [escaped final events emit]. rewrite app_nil_r.
  eexists (_ ++ _), _. split; [by rewrite app_assoc|]. reflexivity.
Qed.

(** C5 on the code of Chat Mode.  When the chat loop runs out of
    iterations, the turn does end with a [complete] event, but its
    [assistant_message] is the empty initial value of [final_response], not
    the sentence that Agent Mode sends. *)
Theorem chat_exhaustion_sends_empty_answer (cfg : Config) (env : Env)
    (sid : option string) (msg : string) (st : State) :
  keeps_calling_tools cfg env ->
  exists pre r,
    process_message_stream cfg env sid "chat" msg st = pre ++ [Complete r]
    /\ Response.assistant_message r = ""
    /\ Response.assistant_message r <> "I need more iterations to complete this request.".
Proof.
  intros Hk. unfold process_message_stream, route_stream.
  change (String.eqb "chat" "chat") with true. cbv iota. unfold chat_stream.
  set (st0 := user_says msg (begin_turn _)).
  pose proof (chat_loop_exhausts cfg env (max_iterations cfg) 0 st0 Hk) as He.
  destruct (chat_loop cfg env (max_iterations cfg) 0 st0) as [st' ex].
  cbn [snd] in He. subst ex.
  cbn [escaped final events emit]. rewrite app_nil_r.
  eexists (_ ++ _), _. split; [by rewrite app_assoc|]. split; [reflexivity | discriminate].
Qed.

Lemma tireless_keeps_calling (n : nat) : keeps_calling_tools (Scenario.cfg n) Scenario.tireless.
Proof.
  split; [done|]. intros i msgs. eexists _, _. split; [reflexivity|].
  split; [reflexivity|]. split; [discriminate | reflexivity].
Defined.

(** The failing input: two iterations allowed, a search proposed in each. *)
Lemma chat_exhaustion_sends_empty_answer_witness :
  keeps_calling_tools (Scenario.cfg 2) Scenario.tireless
  /\ exists pre r,
       process_message_stream (Scenario.cfg 2) Scenario.tireless (Some "s1") "chat"
         "question" (Scenario.fresh Hil ∅) = pre ++ [Complete r]
       /\ Response.assistant_message r = ""
       /\ Response.assistant_message r <> "I need more iterations to complete this request.".
Proof.
  split; [apply tireless_keeps_calling|].
  apply (chat_exhaustion_sends_empty_answer (Scenario.cfg 2) Scenario.tireless (Some "s1")
           "question" (Scenario.fresh Hil ∅) (tireless_keeps_calling 2)).
Defined.

(** The same turn, computed: two ThinkingSteps and the empty answer. *)
Lemma chat_exhaustion_computed :
  exists s1 s2 r,
    process_message_stream (Scenario.cfg 2) Scenario.tireless (Some "s1") "chat"
      "question" (Scenario.fresh Hil ∅)
    = [ThinkingStepEvent s1; ThinkingStepEvent s2; Complete r]
    /\ Response.assistant_message r = "".
Proof. eexists _, _, _. split; [vm_compute; reflexivity | reflexivity]. Qed.

End ExhaustionClaims.

(** ** Control proposals *)

Module ControlClaims.
Import PyStr Json MessageLog Loop LoopFacts LoopRules Shape.






(** Outside the published tool set the control proposal ends the turn with
    an error instead: [stop_answer] is not registered in the HIL stage. *)
Lemma unregistered_control_tool :
  agent_iteration (Scenario.cfg 5)
    (Scenario.world_of Scenario.never
       (fun _ => Some (Scenario.proposing [Scenario.call "call_1" "stop_answer" "{}"]))
       None Scenario.no_tool)
    "question" 1 (Scenario.fresh Hil tools_hil)
  = (fail_turn missing_tool (Scenario.fresh Hil tools_hil), Some AgentReturn).
Proof. vm_compute. reflexivity. Qed.

End ControlClaims.

(** ** The workspace tools *)

Module FileFacts.
Import PyStr PyStrFacts Paths FileTools.

(** What [relative_to] accepts lies below the base, component by component. *)
Lemma relative_to_inside (p base : list string) :
  is_Some (relative_to p base) <-> components_prefix base p = true.
Proof.
  unfold relative_to. destruct (components_prefix base p); split; try done.
Qed.

Lemma components_prefix_spec (base p : list string) :
  components_prefix base p = true <-> exists rest, p = base ++ rest.
Proof.
  revert p. induction base as [|a base IH]; intros p; cbn [components_prefix].
  - split; [intros _; by exists p | done].
  - destruct p as [|b p].
    + split; [done | intros [r Hr]; discriminate].
    + rewrite andb_true_iff, IH, String.eqb_eq. split.
      * intros [-> [r ->]]. by exists r.
      * intros [r Hr]. injection Hr as -> ->. split; [done | by exists r].
Qed.

(** Creating directories never replaces a file. *)
Lemma mkdir_chain_keeps_files (done todo : list string)
    (m m' : gmap (list string) node) (q : list string) (c : string) :
  mkdir_chain done todo m = Some m' ->
  m !! q = Some (File c) -> m' !! q = Some (File c).
Proof.
  revert done m. induction todo as [|x todo IH]; intros done m; cbn [mkdir_chain].
  - destruct (m !! done) as [[?|]|] eqn:E; [done| |]; intros [= <-] Hq.
    all: rewrite lookup_insert_ne; [done | congruence].
  - destruct (m !! done) as [[?|]|] eqn:E; [done| |]; intros Hm Hq.
    all: apply (IH _ _ Hm); rewrite lookup_insert_ne; [done | congruence].
Qed.

(** [file_read] reads inside the workspace or not at all, and changes no
    file. *)
Lemma file_read_contained (t : Tool) (ws : Path) (filename : string) (w : World) :
  workspace_dir t = Some ws ->
  fs (file_read t filename w).2 = fs w
  /\ exists new,
       trace (file_read t filename w).2 = trace w ++ new
       /\ Forall (fun a => components_prefix (resolve (cwd t) ws) (target a) = true) new.
Proof.
  intros Hws. unfold file_read, read_get_file_path. rewrite Hws.
  unfold relative_to.
  destruct (components_prefix _ _) eqn:Hin; cbn [snd].
  - unfold exists_, read_text, touch. cbn [fs trace].
    destruct (negb _); cbn [snd fs trace].
    + split; [done|]. eexists [_]. split; [done|]. by repeat constructor.
    + destruct (fs w !! _) as [[?|]|]; cbn [snd fs trace];
        (split; [done|]); eexists [_; _]; rewrite <- app_assoc;
        (split; [done|]); by repeat constructor.
  - split; [done|]. exists []. by rewrite app_nil_r.
Qed.

(** [file_write] leaves every file outside the workspace as it was. *)
Lemma file_write_contained (t : Tool) (ws : Path) (filename content : string)
    (append : bool) (w : World) (q : list string) (c : string) :
  workspace_dir t = Some ws ->
  components_prefix (resolve (cwd t) ws) q = false ->
  fs w !! q = Some (File c) ->
  fs (file_write t filename content append w).2 !! q = Some (File c).
Proof.
  intros Hws Hout Hq. unfold file_write, write_get_file_path. rewrite Hws.
  unfold relative_to.
  destruct (components_prefix _ (resolve (cwd t) (join ws (parse filename)))) eqn:Hin;
    [|exact Hq].
  set (p := resolve (cwd t) (join ws (parse filename))) in *.
  assert (p <> q) as Hne by (intros ->; congruence).
  unfold mkdir_parents, touch. cbn [fs trace].
  destruct (mkdir_chain [] (parent p) (fs w)) as [m|] eqn:Hm; [|exact Hq].
  pose proof (mkdir_chain_keeps_files _ _ _ _ q c Hm Hq) as Hq'.
  assert (forall x (w0 : World), fs w0 = m ->
            fs (write_text p x w0).2 !! q = Some (File c)) as Hwrite.
  { intros x w0 Hw0. unfold write_text, touch. cbn [fs trace]. rewrite Hw0.
    destruct (m !! p) as [[?|]|]; [| |destruct (m !! parent p) as [[?|]|]];
      cbn [snd fs]; rewrite ?lookup_insert_ne; done. }
  destruct append.
  - unfold exists_, touch. cbn [fs trace].
    destruct (bool_decide _).
    + unfold read_text, touch. cbn [fs trace].
      destruct (m !! p) as [[x|]|]; [|exact Hq'..].
      specialize (Hwrite (x +:+ (if is_empty x then "" else nl) +:+ content)
                    {| fs := m; trace := ((trace w ++ [Mkdir (parent p)]) ++ [Stat p])
                                         ++ [Read p] |} eq_refl).
      by destruct (write_text p _ _) as [[?|] ?].
    + specialize (Hwrite ("" +:+ (if is_empty "" then "" else nl) +:+ content)
                    {| fs := m; trace := (trace w ++ [Mkdir (parent p)]) ++ [Stat p] |}
                    eq_refl).
      by destruct (write_text p _ _) as [[?|] ?].
  - specialize (Hwrite content {| fs := m; trace := trace w ++ [Mkdir (parent p)] |} eq_refl).
    by destruct (write_text p _ _) as [[?|] ?].
Qed.

End FileFacts.

Module FileClaims.
Import PyStr PyStrFacts Paths FileTools FileFacts.



(** Overlapping occurrences count once: the edit of [aa] in [aaa] goes
    through and replaces the first two characters. *)
Lemma overlapping_occurrences_count_once :
  count "aaa" "aa" = 1 /\ replace "aaa" "aa" "X" = "Xa".
Proof. split; reflexivity. Qed.

(** C2 on the code of [file_edit].  Its containment test is a prefix test
    on path strings, so a sibling directory whose name begins with the name
    of the workspace passes it: the call below reads and rewrites a file
    outside the workspace root, a target that [file_read] and [file_write]
    refuse. *)
Theorem file_edit_escapes_workspace :
  let target := Scenario.neighbour ++ ["notes.md"] in
  let out := file_edit Scenario.editor "../workspace_agent_old/notes.md"
               "secret" "public" Scenario.disk in
  relative_to target Scenario.workspace = None
  /\ out.1 = EditOk "../workspace_agent_old/notes.md" 6 6
  /\ trace out.2 = [Stat target; Read target; Write target]
  /\ fs Scenario.disk !! target = Some (File "their secret")
  /\ fs out.2 !! target = Some (File "their public")
  /\ (file_read Scenario.editor "../workspace_agent_old/notes.md" Scenario.disk).1
     = Failure traversal_error
  /\ (file_write Scenario.editor "../workspace_agent_old/notes.md" "public" false
        Scenario.disk).1
     = Failure traversal_error.
Proof. vm_compute. repeat split; reflexivity. Qed.

End FileClaims.

(** ** The Message Log and its file *)

Module MessageLogClaims.
Import PyStr MessageLog.

Lemma save_flushes (m : Manager) :
  persisting m = true -> writable m = true -> flushed (_save m).
Proof. intros Hp Hw. unfold _save, flushed. by rewrite Hp, Hw. Qed.

(** The four appending mutators leave the file equal to the list. *)
Lemma appends_flush (op : mutator) (m m' : Manager) :
  (forall k, op <> Clear k) ->
  persisting m = true -> writable m = true ->
  run op m = Some m' -> flushed m'.
Proof.
  intros Hop Hp Hw. destruct op as [c|c|c tcs|i c|k]; cbn [run].
  - intros [= <-]. by apply save_flushes.
  - intros [= <-]. by apply save_flushes.
  - unfold add_assistant_message. repeat case_match; try done.
    all: intros [= <-]; by apply save_flushes.
  - intros [= <-]. by apply save_flushes.
  - by destruct (Hop k).
Qed.

(** C6 on the code of [clear].  It replaces the in-memory list and never
    calls [_save]: the file keeps its content, so a log that was in step
    with its file is out of step after any [clear] that removes a message. *)
Theorem clear_leaves_file_stale (keep_system : bool) (m : Manager) :
  flushed m ->
  messages (clear keep_system m) <> messages m ->
  messages_file (clear keep_system m) = Some (messages m)
  /\ ~ flushed (clear keep_system m).
Proof.
  unfold flushed. intros Hf Hne. cbn [clear messages_file]. split; [exact Hf|].
  rewrite Hf. intros [= H]. by apply Hne.
Qed.

(** The failing input: [clear(keep_system=True)] on a persisted log of a
    system prompt and one user message. *)
Lemma clear_leaves_file_stale_witness :
  flushed Scenario.synced
  /\ length (messages (clear true Scenario.synced)) = 1
  /\ option_map (@length Message) (messages_file (clear true Scenario.synced)) = Some 2
  /\ ~ flushed (clear true Scenario.synced).
Proof.
  assert (flushed Scenario.synced) as Hf by reflexivity.
  assert (messages (clear true Scenario.synced) <> messages Scenario.synced) as Hne
    by discriminate.
  destruct (clear_leaves_file_stale true Scenario.synced Hf Hne) as [H1 H2].
  split; [exact Hf|]. split; [reflexivity|]. split; [reflexivity | exact H2].
Defined.

End MessageLogClaims.

(** ** Context compaction *)

Module CompactionFacts.
Import PyStr Json MessageLog Compaction Shape.

Lemma users_app (l l' : list Message) : users (l ++ l') = users l + users l'.
Proof. unfold users. by rewrite List.filter_app, length_app. Qed.

Lemma users_rev (l : list Message) : users (rev l) = users l.
Proof.
  induction l as [|m l IH]; [done|]. cbn [rev]. rewrite users_app, IH.
  unfold users. cbn [List.filter]. destruct (is_role User m); cbn [length]; lia.
Qed.

(** With fewer than [K] user messages ahead the walk runs to the end. *)
Lemma scan_back_short (K : Z) (l : list Message) (c : nat) :
  (Z.of_nat (c + users l) < K)%Z -> scan_back K l c = (c + users l, None).
Proof.
  revert c. induction l as [|m l IH]; intros c H.
  - cbn. by rewrite Nat.add_0_r.
  - cbn [scan_back]. unfold users in *. cbn [List.filter] in *.
    destruct (is_role User m); cbn [length] in *.
    + assert ((Z.of_nat (S c) =? K)%Z = false) as -> by (apply Z.eqb_neq; lia).
      rewrite IH by lia. f_equal. lia.
    + by apply IH.
Qed.

(** Where the walk stops: at a user message, the [K]-th it has met. *)
Lemma scan_back_stop (K : Z) (l : list Message) (c uc idx : nat) :
  scan_back K l c = (uc, Some idx) ->
  exists visited u rest,
    l = visited ++ u :: rest /\ idx = length rest
    /\ role u = User /\ Z.of_nat (c + users visited + 1) = K.
Proof.
  revert c. induction l as [|m l IH]; intros c; [done|].
  cbn [scan_back]. destruct (is_role User m) eqn:Hm.
  - destruct (Z.of_nat (S c) =? K)%Z eqn:HK.
    + intros [= <- <-]. exists [], m, l. split; [done|]. split; [done|].
      split; [by apply bool_decide_eq_true in Hm|].
      apply Z.eqb_eq in HK. cbn. lia.
    + intros (visited & u & rest & -> & -> & Hu & Hk)%IH.
      exists (m :: visited), u, rest. split; [done|]. split; [done|]. split; [exact Hu|].
      unfold users in *. cbn [List.filter]. rewrite Hm. cbn [length]. lia.
  - intros (visited & u & rest & -> & -> & Hu & Hk)%IH.
    exists (m :: visited), u, rest. split; [done|]. split; [done|]. split; [exact Hu|].
    unfold users in *. cbn [List.filter]. by rewrite Hm.
Qed.

(** A walk that starts below [K] and never stops ends below [K]. *)
Lemma scan_back_through (K : Z) (l : list Message) (c uc : nat) :
  (Z.of_nat c < K)%Z -> scan_back K l c = (uc, None) -> (Z.of_nat uc < K)%Z.
Proof.
  revert c. induction l as [|m l IH]; intros c Hc; cbn [scan_back].
  - by intros [= <-].
  - destruct (is_role User m); [|by apply IH].
    destruct (Z.of_nat (S c) =? K)%Z eqn:HK; [done|].
    apply IH. apply Z.eqb_neq in HK. lia.
Qed.

Lemma split_index_le (K : Z) (l : list Message) : split_index K l <= length l.
Proof.
  unfold split_index. destruct (scan_back K (rev l) 0) as [uc [idx|]] eqn:E; cbn; [|done].
  apply scan_back_stop in E as (visited & u & rest & Hl & -> & _).
  rewrite <- (length_rev l), Hl, length_app. cbn. lia.
Qed.

(** RECENT is a suffix of the log ... *)
Lemma recent_is_suffix (K : Z) (l : list Message) :
  l = take (split_index K l) l ++ recent_messages K l.
Proof. unfold recent_messages. by rewrite take_drop. Qed.

(** ... that begins with the [K]-th most recent user message. *)
Lemma recent_starts_at_kth (K : Z) (l : list Message) :
  (1 <= K)%Z -> ~ (Z.of_nat (user_count K l) < K)%Z ->
  exists u rest,
    recent_messages K l = u :: rest /\ role u = User
    /\ Z.of_nat (users (u :: rest)) = K.
Proof.
  intros HK Hge. unfold user_count, recent_messages, split_index in *.
  destruct (scan_back K (rev l) 0) as [uc [idx|]] eqn:E; cbn [fst snd from_option id] in *.
  - apply scan_back_stop in E as (visited & u & rest & Hl & -> & Hu & Hk).
    assert (l = rev rest ++ u :: rev visited) as ->.
    { rewrite <- (rev_involutive l), Hl, rev_app_distr. cbn [rev].
      by rewrite <- app_assoc. }
    rewrite <- (length_rev rest), drop_app_length.
    exists u, (rev visited). split; [done|]. split; [exact Hu|].
    change (u :: rev visited) with ([u] ++ rev visited).
    rewrite users_app, users_rev. unfold users at 1. cbn [List.filter].
    unfold is_role. rewrite bool_decide_eq_true_2 by done. cbn [length]. lia.
  - apply scan_back_through in E; [done | lia].
Qed.

Lemma user_count_short (K : Z) (l : list Message) :
  (Z.of_nat (users l) < K)%Z -> user_count K l = users l.
Proof.
  intros H. unfold user_count.
  rewrite (scan_back_short K (rev l) 0) by (by rewrite users_rev). cbn.
  apply users_rev.
Qed.

Lemma messages_replace (new_messages : list Message) (m : Manager) :
  messages (replace_messages new_messages m) = new_messages.
Proof. unfold replace_messages, _save. by case_match. Qed.

(** The only way to the result [Compacted]. *)
Lemma execute_compacted (env : Env) (t : Tool) (K : Z) (m m' : Manager)
    (w w' : FileTools.World) (b a o r : nat) :
  execute env t K m w = (Compacted b a o r, m', w') ->
  exists digest confirmation,
    let new_messages :=
      (system_messages (messages m)
       ++ [summary_message digest; msg Assistant (Some confirmation)]
       ++ recent_messages K (messages m)) ++ [continue_message] in
    m' = replace_messages new_messages m
    /\ is_empty digest = false
    /\ old_messages K (messages m) <> []
    /\ ~ (Z.of_nat (user_count K (messages m)) < K)%Z
    /\ b = length (messages m) /\ a = length new_messages
    /\ o = length (old_messages K (messages m))
    /\ r = length (recent_messages K (messages m)).
Proof.
  unfold execute, get_messages.
  destruct (negb (has_message_manager t)); [done|].
  destruct (negb (has_llm_provider t)); [done|].
  destruct (length (messages m) <=? 3)%nat; [done|].
  destruct (Z.of_nat (user_count K (messages m)) <? K)%Z eqn:HK; [done|].
  destruct (old_messages K (messages m)) as [|x old] eqn:Hold; [done|].
  destruct (compaction_agent _ _ _ _ _) as [[summary| |] w1]; [|done..].
  destruct summary as [digest|]; cbn [truthy_str negb]; [|done].
  destruct (is_empty digest) eqn:Hd; cbn [negb]; [done|].
  destruct (chat env _) as [reply|]; [|done].
  intros [= <- <- <- <- <- <-].
  eexists digest, _. cbv zeta. split; [reflexivity|]. split; [exact Hd|].
  split; [done|]. split; [by apply Z.ltb_ge in HK; lia|]. done.
Qed.

End CompactionFacts.

Module CompactionClaims.
Import PyStr Json MessageLog Compaction Shape CompactionFacts.

(** C3, as amended.  When [execute] reports a compaction, the log has been
    rewritten to: the system messages, one user message holding the digest,
    one assistant confirmation, the unchanged RECENT suffix of the old log
    (which, for [K >= 1], begins with the [K]-th most recent user message),
    and one user message with the content
    [Good. Please continue your work.].  The new log has three messages
    more than the old one without the summarised span, so it is strictly
    shorter exactly when more than three messages were summarised.  With
    fewer than [K] user messages the call leaves the log as it is. *)
Theorem compaction_rewrites_log (env : Env) (t : Tool) (K : Z) (m : Manager)
    (w : FileTools.World) :
  (forall b a o r m' w',
      execute env t K m w = (Compacted b a o r, m', w') ->
      exists digest confirmation,
        messages m'
        = system_messages (messages m)
          ++ [msg User (Some (summary_head +:+ digest +:+ summary_tail));
              msg Assistant (Some confirmation)]
          ++ recent_messages K (messages m)
          ++ [msg User (Some "Good. Please continue your work.")]
        /\ messages m = take (split_index K (messages m)) (messages m)
                        ++ recent_messages K (messages m)
        /\ ((1 <= K)%Z ->
            exists u rest,
              recent_messages K (messages m) = u :: rest /\ role u = User
              /\ Z.of_nat (users (u :: rest)) = K)
        /\ o = length (old_messages K (messages m))
        /\ length (messages m') + o = length (messages m) + 3
        /\ (length (messages m') < length (messages m) <-> 3 < o))
  /\ ((Z.of_nat (users (messages m)) < K)%Z ->
      (execute env t K m w).1.2 = m).
Proof.
  split.
  - intros b a o r m' w' He.
    destruct (execute_compacted env t K m m' w w' b a o r He)
      as (digest & confirmation & Hm' & Hd & Hold & Hge & Hb & Ha & Ho & Hr).
    cbv zeta in Hm', Ha.
    exists digest, confirmation.
    assert (messages m'
            = system_messages (messages m)
              ++ [msg User (Some (summary_head +:+ digest +:+ summary_tail));
                  msg Assistant (Some confirmation)]
              ++ recent_messages K (messages m)
              ++ [msg User (Some "Good. Please continue your work.")]) as Hmsgs.
    { rewrite Hm', messages_replace. by rewrite <- !app_assoc. }
    assert (length (messages m') + o = length (messages m) + 3) as Hlen.
    { rewrite Hmsgs, Ho. unfold old_messages, slice in *.
      rewrite !length_app. cbn [length].
      pose proof (split_index_le K (messages m)) as Hle.
      assert (length (recent_messages K (messages m))
              = length (messages m) - split_index K (messages m)) as ->
        by (unfold recent_messages; by rewrite length_drop).
      rewrite length_drop, length_take.
      assert (length (system_messages (messages m)) < split_index K (messages m)).
      { destruct (decide (length (system_messages (messages m))
                          < split_index K (messages m))) as [|Hn]; [done|].
        destruct Hold. apply nil_length_inv.
        rewrite length_drop, length_take. lia. }
      lia. }
    split; [exact Hmsgs|]. split; [apply recent_is_suffix|].
    split; [intros HK; by apply recent_starts_at_kth|].
    split; [exact Ho|]. split; [exact Hlen | lia].
  - intros Hfew. unfold execute, get_messages.
    rewrite (user_count_short K (messages m) Hfew).
    assert ((Z.of_nat (users (messages m)) <? K)%Z = true) as -> by (by apply Z.ltb_lt).
    by repeat case_match.
Qed.

(** [Scenario.long_log] with [K = 10] is compacted; with [K = 12] it has
    too few user messages. *)
Lemma compaction_rewrites_log_witness :
  (exists m' w',
      execute Scenario.summarizer Scenario.compactor 10 Scenario.long_log
        Scenario.empty_world = (Compacted 13 14 2 10, m', w')
      /\ length (messages m') + 2 = length (messages Scenario.long_log) + 3)
  /\ (Z.of_nat (users (messages Scenario.long_log)) < 12)%Z
  /\ (execute Scenario.summarizer Scenario.compactor 12 Scenario.long_log
        Scenario.empty_world).1.2 = Scenario.long_log.
Proof.
  assert (exists m' w',
             execute Scenario.summarizer Scenario.compactor 10 Scenario.long_log
               Scenario.empty_world = (Compacted 13 14 2 10, m', w')) as (m' & w' & E)
    by (eexists _, _; vm_compute; reflexivity).
  assert (Z.of_nat (users (messages Scenario.long_log)) < 12)%Z as H by (vm_compute; done).
  split; [|split; [exact H|]].
  - exists m', w'. split; [exact E|].
    destruct (proj1 (compaction_rewrites_log Scenario.summarizer Scenario.compactor 10
                       Scenario.long_log Scenario.empty_world) _ _ _ _ _ _ E)
      as (digest & confirmation & _ & _ & _ & _ & Hlen & _).
    exact Hlen.
  - apply (proj2 (compaction_rewrites_log Scenario.summarizer Scenario.compactor 12
                    Scenario.long_log Scenario.empty_world) H).
Defined.

(** C3 as it was stated fails on [Scenario.long_log] with the default
    [K = 10]: two messages are summarised, the rewritten log is one message
    longer than the original, and its last message does not read
    [Please continue your work.]. *)
Lemma compacted_log_can_grow :
  exists m' w',
    execute Scenario.summarizer Scenario.compactor 10 Scenario.long_log Scenario.empty_world
    = (Compacted 13 14 2 10, m', w')
    /\ (10 <= Z.of_nat (users (messages Scenario.long_log)))%Z
    /\ ~ (length (messages m') < length (messages Scenario.long_log))
    /\ last (messages m') = Some (msg User (Some "Good. Please continue your work."))
    /\ last (messages m') <> Some (msg User (Some "Please continue your work.")).
Proof.
  eexists _, _. split; [vm_compute; reflexivity|].
  split; [vm_compute; discriminate|].
  split; [vm_compute; lia|]. split; [reflexivity | discriminate].
Qed.

End CompactionClaims.

(** ** The artifact needs the doctype in its exact spelling *)

Module ArtifactClaims.
Import PyStr PyStrFacts Json MessageLog Loop LoopFacts LoopRules Shape.

Lemma extract_guard (ready : bool) (ws : option string) (text : string) :
  (Artifact.extract ready ws text).1 <> None ->
  ready = true /\ contains Artifact.DOCTYPE text = true.
Proof.
  unfold Artifact.extract. destruct ready; [|done].
  destruct (contains Artifact.DOCTYPE text); [done|]. cbn. done.
Qed.

Lemma extract_without_doctype (ready : bool) (ws : option string) (text : string) :
  contains Artifact.DOCTYPE text = false ->
  Artifact.extract ready ws text = (None, text).
Proof. intros H. unfold Artifact.extract. by rewrite H, andb_false_r. Qed.

(** C10.  In the final-answer phase of Agent Mode the envelope carries an
    artifact only if the final text contains [<!DOCTYPE html>] in exactly
    this spelling; a text without it yields no artifact and is kept whole
    as the assistant message.  The search patterns themselves ignore case:
    the lower-case document of [Scenario.lower_case_report] is matched by
    them and still gives no artifact. *)
Theorem artifact_needs_exact_doctype (cfg : Config) (env : Env) (msg : string)
    (st : State) (response : ModelReply) (text : string) :
  llm_final env (get_messages (manager st)) = Some response ->
  reply_content response = Some text ->
  is_empty text = false ->
  exists r,
    events (final (agent_finish cfg env msg true st)) = events st ++ [Complete r]
    /\ escaped (agent_finish cfg env msg true st) = None
    /\ (Response.artifact r <> None ->
        exists a b, text = a +:+ "<!DOCTYPE html>" +:+ b)
    /\ ((forall a b, text <> a +:+ "<!DOCTYPE html>" +:+ b) ->
        Response.artifact r = None /\ Response.assistant_message r = text)
    /\ (Artifact.html_match Scenario.lower_case_report <> None
        /\ Artifact.extract true (workspace_dir cfg) Scenario.lower_case_report
           = (None, Scenario.lower_case_report)).
Proof.
  intros Hr Hc Hne. unfold agent_finish. rewrite Hr, Hc.
  unfold add_assistant_message. cbn [truthy_str truthy_list]. rewrite Hne.
  cbn [negb andb from_option id].
  pose proof (extract_guard true (workspace_dir cfg) text) as Hg.
  pose proof (extract_without_doctype true (workspace_dir cfg) text) as Hw.
  destruct (Artifact.extract true (workspace_dir cfg) text) as [art body].
  cbn [fst] in Hg. cbn [final escaped].
  eexists. split.
  { st_simpl. f_equal.
    destruct (bool_decide _); st_simpl; by rewrite TerminalFacts.quiet_track. }
  split; [done|]. cbn [Response.artifact Response.assistant_message agent_response].
  split; [|split].
  - intros Ha. destruct (Hg Ha) as [_ Hd]. by apply contains_spec in Hd.
  - intros Hno. assert (contains Artifact.DOCTYPE text = false) as Hd.
    { destruct (contains Artifact.DOCTYPE text) eqn:E; [|done].
      apply contains_spec in E as (a & b & ->). by destruct (Hno a b). }
    specialize (Hw Hd). by injection Hw as -> ->.
  - split; [vm_compute; discriminate | by apply extract_without_doctype].
Qed.

Lemma artifact_needs_exact_doctype_witness :
  exists r,
    events (final (agent_finish (Scenario.cfg 5) Scenario.reporting "question" true
                     (Scenario.fresh Research tools_hil)))
    = [Complete r]
    /\ Response.artifact r = None
    /\ Response.assistant_message r = Scenario.lower_case_report.
Proof.
  destruct (artifact_needs_exact_doctype (Scenario.cfg 5) Scenario.reporting "question"
              (Scenario.fresh Research tools_hil)
              (Scenario.saying Scenario.lower_case_report) Scenario.lower_case_report
              eq_refl eq_refl eq_refl) as (r & Hev & _ & _ & Hno & _).
  exists r. split; [exact Hev|]. apply Hno.
  intros a b H.
  assert (contains Artifact.DOCTYPE Scenario.lower_case_report = true) as Hd
    by (apply contains_spec; by exists a, b).
  vm_compute in Hd. discriminate Hd.
Defined.

(** With the exact spelling the same document is extracted. *)
Lemma exact_doctype_is_extracted :
  exists a,
    Artifact.extract true (Some "/ws")
      "Overview. <!DOCTYPE html><html><h1>Quorum <b>Tuning</b></h1></html>"
    = (Some a, "Overview.")
    /\ Artifact.title a = "Quorum Tuning"
    /\ Artifact.html_content a
       = "<!DOCTYPE html><html><h1>Quorum <b>Tuning</b></h1></html>".
Proof. eexists. split; [vm_compute; reflexivity|]. split; reflexivity. Qed.

End ArtifactClaims.
(** ** Further properties of the workspace tools *)

Module FileExtras.
Import PyStr PyStrFacts Paths FileTools FileFacts.




Lemma components_prefix_app (base rest : list string) :
  components_prefix base (base ++ rest) = true.
Proof. apply components_prefix_spec. by exists rest. Qed.





(** X1.  [file_read] stays inside the workspace: whatever name it is given,
    it leaves the file system as it was, and every path it looks at
    (existence test or read) lies below the resolved workspace directory,
    component by component. *)
Theorem file_read_stays_inside (t : Tool) (ws : Path) (filename : string) (w : World) :
  workspace_dir t = Some ws ->
  fs (file_read t filename w).2 = fs w
  /\ exists new,
       trace (file_read t filename w).2 = trace w ++ new
       /\ Forall (fun a => exists rest, target a = resolve (cwd t) ws ++ rest) new.
Proof.
  intros Hws. destruct (file_read_contained t ws filename w Hws) as (Hfs & new & Htr & Hall).
  split; [done|]. exists new. split; [done|].
  eapply Forall_impl; [exact Hall|]. intros a Ha. by apply components_prefix_spec.
Qed.

Lemma file_read_stays_inside_witness :
  fs (file_read Scenario.editor "../workspace_agent_old/notes.md" Scenario.disk).2
  = fs Scenario.disk
  /\ exists new,
       trace (file_read Scenario.editor "../workspace_agent_old/notes.md" Scenario.disk).2
       = trace Scenario.disk ++ new
       /\ Forall (fun a => exists rest,
                    target a
                    = resolve (cwd Scenario.editor) (parse "/data/chats/s1/workspace_agent")
                      ++ rest) new.
Proof.
  exact (file_read_stays_inside Scenario.editor (parse "/data/chats/s1/workspace_agent")
           "../workspace_agent_old/notes.md" Scenario.disk eq_refl).
Defined.

(** X2.  [file_write] changes no file outside the workspace: a file whose
    resolved path does not lie below the resolved workspace directory has
    the same content after the call, whatever the name, the content and the
    mode, and whether the call succeeds or not. *)
Theorem file_write_spares_outside (t : Tool) (ws : Path) (filename content : string)
    (append : bool) (w : World) (q : list string) (c : string) :
  workspace_dir t = Some ws ->
  components_prefix (resolve (cwd t) ws) q = false ->
  fs w !! q = Some (File c) ->
  fs (file_write t filename content append w).2 !! q = Some (File c).
Proof. apply file_write_contained. Qed.

Lemma file_write_spares_outside_witness :
  fs (file_write Scenario.editor "../workspace_agent_old/notes.md" "public" false
        Scenario.disk).2 !! (Scenario.neighbour ++ ["notes.md"])
  = Some (File "their secret").
Proof.
  apply (file_write_spares_outside Scenario.editor (parse "/data/chats/s1/workspace_agent")
           "../workspace_agent_old/notes.md" "public" false Scenario.disk
           (Scenario.neighbour ++ ["notes.md"]) "their secret" eq_refl).
  - vm_compute. reflexivity.
  - vm_compute. reflexivity.
Defined.









End FileExtras.
(** ** ThinkingSteps, their numbers and the events that report them *)

Module StepFacts.
Import PyStr Json MessageLog Loop LoopFacts LoopRules Protocol.

Lemma steps_of_app (l l' : list Event) : steps_of (l ++ l') = steps_of l ++ steps_of l'.
Proof.
  induction l as [|e l IH]; [done|]. destruct e; cbn [app steps_of]; by rewrite ?IH.
Qed.

Lemma steps_of_steps (steps : list Thinking.ThinkingStep) :
  steps_of (map ThinkingStepEvent steps) = steps.
Proof. induction steps as [|d steps IH]; [done|]. cbn [map steps_of]. by rewrite IH. Qed.

Lemma consistent_app (seen : list Thinking.ThinkingStep) (l l' : list Event) :
  consistent seen (l ++ l') <-> consistent seen l /\ consistent (seen ++ steps_of l) l'.
Proof.
  revert seen. induction l as [|e l IH]; intros seen.
  - cbn. rewrite app_nil_r. tauto.
  - destruct e; cbn [app consistent steps_of]; rewrite ?IH, <- ?app_assoc; cbn [app]; tauto.
Qed.

Lemma consistent_steps (seen steps : list Thinking.ThinkingStep) :
  map Thinking.step steps = seq (S (length seen)) (length steps) ->
  consistent seen (map ThinkingStepEvent steps).
Proof.
  revert seen. induction steps as [|d steps IH]; intros seen; [done|].
  cbn [map length seq consistent]. intros [= Hd Hs]. split; [done|].
  apply IH. by rewrite length_app, Nat.add_1_r.
Qed.

(** The numbers of the steps seen in a consistent stream. *)
Lemma consistent_numbers (seen : list Thinking.ThinkingStep) (l : list Event) :
  consistent seen l ->
  map Thinking.step (steps_of l) = seq (S (length seen)) (length (steps_of l)).
Proof.
  revert seen. induction l as [|e l IH]; intros seen; [done|].
  destruct e; cbn [consistent steps_of]; try apply IH; try (intros [_ H]; by apply IH).
  intros [Hd H]. cbn [map length seq]. rewrite Hd. f_equal.
  specialize (IH _ H). by rewrite length_app, Nat.add_1_r in IH.
Qed.

Lemma inv_unchanged (st st' : State) :
  events st' = events st -> thinking_steps st' = thinking_steps st ->
  step_counter st' = step_counter st -> StepInv st -> StepInv st'.
Proof. unfold StepInv. by intros -> -> ->. Qed.

Lemma inv_emitted (e : Event) (st : State) :
  StepInv st ->
  match e with
  | ThinkingStepEvent _ => False
  | Cancelled n _ => n = length (thinking_steps st)
  | Complete r => Response.thinking_steps r = non_empty (thinking_steps st)
  | _ => True
  end ->
  StepInv (emit e st).
Proof.
  intros (Hc & Hs & Hn) He. unfold StepInv. cbn [emit events thinking_steps step_counter].
  rewrite consistent_app, steps_of_app, Hs. cbn [app].
  destruct e; cbn [consistent steps_of]; rewrite ?app_nil_r; try done.
Qed.

Lemma inv_failed (e : string) (st : State) : StepInv st -> StepInv (fail_turn e st).
Proof.
  intros H. unfold fail_turn. apply (inv_emitted (Error _)); [|done].
  by apply (inv_unchanged st).
Qed.

Lemma inv_tracked (response : ModelReply) (st : State) :
  StepInv st -> StepInv (track_usage response st).
Proof. destruct (track_usage_frame response st) as [n ->]. by apply inv_unchanged. Qed.

Lemma inv_compacted (env : Env) (st : State) :
  StepInv st -> StepInv (force_compaction env st).
Proof. destruct (force_compaction_frame env st) as [m ->]. by apply inv_unchanged. Qed.

(** The [for] over the proposals numbers its steps on from the counter. *)
Lemma run_tool_calls_numbered (agent : bool) (env : Env) (why : option string)
    (calls : list ToolCall) (st : State) :
  exists steps,
    thinking_steps (run_tool_calls agent env why calls st) = thinking_steps st ++ steps
    /\ step_counter (run_tool_calls agent env why calls st) = step_counter st + length steps
    /\ events (run_tool_calls agent env why calls st)
       = events st ++ map ThinkingStepEvent steps
    /\ map Thinking.step steps = seq (S (step_counter st)) (length steps).
Proof.
  revert st. induction calls as [|tc calls IH]; intros st.
  - exists []. cbn. by rewrite !app_nil_r, Nat.add_0_r.
  - cbn [run_tool_calls].
    destruct (run_tool_call_frame agent env why tc st) as (src & exe & H1). cbv zeta in H1.
    pose proof (f_equal thinking_steps H1) as E1.
    pose proof (f_equal step_counter H1) as E2.
    pose proof (f_equal events H1) as E3.
    cbn [thinking_steps step_counter events] in E1, E2, E3. clear H1.
    destruct (IH (run_tool_call agent env why tc st)) as (steps & Ht & Hn & He & Hs).
    rewrite E1 in Ht. rewrite E2 in Hn, Hs. rewrite E3 in He.
    eexists (_ :: steps). rewrite Ht, Hn, He, <- !app_assoc. cbn [app map length seq].
    repeat split. { lia. } by rewrite Hs.
Qed.

Lemma inv_tools (agent : bool) (env : Env) (why : option string)
    (calls : list ToolCall) (st : State) :
  StepInv st -> StepInv (run_tool_calls agent env why calls st).
Proof.
  intros (Hc & Hs & Hn).
  destruct (run_tool_calls_numbered agent env why calls st) as (steps & Ht & Hk & He & Hnum).
  unfold StepInv. rewrite Ht, Hk, He, consistent_app, steps_of_app, steps_of_steps, Hs, Hn.
  cbn [app]. repeat split; [done| |by rewrite length_app].
  apply consistent_steps. by rewrite <- Hn.
Qed.

Lemma chat_iteration_steps (cfg : Config) (env : Env) (i : nat) (st : State) :
  StepInv st -> StepInv (chat_iteration cfg env i st).1.
Proof.
  intros H. unfold chat_iteration.
  destruct (has_chat_service cfg && cancel_requested env i).
  { cbn [fst]. by apply (inv_emitted (Cancelled _ _)). }
  destruct (llm_chat env i _) as [response|]; [|by apply inv_failed].
  apply (inv_tracked response) in H.
  destruct (truthy_list _).
  - destruct (add_assistant_message _ _ _) as [m|]; [|by apply inv_failed].
    cbn [fst]. apply inv_tools. by apply (inv_unchanged (track_usage response st)).
  - cbn [fst]. by apply (inv_unchanged (track_usage response st)).
Qed.

Lemma chat_stream_steps (cfg : Config) (env : Env) (msg : string) (st : State) :
  StepInv (final (chat_stream cfg env msg st)).
Proof.
  unfold chat_stream. set (st0 := user_says msg (begin_turn _)).
  assert (StepInv st0) as H0 by (by repeat split).
  assert (forall i s, StepInv s ->
            match chat_iteration cfg env i s with
            | (s', None) => StepInv s'
            | (s', Some ex) => (fun s _ => StepInv s) s' ex
            end) as Hstep.
  { intros i s Hs. pose proof (chat_iteration_steps cfg env i s Hs) as Hi.
    by destruct (chat_iteration cfg env i s) as [s' [ex|]]. }
  pose proof (chat_loop_rule cfg env StepInv (fun s _ => StepInv s)
                Hstep (fun s Hs => Hs) (max_iterations cfg) 0 st0 H0) as R.
  destruct (chat_loop cfg env (max_iterations cfg) 0 st0) as [st' [fr|]];
    cbn [fst snd final] in *.
  - by apply (inv_emitted (Complete _)).
  - exact R.
Qed.

Lemma agent_iteration_steps (cfg : Config) (env : Env) (msg : string) (i : nat) (st : State) :
  StepInv st -> StepInv (agent_iteration cfg env msg i st).1.
Proof.
  intros H. unfold agent_iteration.
  destruct (has_chat_service cfg && cancel_requested env i).
  { cbn [fst]. apply (inv_emitted (Cancelled _ _)); [|done].
    destruct (bool_decide _); [by apply (inv_unchanged st) | done]. }
  destruct (llm_chat env i _) as [response|]; [|by apply inv_failed].
  apply (inv_tracked response) in H. set (st1 := track_usage response st) in *.
  destruct (truthy_list _).
  - destruct (proposes "start_research" _).
    { destruct (bool_decide _); [|by apply inv_failed]. cbn [fst].
      apply (inv_unchanged (emit (StageSwitch Research)
                              (_switch_to_research_stage env (ran "start_research" st1))));
        [done..|].
      apply (inv_emitted (StageSwitch _)); [|done]. by apply (inv_unchanged st1). }
    destruct (proposes "stop_answer" _).
    { destruct (bool_decide ("stop_answer" ∈ _)); [|by apply inv_failed]. cbn [fst].
      destruct (bool_decide _); by apply (inv_unchanged st1). }
    destruct (add_assistant_message _ _ _) as [m|]; [|by apply inv_failed].
    cbn [fst]. apply inv_compacted.
    assert (StepInv (run_tool_calls true env (keep_truthy (reasoning response))
                       (default [] (reply_tool_calls response)) (with_manager m st1))) as Ht
      by (apply inv_tools; by apply (inv_unchanged st1)).
    destruct (0 <? _)%N; [|done]. revert Ht. by apply inv_unchanged.
  - destruct (bool_decide (stage st1 = Hil)).
    + cbn [fst]. apply (inv_emitted (Complete _)); [|done]. by apply (inv_unchanged st1).
    + cbn [fst]. apply (inv_unchanged st1); [| | |done]; by destruct (_ || _).
Qed.

Lemma agent_finish_steps (cfg : Config) (env : Env) (msg : string) (ready : bool) (st : State) :
  StepInv st -> StepInv (final (agent_finish cfg env msg ready st)).
Proof.
  intros H. unfold agent_finish. destruct ready.
  - destruct (llm_final env _) as [response|]; [|done].
    apply (inv_tracked response) in H. set (st1 := track_usage response st) in *.
    destruct (add_assistant_message _ _ _) as [m|]; [|done].
    destruct (Artifact.extract _ _ _) as [art text]. cbn [final].
    apply (inv_emitted (Complete _)); [|by destruct (bool_decide _)].
    destruct (bool_decide _); by apply (inv_unchanged st1).
  - destruct (Artifact.extract _ _ _) as [art text]. cbn [final].
    apply (inv_emitted (Complete _)); [|done]. by apply (inv_unchanged st).
Qed.

Lemma agent_stream_steps (cfg : Config) (env : Env) (msg : string) (st : State) :
  StepInv (final (agent_stream cfg env msg st)).
Proof.
  unfold agent_stream. set (st0 := user_says msg (begin_turn _)).
  assert (StepInv st0) as H0 by (by repeat split).
  assert (forall i s, StepInv s ->
            match agent_iteration cfg env msg i s with
            | (s', None) => StepInv s'
            | (s', Some ex) => (fun s _ => StepInv s) s' (Some ex)
            end) as Hstep.
  { intros i s Hs. pose proof (agent_iteration_steps cfg env msg i s Hs) as Hi.
    by destruct (agent_iteration cfg env msg i s) as [s' [ex|]]. }
  pose proof (agent_loop_rule cfg env msg StepInv (fun s _ => StepInv s)
                Hstep (fun s Hs => Hs) (max_iterations cfg) 0 st0 H0) as R.
  destruct (agent_loop cfg env msg (max_iterations cfg) 0 st0) as [st' [[| |]|]];
    cbn [fst snd final] in *; try exact R; by apply agent_finish_steps.
Qed.

(** The events of a turn are consistent, in both modes. *)
Lemma turn_consistent (cfg : Config) (env : Env) (sid : option string)
    (mode msg : string) (st : State) :
  consistent [] (process_message_stream cfg env sid mode msg st).
Proof.
  unfold process_message_stream, route_stream.
  assert (StepInv (final (if String.eqb mode "chat" then chat_stream cfg env msg st
                          else agent_stream cfg env msg st))) as (Hc & _)
    by (destruct (String.eqb mode "chat");
        [apply chat_stream_steps | apply agent_stream_steps]).
  rewrite !consistent_app. split; [by destruct sid|]. split.
  - by destruct sid.
  - by destruct (escaped _).
Qed.

End StepFacts.

Module StepClaims.
Import PyStr Json MessageLog Loop Protocol StepFacts.

(** X7.  In every turn of either mode, the [thinking_step] events carry
    the numbers 1, 2, ..., n in the order in which they are yielded, and a
    [complete] event carries in [thinking_steps] exactly the steps of the
    [thinking_step] events yielded before it (nothing at all when there
    were none). *)
Theorem thinking_steps_are_numbered (cfg : Config) (env : Env) (sid : option string)
    (mode msg : string) (st : State) :
  let l := process_message_stream cfg env sid mode msg st in
  map Thinking.step (steps_of l) = seq 1 (length (steps_of l))
  /\ forall pre r post,
       l = pre ++ Complete r :: post ->
       Response.thinking_steps r = non_empty (steps_of pre).
Proof.
  intros l. pose proof (turn_consistent cfg env sid mode msg st) as H. fold l in H.
  split; [by apply (consistent_numbers [])|].
  intros pre r post E. rewrite E in H. apply consistent_app in H as [_ H].
  by destruct H as [H _].
Qed.

(** X8.  A [cancelled] event reports in [steps_completed] the number of
    [thinking_step] events yielded before it in the turn. *)
Theorem cancelled_counts_steps (cfg : Config) (env : Env) (sid : option string)
    (mode msg : string) (st : State) :
  forall pre n s post,
    process_message_stream cfg env sid mode msg st = pre ++ Cancelled n s :: post ->
    n = length (steps_of pre).
Proof.
  intros pre n s post E. pose proof (turn_consistent cfg env sid mode msg st) as H.
  rewrite E in H. apply consistent_app in H as [_ H]. by destruct H as [H _].
Qed.

(** One search, then the stop button: the event reports one step. *)
Lemma cancelled_counts_steps_witness :
  1 = length (steps_of (take 1 (process_message_stream (Scenario.cfg 3) Cases.late_stop
                                  (Some "s1") "chat" "hello" (Scenario.fresh Hil ∅)))).
Proof.
  apply (cancelled_counts_steps (Scenario.cfg 3) Cases.late_stop (Some "s1") "chat" "hello"
           (Scenario.fresh Hil ∅) _ 1 None
           (drop 2 (process_message_stream (Scenario.cfg 3) Cases.late_stop
                      (Some "s1") "chat" "hello" (Scenario.fresh Hil ∅)))).
  vm_compute. reflexivity.
Defined.

End StepClaims.
(** ** The Message Log across a turn *)

Module LogFacts.
Import PyStr Json MessageLog Loop LoopFacts LoopRules Protocol.

Lemma answered_app (pending : list string) (l1 l2 : list Message) :
  answered pending l1 = true -> answered pending (l1 ++ l2) = answered [] l2.
Proof.
  revert pending. induction l1 as [|m l1 IH]; intros pending.
  - destruct pending; [done | discriminate].
  - destruct pending as [|id rest]; cbn [app answered].
    + destruct (role m); try done; apply IH.
    + intros [[H1 H2]%andb_true_iff H3]%andb_true_iff. rewrite H1, H2. cbn [andb].
      by apply IH.
Qed.

Lemma messages_save (m : Manager) : messages (_save m) = messages m.
Proof. unfold _save. by case_match. Qed.

Lemma messages_add_user (c : string) (m : Manager) :
  messages (add_user_message c m)
  = messages m ++ [{| role := User; content := Some c; tool_calls := None;
                      tool_call_id := None |}].
Proof. unfold add_user_message. by rewrite messages_save. Qed.

Lemma messages_add_tool_result (i c : string) (m : Manager) :
  messages (add_tool_result i c m)
  = messages m ++ [{| role := ToolRole; content := Some c; tool_calls := None;
                      tool_call_id := Some i |}].
Proof. unfold add_tool_result. by rewrite messages_save. Qed.

(** An accepted assistant message is appended with the proposals it was
    given (none when the list is empty). *)
Lemma messages_add_assistant (c : option string) (tcs : option (list ToolCall))
    (m m' : Manager) :
  add_assistant_message c tcs m = Some m' ->
  exists c',
    messages m'
    = messages m ++ [{| role := Assistant; content := c';
                        tool_calls := if truthy_list tcs then tcs else None;
                        tool_call_id := None |}].
Proof.
  unfold add_assistant_message.
  destruct (negb (truthy_str c) && negb (truthy_list tcs)); [done|].
  destruct (truthy_list tcs).
  - destruct (forallb _ _); [|done]. intros [= <-]. rewrite messages_save. by eexists.
  - intros [= <-]. rewrite messages_save. by eexists.
Qed.

(** The [for] over the proposals appends one tool message per proposal,
    with the proposals' ids in their order. *)
Lemma run_tool_calls_results (agent : bool) (env : Env) (why : option string)
    (calls : list ToolCall) (st : State) :
  exists results,
    messages (manager (run_tool_calls agent env why calls st))
    = messages (manager st) ++ results
    /\ answered (map tc_id calls) results = true.
Proof.
  revert st. induction calls as [|tc calls IH]; intros st.
  - exists []. cbn. by rewrite app_nil_r.
  - cbn [run_tool_calls].
    destruct (run_tool_call_frame agent env why tc st) as (src & exe & H1). cbv zeta in H1.
    pose proof (f_equal manager H1) as E. cbn [manager] in E. clear H1.
    destruct (IH (run_tool_call agent env why tc st)) as (results & Hm & Ha).
    rewrite E, messages_add_tool_result, <- app_assoc in Hm.
    eexists (_ :: results). split; [exact Hm|].
    cbn [map answered role tool_call_id]. by rewrite !bool_decide_eq_true_2, Ha.
Qed.

Lemma log_unchanged (base : list Message) (st st' : State) :
  manager st' = manager st -> LogInv base st -> LogInv base st'.
Proof. unfold LogInv. by intros ->. Qed.

Lemma log_said (base : list Message) (c : option string) (st : State) :
  LogInv base st ->
  LogInv base (with_manager (default (manager st)
                               (add_assistant_message c None (manager st))) st).
Proof.
  intros (added & Hm & Ha). unfold LogInv. cbn [with_manager manager].
  destruct (add_assistant_message c None (manager st)) as [m|] eqn:E; cbn [from_option id];
    [|by exists added].
  destruct (messages_add_assistant _ _ _ _ E) as [c' Hc]. cbn [truthy_list] in Hc.
  eexists (added ++ [_]). rewrite Hc, Hm, <- app_assoc. split; [done|].
  by rewrite (answered_app _ _ _ Ha).
Qed.

Lemma log_failed (base : list Message) (e : string) (st : State) :
  LogInv base st -> LogInv base (fail_turn e st).
Proof.
  intros H. unfold fail_turn.
  apply (log_unchanged base (with_manager (default (manager st)
           (add_assistant_message (Some (error_text e)) None (manager st))) st)); [done|].
  by apply log_said.
Qed.

Lemma log_tracked (base : list Message) (response : ModelReply) (st : State) :
  LogInv base st -> LogInv base (track_usage response st).
Proof. destruct (track_usage_frame response st) as [n ->]. by apply log_unchanged. Qed.

Lemma manager_tracked (response : ModelReply) (st : State) :
  manager (track_usage response st) = manager st.
Proof. by destruct (track_usage_frame response st) as [n ->]. Qed.

(** Proposals that the log accepted, and their results. *)
Lemma log_tools (base : list Message) (agent : bool) (env : Env) (why c : option string)
    (tcs : option (list ToolCall)) (m : Manager) (st : State) :
  truthy_list tcs = true ->
  add_assistant_message c tcs (manager st) = Some m ->
  LogInv base st ->
  LogInv base (run_tool_calls agent env why (default [] tcs) (with_manager m st)).
Proof.
  intros Ht Hadd (added & Hm & Ha). unfold LogInv.
  destruct (messages_add_assistant _ _ _ _ Hadd) as [c' Hc]. rewrite Ht in Hc.
  destruct (run_tool_calls_results agent env why (default [] tcs) (with_manager m st))
    as (results & Hr & Hres).
  cbn [with_manager manager] in Hr.
  eexists (added ++ _ :: results). rewrite Hr, Hc, Hm, <- !app_assoc. split; [done|].
  rewrite (answered_app _ _ _ Ha). cbn [answered role tool_calls]. exact Hres.
Qed.

Lemma chat_iteration_log (base : list Message) (cfg : Config) (env : Env) (i : nat)
    (st : State) :
  LogInv base st -> LogInv base (chat_iteration cfg env i st).1.
Proof.
  intros H. unfold chat_iteration.
  destruct (has_chat_service cfg && cancel_requested env i).
  { cbn [fst]. by apply (log_unchanged base st). }
  destruct (llm_chat env i _) as [response|]; [|by apply log_failed].
  apply (log_tracked base response) in H.
  destruct (truthy_list _) eqn:Ht.
  - destruct (add_assistant_message _ _ _) as [m|] eqn:Hadd; [|by apply log_failed].
    cbn [fst]. by apply (log_tools base false env None _ _ m _ Ht Hadd).
  - cbn [fst]. by apply log_said.
Qed.

Lemma chat_stream_log (cfg : Config) (env : Env) (msg : string) (st : State) :
  LogInv (messages (manager st)
          ++ [{| role := User; content := Some msg; tool_calls := None;
                 tool_call_id := None |}])
         (final (chat_stream cfg env msg st)).
Proof.
  unfold chat_stream. set (st0 := user_says msg (begin_turn _)).
  set (base := messages (manager st) ++ _).
  assert (LogInv base st0) as H0.
  { exists []. subst st0 base. cbn [user_says with_manager manager begin_turn].
    rewrite messages_add_user, app_nil_r. split; [|done]. by destruct (bool_decide _). }
  assert (forall i s, LogInv base s ->
            match chat_iteration cfg env i s with
            | (s', None) => LogInv base s'
            | (s', Some ex) => (fun s _ => LogInv base s) s' ex
            end) as Hstep.
  { intros i s Hs. pose proof (chat_iteration_log base cfg env i s Hs) as Hi.
    by destruct (chat_iteration cfg env i s) as [s' [ex|]]. }
  pose proof (chat_loop_rule cfg env (LogInv base) (fun s _ => LogInv base s)
                Hstep (fun s Hs => Hs) (max_iterations cfg) 0 st0 H0) as R.
  destruct (chat_loop cfg env (max_iterations cfg) 0 st0) as [st' [fr|]];
    cbn [fst snd final] in *; [|exact R].
  by apply (log_unchanged base st').
Qed.

(** *** The file behind the log *)

Lemma step_saved (p w : bool) (m : Manager) :
  persisting m = p -> writable m = w -> in_step p w (_save m).
Proof.
  intros <- <-. unfold in_step, _save, flushed.
  destruct (persisting m && writable m) eqn:E; cbn [persisting writable messages_file messages];
    by rewrite ?E.
Qed.

Lemma step_user (p w : bool) (c : string) (m : Manager) :
  persisting m = p -> writable m = w -> in_step p w (add_user_message c m).
Proof. intros. by apply step_saved. Qed.

Lemma step_tool_result (p w : bool) (i c : string) (m : Manager) :
  persisting m = p -> writable m = w -> in_step p w (add_tool_result i c m).
Proof. intros. by apply step_saved. Qed.

Lemma step_assistant (p w : bool) (c : option string) (tcs : option (list ToolCall))
    (m m' : Manager) :
  persisting m = p -> writable m = w ->
  add_assistant_message c tcs m = Some m' -> in_step p w m'.
Proof.
  intros Hp Hw. unfold add_assistant_message. repeat case_match; try done.
  all: intros [= <-]; by apply step_saved.
Qed.

Lemma step_replaced (p w : bool) (new_messages : list Message) (m : Manager) :
  persisting m = p -> writable m = w ->
  in_step p w (Compaction.replace_messages new_messages m).
Proof. intros. by apply step_saved. Qed.

(** [execute] hands back the manager it was given or a rewritten one. *)
Lemma execute_manager (env : Compaction.Env) (t : Compaction.Tool) (K : Z) (m : Manager)
    (w : FileTools.World) :
  (Compaction.execute env t K m w).1.2 = m
  \/ exists new_messages,
       (Compaction.execute env t K m w).1.2 = Compaction.replace_messages new_messages m.
Proof.
  unfold Compaction.execute.
  repeat case_match; cbn [fst snd]; (by left) || (right; by eexists).
Qed.

Lemma flush_same (p w : bool) (st st' : State) :
  manager st' = manager st -> FlushInv p w st -> FlushInv p w st'.
Proof. unfold FlushInv. by intros ->. Qed.

Lemma flush_with (p w : bool) (m : Manager) (st : State) :
  in_step p w m -> FlushInv p w (with_manager m st).
Proof. done. Qed.

Lemma flush_said (p w : bool) (c : option string) (st : State) :
  FlushInv p w st ->
  FlushInv p w (with_manager (default (manager st)
                                (add_assistant_message c None (manager st))) st).
Proof.
  intros H. apply flush_with.
  destruct (add_assistant_message c None (manager st)) as [m|] eqn:E; cbn [from_option id];
    [|exact H].
  destruct H as (Hp & Hw & _). by apply (step_assistant p w c None (manager st)).
Qed.

Lemma flush_failed (p w : bool) (e : string) (st : State) :
  FlushInv p w st -> FlushInv p w (fail_turn e st).
Proof.
  intros H. unfold fail_turn.
  apply (flush_same p w (with_manager (default (manager st)
           (add_assistant_message (Some (error_text e)) None (manager st))) st)); [done|].
  by apply flush_said.
Qed.

Lemma flush_user (p w : bool) (c : string) (st : State) :
  persisting (manager st) = p -> writable (manager st) = w ->
  FlushInv p w (user_says c st).
Proof. intros. apply flush_with. by apply step_user. Qed.

Lemma flush_tools (p w : bool) (agent : bool) (env : Env) (why : option string)
    (calls : list ToolCall) (st : State) :
  FlushInv p w st -> FlushInv p w (run_tool_calls agent env why calls st).
Proof.
  revert st. induction calls as [|tc calls IH]; intros st H; [exact H|].
  cbn [run_tool_calls]. apply IH.
  destruct (run_tool_call_frame agent env why tc st) as (src & exe & H1). cbv zeta in H1.
  rewrite H1. destruct H as (Hp & Hw & _). by apply step_tool_result.
Qed.

Lemma flush_compacted (p w : bool) (env : Env) (st : State) :
  FlushInv p w st -> FlushInv p w (force_compaction env st).
Proof.
  intros H. unfold force_compaction. case_match; [|exact H].
  match goal with
  | |- context [Compaction.execute ?e ?t ?K ?m ?wd] =>
      pose proof (execute_manager e t K m wd) as Hm;
      destruct (Compaction.execute e t K m wd) as [[r m'] wd']
  end.
  cbn [fst snd] in Hm. apply flush_with.
  destruct Hm as [-> | [new ->]]; [exact H|].
  destruct H as (Hp & Hw & _). by apply step_replaced.
Qed.

Lemma flush_tracked (p w : bool) (response : ModelReply) (st : State) :
  FlushInv p w st -> FlushInv p w (track_usage response st).
Proof. apply flush_same, manager_tracked. Qed.

Lemma chat_iteration_flush (p w : bool) (cfg : Config) (env : Env) (i : nat) (st : State) :
  FlushInv p w st -> FlushInv p w (chat_iteration cfg env i st).1.
Proof.
  intros H. unfold chat_iteration.
  destruct (has_chat_service cfg && cancel_requested env i).
  { cbn [fst]. by apply (flush_same p w st). }
  destruct (llm_chat env i _) as [response|]; [|by apply flush_failed].
  apply (flush_tracked p w response) in H.
  destruct (truthy_list _).
  - destruct (add_assistant_message _ _ _) as [m|] eqn:Hadd; [|by apply flush_failed].
    cbn [fst]. apply flush_tools, flush_with.
    destruct H as (Hp & Hw & _). by apply (step_assistant p w _ _ _ m Hp Hw Hadd).
  - cbn [fst]. by apply flush_said.
Qed.

Lemma agent_iteration_flush (p w : bool) (cfg : Config) (env : Env) (msg : string)
    (i : nat) (st : State) :
  FlushInv p w st -> FlushInv p w (agent_iteration cfg env msg i st).1.
Proof.
  intros H. unfold agent_iteration.
  destruct (has_chat_service cfg && cancel_requested env i).
  { cbn [fst]. destruct (bool_decide _); by apply (flush_same p w st). }
  destruct (llm_chat env i _) as [response|]; [|by apply flush_failed].
  apply (flush_tracked p w response) in H. set (st1 := track_usage response st) in *.
  pose proof H as (Hp & Hw & _).
  destruct (truthy_list _).
  - destruct (proposes "start_research" _).
    { destruct (bool_decide _); [|by apply flush_failed]. cbn [fst]. by apply flush_user. }
    destruct (proposes "stop_answer" _).
    { destruct (bool_decide ("stop_answer" ∈ _)); [|by apply flush_failed]. cbn [fst].
      destruct (bool_decide _); by apply flush_user. }
    destruct (add_assistant_message _ _ _) as [m|] eqn:Hadd; [|by apply flush_failed].
    cbn [fst]. apply flush_compacted.
    assert (FlushInv p w (run_tool_calls true env (keep_truthy (reasoning response))
                            (default [] (reply_tool_calls response)) (with_manager m st1)))
      as Ht by (apply flush_tools, flush_with; by apply (step_assistant p w _ _ _ m Hp Hw Hadd)).
    destruct (0 <? _)%N; [|exact Ht].
    destruct Ht as (Hp' & Hw' & _). by apply flush_user.
  - destruct (bool_decide (stage st1 = Hil)).
    + cbn [fst].
      apply (flush_same p w (with_manager (default (manager st1)
               (add_assistant_message
                  (Some (if truthy_str (if truthy_str (reply_content response)
                                        then reply_content response else reasoning response)
                         then default "" (if truthy_str (reply_content response)
                                          then reply_content response
                                          else reasoning response)
                         else more_information)) None (manager st1))) st1)); [done|].
      by apply flush_said.
    + cbn [fst]. apply flush_user.
      * destruct (_ || _); [|done]. cbn [with_manager manager].
        destruct (add_assistant_message _ None (manager st1)) as [m|] eqn:E; cbn [from_option id];
          [|done].
        by destruct (step_assistant p w _ _ _ m Hp Hw E).
      * destruct (_ || _); [|done]. cbn [with_manager manager].
        destruct (add_assistant_message _ None (manager st1)) as [m|] eqn:E; cbn [from_option id];
          [|done].
        by destruct (step_assistant p w _ _ _ m Hp Hw E) as (_ & ? & _).
Qed.

Lemma agent_finish_flush (p w : bool) (cfg : Config) (env : Env) (msg : string)
    (ready : bool) (st : State) :
  FlushInv p w st -> FlushInv p w (final (agent_finish cfg env msg ready st)).
Proof.
  intros H. unfold agent_finish. destruct ready.
  - destruct (llm_final env _) as [response|]; [|exact H].
    apply (flush_tracked p w response) in H. set (st1 := track_usage response st) in *.
    pose proof H as (Hp & Hw & _).
    destruct (add_assistant_message _ _ _) as [m|] eqn:Hadd; [|exact H].
    destruct (Artifact.extract _ _ _) as [art text]. cbn [final].
    apply (flush_same p w (with_manager m st1));
      [by destruct (bool_decide _) |].
    apply flush_with. by apply (step_assistant p w _ _ _ m Hp Hw Hadd).
  - destruct (Artifact.extract _ _ _) as [art text]. cbn [final].
    apply (flush_same p w (with_manager (default (manager st)
             (add_assistant_message (Some more_iterations) None (manager st))) st)); [done|].
    by apply flush_said.
Qed.

Lemma stream_flush (cfg : Config) (env : Env) (mode msg : string) (st : State) :
  FlushInv (persisting (manager st)) (writable (manager st))
           (final (route_stream cfg env mode msg st)).
Proof.
  set (p := persisting (manager st)). set (w := writable (manager st)).
  unfold route_stream. destruct (String.eqb mode "chat").
  - unfold chat_stream. set (st0 := user_says msg (begin_turn _)).
    assert (FlushInv p w st0) as H0
      by (apply flush_user; cbn [begin_turn manager]; by destruct (bool_decide _)).
    assert (forall i s, FlushInv p w s ->
              match chat_iteration cfg env i s with
              | (s', None) => FlushInv p w s'
              | (s', Some ex) => (fun s _ => FlushInv p w s) s' ex
              end) as Hstep.
    { intros i s Hs. pose proof (chat_iteration_flush p w cfg env i s Hs) as Hi.
      by destruct (chat_iteration cfg env i s) as [s' [ex|]]. }
    pose proof (chat_loop_rule cfg env (FlushInv p w) (fun s _ => FlushInv p w s)
                  Hstep (fun s Hs => Hs) (max_iterations cfg) 0 st0 H0) as R.
    destruct (chat_loop cfg env (max_iterations cfg) 0 st0) as [st' [fr|]];
      cbn [fst snd final] in *; [|exact R].
    by apply (flush_same p w st').
  - unfold agent_stream. set (st0 := user_says msg (begin_turn _)).
    assert (FlushInv p w st0) as H0 by (by apply flush_user).
    assert (forall i s, FlushInv p w s ->
              match agent_iteration cfg env msg i s with
              | (s', None) => FlushInv p w s'
              | (s', Some ex) => (fun s _ => FlushInv p w s) s' (Some ex)
              end) as Hstep.
    { intros i s Hs. pose proof (agent_iteration_flush p w cfg env msg i s Hs) as Hi.
      by destruct (agent_iteration cfg env msg i s) as [s' [ex|]]. }
    pose proof (agent_loop_rule cfg env msg (FlushInv p w) (fun s _ => FlushInv p w s)
                  Hstep (fun s Hs => Hs) (max_iterations cfg) 0 st0 H0) as R.
    destruct (agent_loop cfg env msg (max_iterations cfg) 0 st0) as [st' [[| |]|]];
      cbn [fst snd final] in *; try exact R; by apply agent_finish_flush.
Qed.

End LogFacts.

Module LogClaims.
Import PyStr Json MessageLog Loop Protocol LogFacts.

(** X9.  A Chat Mode turn that ends with [complete] has only appended to
    the Message Log, and what it appended keeps the function-calling
    discipline: the log after the turn is the log before it, then the user
    message, then messages in which every assistant message with proposals
    is directly followed by one tool message per proposal, carrying the
    proposals' ids in their order, and in which no other tool message
    occurs. *)
Theorem chat_turn_extends_log (cfg : Config) (env : Env) (msg : string) (st : State) :
  (exists r, last (events (final (chat_stream cfg env msg st))) = Some (Complete r)) ->
  exists added,
    get_messages (manager (final (chat_stream cfg env msg st)))
    = get_messages (manager st)
      ++ {| role := User; content := Some msg; tool_calls := None; tool_call_id := None |}
         :: added
    /\ answered [] added = true.
Proof.
  intros _. destruct (chat_stream_log cfg env msg st) as (added & Hm & Ha).
  exists added. unfold get_messages. rewrite Hm, <- app_assoc. done.
Qed.

(** One search, then the answer. *)
Lemma chat_turn_extends_log_witness :
  exists added,
    get_messages (manager (final (chat_stream (Scenario.cfg 3) Scenario.searching "hello"
                                    (Scenario.fresh Hil ∅))))
    = get_messages (manager (Scenario.fresh Hil ∅))
      ++ {| role := User; content := Some "hello"; tool_calls := None;
            tool_call_id := None |} :: added
    /\ answered [] added = true.
Proof.
  apply (chat_turn_extends_log (Scenario.cfg 3) Scenario.searching "hello"
           (Scenario.fresh Hil ∅)).
  eexists. vm_compute. reflexivity.
Defined.

(** X10.  After a turn of either mode, however it ends, [messages.json]
    holds the in-memory log, provided the manager persists and the
    directory accepts writes. *)
Theorem turn_leaves_file_in_step (cfg : Config) (env : Env) (mode msg : string)
    (st : State) :
  persisting (manager st) = true -> writable (manager st) = true ->
  flushed (manager (final (route_stream cfg env mode msg st))).
Proof.
  intros Hp Hw. destruct (stream_flush cfg env mode msg st) as (_ & _ & H).
  apply H. by rewrite Hp, Hw.
Qed.

Lemma turn_leaves_file_in_step_witness :
  flushed (manager (final (route_stream (Scenario.cfg 3) Scenario.searching "chat" "hello"
                             (with_manager Scenario.synced (Scenario.fresh Hil ∅))))).
Proof.
  apply (turn_leaves_file_in_step (Scenario.cfg 3) Scenario.searching "chat" "hello"
           (with_manager Scenario.synced (Scenario.fresh Hil ∅))); reflexivity.
Defined.

End LogClaims.
(** ** Search results as ThinkingSteps *)

Module SearchStepClaims.
Import PyStr PyStrFacts Json MessageLog Loop LoopFacts Protocol.





End SearchStepClaims.
(** ** Further properties of context compaction *)

Module CompactionExtras.
Import PyStr Json MessageLog Compaction CompactionFacts FileFacts Protocol.

(** Where the compaction agent may look: below the workspace directory of
    its [file_read] tool. *)
Lemma tool_call_reads_inside (env : Env) (t : Tool) (tc : ToolCall)
    (w w' : FileTools.World) (m : Message) :
  run_tool_call env t tc w = Some (m, w') ->
  FileTools.fs w' = FileTools.fs w
  /\ exists new,
       FileTools.trace w' = FileTools.trace w ++ new
       /\ Forall (reads_inside t) new.
Proof.
  unfold run_tool_call.
  destruct (json_loads env (tc_arguments tc)) as [args|]; [|done].
  destruct (String.eqb (tc_name tc) "file_read").
  - destruct (FileTools.workspace_dir (file_tool t)) as [ws|] eqn:Hws; [|done].
    destruct (get "filename" args) as [[| | |filename| |]|]; try done.
    all: try (intros [= _ <-]; split; [done|]; exists []; by rewrite app_nil_r).
    destruct (file_read_contained (file_tool t) ws filename w Hws) as (Hfs & new & Htr & Hall).
    destruct (FileTools.file_read (file_tool t) filename w) as [res w1].
    intros [= _ <-]. cbn [snd] in *. split; [done|]. exists new. split; [done|].
    eapply Forall_impl; [exact Hall|]. intros a Ha.
    apply components_prefix_spec in Ha as [rest Hr]. by exists ws, rest.
  - intros [= _ <-]. split; [done|]. exists []. by rewrite app_nil_r.
Qed.

Lemma tool_calls_read_inside (env : Env) (t : Tool) (tcs : list ToolCall)
    (acc msgs : list Message) (w w' : FileTools.World) :
  run_tool_calls env t tcs acc w = Some (msgs, w') ->
  FileTools.fs w' = FileTools.fs w
  /\ exists new,
       FileTools.trace w' = FileTools.trace w ++ new
       /\ Forall (reads_inside t) new.
Proof.
  revert acc w. induction tcs as [|tc tcs IH]; intros acc w; cbn [run_tool_calls].
  - intros [= _ <-]. split; [done|]. exists []. by rewrite app_nil_r.
  - destruct (run_tool_call env t tc w) as [[m w1]|] eqn:E; [|done].
    intros H. destruct (tool_call_reads_inside _ _ _ _ _ _ E) as (Hfs1 & new1 & Htr1 & Hall1).
    destruct (IH _ _ H) as (Hfs & new & Htr & Hall).
    split; [congruence|]. exists (new1 ++ new).
    rewrite Htr, Htr1, app_assoc. split; [done|]. by apply Forall_app.
Qed.

Lemma agent_reads_inside (env : Env) (t : Tool) (n : nat) (msgs : list Message)
    (w : FileTools.World) :
  FileTools.fs (compaction_agent env t n msgs w).2 = FileTools.fs w
  /\ exists new,
       FileTools.trace (compaction_agent env t n msgs w).2 = FileTools.trace w ++ new
       /\ Forall (reads_inside t) new.
Proof.
  revert msgs w. induction n as [|n IH]; intros msgs w; cbn [compaction_agent].
  - split; [done|]. exists []. by rewrite app_nil_r.
  - destruct (chat env msgs) as [reply|];
      [|split; [done|]; exists []; by rewrite app_nil_r].
    destruct (negb (truthy_list (r_tool_calls reply)));
      [split; [done|]; exists []; by rewrite app_nil_r|].
    destruct (run_tool_calls env t _ _ w) as [[msgs' w1]|] eqn:E;
      [|split; [done|]; exists []; by rewrite app_nil_r].
    destruct (tool_calls_read_inside _ _ _ _ _ _ _ E) as (Hfs1 & new1 & Htr1 & Hall1).
    destruct (IH msgs' w1) as (Hfs & new & Htr & Hall).
    split; [congruence|]. exists (new1 ++ new).
    rewrite Htr, Htr1, app_assoc. split; [done|]. by apply Forall_app.
Qed.

(** X12.  Compaction is all or nothing for the Message Log: unless the
    call returns the result of a completed compaction, the manager (the
    in-memory list and the file) is exactly as it was, whether the tool was
    not ready, the log was too short, the summarising model failed, timed
    out or returned nothing. *)
Theorem failed_compaction_keeps_log (env : Env) (t : Tool) (K : Z) (m : Manager)
    (w : FileTools.World) :
  match (execute env t K m w).1.1 with
  | Compacted _ _ _ _ => True
  | _ => (execute env t K m w).1.2 = m
  end.
Proof.
  unfold execute.
  repeat case_match; cbn [fst snd] in *; try done; simplify_eq.
Qed.

(** X13.  Compaction never writes to the workspace and never looks outside
    it: the file system after the call is the one before, and every path
    touched on behalf of the summarising model lies below the resolved
    workspace directory of the tool. *)
Theorem compaction_only_reads_workspace (env : Env) (t : Tool) (K : Z) (m : Manager)
    (w : FileTools.World) :
  FileTools.fs (execute env t K m w).2 = FileTools.fs w
  /\ exists new,
       FileTools.trace (execute env t K m w).2 = FileTools.trace w ++ new
       /\ Forall (reads_inside t) new.
Proof.
  assert (FileTools.fs w = FileTools.fs w
          /\ exists new, FileTools.trace w = FileTools.trace w ++ new
                         /\ Forall (reads_inside t) new) as Hsame
    by (split; [done|]; exists []; by rewrite app_nil_r).
  unfold execute.
  destruct (negb (has_message_manager t)); [exact Hsame|].
  destruct (negb (has_llm_provider t)); [exact Hsame|].
  destruct (length (get_messages m) <=? 3)%nat; [exact Hsame|].
  destruct (Z.of_nat _ <? K)%Z; [exact Hsame|].
  destruct (old_messages K (get_messages m)) as [|x old]; [exact Hsame|].
  match goal with
  | |- context [compaction_agent ?e ?tt ?n ?ms ?ww] =>
      pose proof (agent_reads_inside e tt n ms ww) as Hagent;
      destruct (compaction_agent e tt n ms ww) as [out w1]
  end.
  cbn [snd] in Hagent.
  destruct out as [summary| |]; cbn [snd]; [|exact Hagent..].
  destruct (negb (truthy_str summary)); [exact Hagent|].
  by destruct (chat env _).
Qed.



End CompactionExtras.
(** ** Further properties of the Message Log *)

Module MessageLogExtras.
Import PyStr MessageLog Frontend LogFacts.

Lemma run_appends (op : mutator) (m m' : Manager) :
  (forall k, op <> Clear k) ->
  run op m = Some m' ->
  exists msg, messages m' = messages m ++ [msg] /\ showable msg.
Proof.
  intros Hop. destruct op as [c|c|c tcs|i c|k]; cbn [run].
  - intros [= <-]. eexists. unfold add_system_message. rewrite messages_save.
    split; [done|]. left. by eexists.
  - intros [= <-]. eexists. rewrite messages_add_user. split; [done|]. left. by eexists.
  - unfold add_assistant_message.
    destruct (truthy_str c) eqn:Hc, (truthy_list tcs) eqn:Ht; cbn [negb andb]; try done.
    + destruct (forallb _ _); [|done]. intros [= <-]. eexists. rewrite messages_save.
      split; [done|]. left. destruct c; [by eexists | done].
    + intros [= <-]. eexists. rewrite messages_save.
      split; [done|]. left. destruct c; [by eexists | done].
    + destruct (forallb _ _); [|done]. intros [= <-]. eexists. rewrite messages_save.
      split; [done|]. right. destruct tcs; [by eexists | done].
  - intros [= <-]. eexists. rewrite messages_add_tool_result. split; [done|].
    left. by eexists.
  - by destruct (Hop k).
Qed.

(** X15.  Round trip through [messages.json]: after any appending method
    of a persisting manager whose write succeeds, a manager created anew
    over the same directory holds exactly the same list of messages, and
    the system prompt it is given is not added a second time. *)
Theorem reload_restores_log (op : mutator) (m m' : Manager) (system_prompt : string)
    (can_write : bool) :
  (forall k, op <> Clear k) ->
  persisting m = true -> writable m = true ->
  run op m = Some m' ->
  messages (init system_prompt true (messages_file m') can_write) = messages m'.
Proof.
  intros Hop Hp Hw Hrun.
  pose proof (MessageLogClaims.appends_flush op m m' Hop Hp Hw Hrun) as Hf.
  destruct (run_appends op m m' Hop Hrun) as (msg & Hm & _).
  unfold flushed in Hf. unfold init, _load. rewrite Hf. cbn [messages messages_file].
  rewrite bool_decide_eq_false_2, andb_false_r; [done|].
  rewrite Hm. by destruct (messages m).
Qed.

Lemma reload_restores_log_witness :
  messages (init "another prompt" true
              (messages_file (add_user_message "again" Scenario.synced)) true)
  = messages (add_user_message "again" Scenario.synced).
Proof.
  apply (reload_restores_log (AppendUser "again") Scenario.synced
           (add_user_message "again" Scenario.synced) "another prompt" true).
  - intros k H. discriminate H.
  - reflexivity.
  - reflexivity.
  - reflexivity.
Defined.

Lemma frontend_app (l1 l2 : list Message) (d1 d2 : list MessageDisplay) :
  frontend_messages l1 = Some d1 -> frontend_messages l2 = Some d2 ->
  frontend_messages (l1 ++ l2) = Some (d1 ++ d2).
Proof.
  revert d1. induction l1 as [|msg l1 IH]; intros d1; cbn [frontend_messages app].
  - by intros [= <-].
  - destruct (is_role System msg); [apply IH|].
    destruct (display msg) as [d|]; [|done].
    destruct (frontend_messages l1) as [ds|]; [|done].
    intros [= <-] H2. by rewrite (IH ds eq_refl H2).
Qed.

Lemma showable_display (msg : Message) : showable msg -> is_Some (display msg).
Proof.
  unfold showable, display. intros [[c Hc] | [tcs Ht]].
  - rewrite Hc. destruct (tool_calls msg); [|by eexists].
    destruct (truthy_str (Some c)); by eexists.
  - rewrite Ht. destruct (truthy_str (content msg)) eqn:E; [|by eexists].
    destruct (content msg); [by eexists | done].
Qed.

(** What the frontend list is for a log of showable messages. *)
Lemma frontend_showable (l : list Message) :
  Forall showable l ->
  exists ds,
    frontend_messages l = Some ds
    /\ map d_role ds = List.filter (fun r => negb (bool_decide (r = System))) (map role l).
Proof.
  induction 1 as [|msg l Hmsg _ (ds & Hds & Hr)]; [by exists []|].
  cbn [frontend_messages map List.filter]. unfold is_role.
  destruct (bool_decide (role msg = System)) eqn:E; cbn [negb]; [by exists ds|].
  destruct (showable_display msg Hmsg) as [d Hd]. rewrite Hd, Hds.
  exists (d :: ds). split; [done|]. cbn [map]. rewrite Hr. f_equal.
  unfold display in Hd. repeat case_match; by simplify_eq.
Qed.

Lemma showable_built (system_prompt : string) (persist can_write : bool)
    (ops : list mutator) :
  Forall showable (messages (apply_all ops (init system_prompt persist None can_write))).
Proof.
  unfold apply_all.
  assert (Forall showable (messages (init system_prompt persist None can_write))) as H0.
  { unfold init. destruct persist; cbn [_load messages_file messages];
      destruct (negb (is_empty system_prompt)); cbn [andb]; try (by constructor).
    all: rewrite bool_decide_eq_true_2 by done.
    all: unfold add_system_message; rewrite messages_save; cbn [append messages app].
    all: constructor; [left; by eexists | by constructor]. }
  revert H0. generalize (init system_prompt persist None can_write) as m.
  induction ops as [|op ops IH]; intros m Hm; [exact Hm|].
  cbn [foldl]. apply IH.
  destruct (run op m) as [m'|] eqn:E; cbn [from_option id]; [|exact Hm].
  destruct op as [c|c|c tcs|i c|k].
  5: { cbn [run] in E. injection E as <-. cbn [clear messages].
       destruct k; [|by constructor]. revert Hm. generalize (messages m) as l.
       induction l as [|x l IHl]; [done|]. intros [Hx Hl]%Forall_cons.
       cbn [List.filter]. destruct (is_role System x); [constructor|]; auto. }
  all: match type of E with
       | run ?op _ = _ =>
           assert (forall k, op <> Clear k) as Hop by (intros ? ?; discriminate);
           destruct (run_appends op m m' Hop E) as (msg & -> & Hs)
       end;
    apply Forall_app; split; [exact Hm | by constructor].
Qed.

(** X16.  For a manager that started without a file and was used through
    its mutating methods only, in any order and number,
    [get_messages_for_frontend] does not fail; it returns one entry for
    each message that is not a system message, in the order of the log and
    with the message's role, so as many as [get_conversation_length]
    counts, and none of them is a system entry. *)
Theorem frontend_shows_the_conversation (system_prompt : string) (persist can_write : bool)
    (ops : list mutator) :
  let m := apply_all ops (init system_prompt persist None can_write) in
  exists ds,
    get_messages_for_frontend m = Some ds
    /\ map d_role ds
       = List.filter (fun r => negb (bool_decide (r = System))) (map role (messages m))
    /\ length ds = get_conversation_length m
    /\ Forall (fun d => d_role d <> System) ds.
Proof.
  intros m.
  destruct (frontend_showable (messages m) (showable_built system_prompt persist can_write ops))
    as (ds & Hds & Hr).
  exists ds. split; [exact Hds|]. split; [exact Hr|]. split.
  - rewrite <- (length_map d_role), Hr. unfold get_conversation_length, is_role.
    generalize (messages m) as l. induction l as [|x l IH]; [done|].
    cbn [map List.filter]. destruct (bool_decide (role x = System)); cbn [negb length];
      by rewrite IH.
  - assert (Forall (fun r => negb (bool_decide (r = System)) = true) (map d_role ds)) as Hall.
    { rewrite Hr. generalize (map role (messages m)) as l.
      induction l as [|x l IH]; [by constructor|]. cbn [List.filter].
      destruct (negb (bool_decide (x = System))) eqn:E; [by constructor | exact IH]. }
    apply List.Forall_map in Hall. eapply Forall_impl; [exact Hall|].
    intros d Hd Hsys. cbn beta in Hd. by rewrite Hsys in Hd.
Qed.

End MessageLogExtras.
(** ** The search tool: file names for the cache *)

Module SanitizeFacts.
Import PyStr PyStrFacts WebSearch.

Lemma squeeze_keeps (p : ascii -> bool) (P : ascii -> Prop) (b : bool) (l : list ascii) :
  P underscore ->
  Forall (fun c => p c = false -> P c) l ->
  Forall P (squeeze p b l).
Proof.
  intros Hu. revert b. induction l as [|c l IH]; intros b Hl; cbn [squeeze]; [done|].
  apply Forall_cons in Hl as [Hc Hl].
  destruct (p c) eqn:E.
  - destruct b; [by apply IH|]. constructor; [exact Hu | by apply IH].
  - constructor; [by apply Hc | by apply IH].
Qed.

Lemma lstrip_with_suffix (p : ascii -> bool) (l : list ascii) :
  exists pre, l = pre ++ lstrip_with p l.
Proof.
  induction l as [|c l [pre IH]]; [by exists []|]. cbn [lstrip_with].
  destruct (p c); [|by exists []]. exists (c :: pre). cbn [app]. by f_equal.
Qed.

Lemma lstrip_with_head (p : ascii -> bool) (l : list ascii) (c : ascii) :
  head (lstrip_with p l) = Some c -> p c = false.
Proof.
  induction l as [|x l IH]; [done|]. cbn [lstrip_with].
  destruct (p x) eqn:E; [exact IH|]. cbn [head]. by intros [= <-].
Qed.

(** What [strip('_')] returns is a segment of its argument that neither
    begins nor ends with an underscore. *)
Lemma strip_underscores_spec (l : list ascii) :
  (exists pre suf, l = pre ++ strip_underscores l ++ suf)
  /\ head (strip_underscores l) <> Some underscore
  /\ last (strip_underscores l) <> Some underscore.
Proof.
  unfold strip_underscores.
  destruct (lstrip_with_suffix (Ascii.eqb underscore) l) as [pre Hpre].
  set (l1 := lstrip_with (Ascii.eqb underscore) l) in *.
  destruct (lstrip_with_suffix (Ascii.eqb underscore) (reverse l1)) as [suf Hsuf].
  set (l2 := lstrip_with (Ascii.eqb underscore) (reverse l1)) in *.
  assert (l1 = reverse l2 ++ reverse suf) as Hl1.
  { rewrite <- reverse_app, <- Hsuf. by rewrite reverse_involutive. }
  split; [|split].
  - exists pre, (reverse suf). by rewrite Hpre at 1; rewrite Hl1.
  - intros H. destruct (reverse l2) as [|c r] eqn:E; [done|]. cbn [head] in H.
    injection H as ->.
    assert (head l1 = Some underscore) as H1 by (by rewrite Hl1).
    apply lstrip_with_head in H1. by rewrite Ascii.eqb_refl in H1.
  - rewrite last_reverse. intros H. apply lstrip_with_head in H.
    by rewrite Ascii.eqb_refl in H.
Qed.

Lemma segment_Forall {A} (P : A -> Prop) (l pre mid suf : list A) :
  l = pre ++ mid ++ suf -> Forall P l -> Forall P mid.
Proof. intros ->. rewrite !Forall_app. tauto. Qed.

Lemma segment_length {A} (l pre mid suf : list A) :
  l = pre ++ mid ++ suf -> length mid <= length l.
Proof. intros ->. rewrite !length_app. lia. Qed.

Lemma untitled_plain : Forall (fun c => plain c = true) (chars "untitled").
Proof. repeat constructor. Qed.

(** The list that [_sanitize_filename] turns into the name. *)
Lemma sanitized_chars (title : string) (max_length : nat) :
  let kept :=
    List.filter (fun c => is_word c || is_space c || Ascii.eqb c hyphen) (chars title) in
  let s := strip_underscores
             (take max_length
                (squeeze (Ascii.eqb underscore) false (squeeze is_space false kept))) in
  Forall (fun c => plain c = true) s
  /\ length s <= max_length
  /\ head s <> Some underscore /\ last s <> Some underscore.
Proof.
  intros kept s.
  destruct (strip_underscores_spec
              (take max_length
                 (squeeze (Ascii.eqb underscore) false (squeeze is_space false kept))))
    as ((pre & suf & Hseg) & Hh & Hl).
  fold s in Hseg, Hh, Hl. split; [|split; [|done]].
  - eapply segment_Forall; [exact Hseg|]. apply Forall_take.
    apply squeeze_keeps; [done|]. eapply Forall_impl.
    + apply (squeeze_keeps is_space (fun c => plain c = true)); [done|].
      subst kept. apply Forall_forall. intros c Hc Hns.
      apply list_elem_of_In, List.filter_In in Hc as [_ Hc].
      unfold plain. rewrite Hns, orb_false_r in Hc. exact Hc.
    + intros c Hc _. exact Hc.
  - etransitivity; [eapply segment_length; exact Hseg|]. rewrite length_take. lia.
Qed.

End SanitizeFacts.

Module SanitizeClaims.
Import PyStr PyStrFacts WebSearch SanitizeFacts.

(** X17.  The file name that [_sanitize_filename] makes from a title of
    ASCII characters is never empty, consists of letters, digits,
    underscores and hyphens only (so it holds no path separator, no dot and
    no white space), neither begins nor ends with an underscore, and is at
    most [max_length] characters long ("untitled", of 8 characters, when
    nothing else is left). *)
Theorem sanitized_name_is_plain (title : string) (max_length : nat) :
  Forall (fun c => is_ascii c = true) (chars title) ->
  let s := _sanitize_filename title max_length in
  s <> ""
  /\ Forall (fun c => plain c = true) (chars s)
  /\ String.length s <= Nat.max max_length 8
  /\ head (chars s) <> Some underscore
  /\ last (chars s) <> Some underscore.
Proof.
  intros _ s. subst s. unfold _sanitize_filename.
  destruct (is_empty title).
  { split; [done|]. split; [exact untitled_plain|]. cbn. split; [lia|]. by split. }
  destruct (sanitized_chars title max_length) as (Hall & Hlen & Hh & Hl). cbv zeta in *.
  destruct (strip_underscores _) as [|c l] eqn:E.
  { split; [done|]. split; [exact untitled_plain|]. cbn. split; [lia|]. by split. }
  rewrite chars_text, <- chars_length, chars_text.
  split; [done|]. split; [exact Hall|]. split; [lia|]. by split.
Qed.


Lemma sanitized_name_is_plain_witness :
  _sanitize_filename "  PostgreSQL 17: What's New?  " 100 <> ""
  /\ Forall (fun c => plain c = true)
       (chars (_sanitize_filename "  PostgreSQL 17: What's New?  " 100))
  /\ String.length (_sanitize_filename "  PostgreSQL 17: What's New?  " 100) <= Nat.max 100 8
  /\ head (chars (_sanitize_filename "  PostgreSQL 17: What's New?  " 100))
     <> Some underscore
  /\ last (chars (_sanitize_filename "  PostgreSQL 17: What's New?  " 100))
     <> Some underscore.
Proof.
  apply (sanitized_name_is_plain "  PostgreSQL 17: What's New?  " 100).
  vm_compute. repeat constructor.
Defined.

(** The name made from that title. *)
Example sanitized_example :
  _sanitize_filename "  PostgreSQL 17: What's New?  " 100 = "PostgreSQL_17_Whats_New".
Proof. reflexivity. Qed.

End SanitizeClaims.
(** ** The search tool: results and their cache *)

Module WebSearchFacts.
Import PyStr PyStrFacts Paths FileTools FileFacts FileExtras WebSearch SanitizeFacts.

(** The search for a free name changes no file; the path it returns does
    not exist and is one of the candidates. *)
Lemma free_path_spec (rounds : nat) (cache_dir : list string) (safe : string)
    (counter : nat) (w : World) :
  fs (free_path rounds cache_dir safe counter w).2 = fs w
  /\ forall p, (free_path rounds cache_dir safe counter w).1 = Some p ->
       fs w !! p = None /\ exists k, p = cache_dir ++ [candidate safe k].
Proof.
  revert counter w. induction rounds as [|rounds IH]; intros counter w; cbn [free_path].
  - unfold exists_, touch. destruct (fs w !! _) as [n|] eqn:E.
    + rewrite bool_decide_eq_true_2 by eauto. by split.
    + rewrite bool_decide_eq_false_2 by (by intros [? ?]). cbn [fst snd fs].
      split; [done|]. intros p [= <-]. split; [done|]. by exists counter.
  - unfold exists_, touch. destruct (fs w !! _) as [n|] eqn:E.
    + rewrite bool_decide_eq_true_2 by eauto.
      destruct (IH (S counter) {| fs := fs w; trace := trace w ++ [Stat (cache_dir ++ [candidate safe counter])] |})
        as [Hfs Hp].
      cbn [fs] in *. by split.
    + rewrite bool_decide_eq_false_2 by (by intros [? ?]). cbn [fst snd fs].
      split; [done|]. intros p [= <-]. split; [done|]. by exists counter.
Qed.

Lemma mkdir_parents_keeps_files (p : list string) (w : World) (q : list string) (c : string) :
  fs w !! q = Some (File c) -> fs (mkdir_parents p w).2 !! q = Some (File c).
Proof.
  intros Hq. unfold mkdir_parents, touch. cbn [fs trace].
  destruct (mkdir_chain [] p (fs w)) as [m|] eqn:Hm; cbn [snd fs]; [|done].
  by apply (mkdir_chain_keeps_files _ _ _ _ _ _ Hm).
Qed.

(** What the caching of one result does to the files: nothing, or one new
    file with the document of the result at a path that did not exist. *)
Lemma cache_result_spec (t : Tool) (r : VendorHit) (w : World) :
  (forall q c, fs w !! q = Some (File c) -> fs (cache_result t r w).2 !! q = Some (File c))
  /\ forall cp, (cache_result t r w).1 = Some cp ->
       exists ws k,
         workspace_dir t = Some ws
         /\ cp = "cache/" +:+ candidate (_sanitize_filename (v_title r) 100) k
         /\ fs (cache_result t r w).2
              !! (resolve (cwd t) ws
                  ++ ["cache"; candidate (_sanitize_filename (v_title r) 100) k])
            = Some (File (file_content r))
         /\ fs w !! (resolve (cwd t) ws
                     ++ ["cache"; candidate (_sanitize_filename (v_title r) 100) k])
            = None.
Proof.
  unfold cache_result.
  destruct (workspace_dir t) as [ws|]; [|by split].
  destruct (is_empty (v_content r)); [by split|].
  set (cache_dir := resolve (cwd t) ws ++ ["cache"]).
  set (safe := _sanitize_filename (v_title r) 100).
  pose proof (mkdir_parents_keeps_files cache_dir w) as Hkeep.
  assert (forall q, fs (mkdir_parents cache_dir w).2 !! q = None -> fs w !! q = None) as Hnone.
  { intros q. unfold mkdir_parents, touch. cbn [fs trace].
    destruct (mkdir_chain [] cache_dir (fs w)) as [m|] eqn:Hm; cbn [snd fs]; [|done].
    revert Hm. generalize (@nil string) as done_. generalize (fs w) as m0.
    clear. induction cache_dir as [|x todo IH]; intros m0 done_; cbn [mkdir_chain].
    - destruct (m0 !! done_) as [[?|]|] eqn:E; [done| |]; intros [= <-] Hq.
      all: destruct (decide (done_ = q)) as [->|Hne];
        [by rewrite lookup_insert_eq in Hq | by rewrite lookup_insert_ne in Hq].
    - destruct (m0 !! done_) as [[?|]|] eqn:E; [done| |]; intros Hm Hq.
      all: specialize (IH _ _ Hm Hq);
        destruct (decide (done_ = q)) as [->|Hne];
        [by rewrite lookup_insert_eq in IH | by rewrite lookup_insert_ne in IH]. }
  destruct (mkdir_parents cache_dir w) as [[u|] w1]; cbn [snd] in *; [|by split].
  destruct (free_path_spec (size (fs w1)) cache_dir safe 0 w1) as [Hfs Hfree].
  destruct (free_path (size (fs w1)) cache_dir safe 0 w1) as [[p|] w2]; cbn [fst snd] in *;
    [|split; [intros q c Hq; rewrite Hfs; by apply Hkeep | done]].
  destruct (Hfree p eq_refl) as (Hp & k & Hk).
  unfold write_text, touch. cbn [fs trace]. rewrite Hfs, Hp.
  destruct (fs w1 !! parent p) as [[?|]|]; cbn [fst snd fs].
  1,3: split; [intros q c Hq; by apply Hkeep | done].
  split.
  - intros q c Hq. rewrite lookup_insert_ne; [by apply Hkeep|].
    intros ->. specialize (Hkeep _ _ Hq). congruence.
  - intros cp [= <-]. exists ws, k. split; [done|].
    subst p cache_dir. rewrite <- app_assoc in *. cbn [app] in *.
    rewrite last_app. cbn [last from_option id]. split; [done|].
    split; [apply lookup_insert_eq | by apply Hnone].
Qed.

Lemma normalize_keeps_files (t : Tool) (results : list VendorHit) (w : World)
    (q : list string) (c : string) :
  fs w !! q = Some (File c) -> fs (normalize t results w).2 !! q = Some (File c).
Proof.
  revert w. induction results as [|r results IH]; intros w Hq; cbn [normalize]; [done|].
  destruct (cache_result_spec t r w) as [Hkeep _].
  destruct (cache_result t r w) as [cp w1]. cbn [snd] in Hkeep.
  specialize (IH w1 (Hkeep _ _ Hq)).
  by destruct (normalize t results w1) as [hits w2].
Qed.

(** *** The search for a free name ends *)







(** *** Cache paths as [file_read] takes them *)







End WebSearchFacts.

Module WebSearchClaims.
Import PyStr PyStrFacts Paths FileTools FileFacts FileExtras WebSearch WebSearchFacts.

(** X18.  Caching search results never overwrites or changes a file: every
    file that exists before [web_search] runs has the same content
    afterwards, whatever the vendor returns (the counter loop looks for a
    name that is not taken). *)
Theorem search_cache_never_overwrites (t : Tool) (search : Provider) (query : string)
    (num_results : Z) (search_type : string) (category : option string) (w : World)
    (q : list string) (c : string) :
  fs w !! q = Some (File c) ->
  fs (execute t search query num_results search_type category w).2 !! q = Some (File c).
Proof.
  intros Hq. unfold execute.
  destruct (search query (clamp num_results) search_type category) as [response|e]; [|done].
  pose proof (normalize_keeps_files t (vr_results response) w q c Hq) as H.
  by destruct (normalize t (vr_results response) w) as [hits w'].
Qed.

Lemma search_cache_never_overwrites_witness :
  fs (execute Scenario.editor Cases.vendor "postgres release" 5 "auto" None Scenario.disk).2
    !! (Scenario.workspace ++ ["notes.md"])
  = Some (File "alpha beta alpha").
Proof.
  apply (search_cache_never_overwrites Scenario.editor Cases.vendor "postgres release" 5
           "auto" None Scenario.disk (Scenario.workspace ++ ["notes.md"]) "alpha beta alpha").
  vm_compute. reflexivity.
Defined.



(** The two cache files of that search. *)
Example cache_paths_of_twin_results :
  map Sources.h_cache_path
    (Sources.results
       (execute Scenario.editor Cases.vendor "postgres release" 5 "auto" None
          Scenario.disk).1)
  = [Some "cache/PostgreSQL_17_Whats_New.md"; Some "cache/PostgreSQL_17_Whats_New_1.md"].
Proof. vm_compute. reflexivity. Qed.



End WebSearchClaims.
(** ** Listing the workspace *)

Module FileListFacts.
Import PyStr PyStrFacts Paths FileTools FileFacts FileExtras FileList.

#[local] Instance name_le_total : Total name_le.
Proof. intros a b. apply String.leb_total. Qed.


Lemma found_spec (m : gmap (list string) node) (base p : list string) (n : node)
    (e : entry) :
  found m base (p, n) = Some e
  <-> exists rest content,
        rest <> [] /\ p = base ++ rest /\ n = File content
        /\ walkable m base rest = true
        /\ e = {| name := String.concat "/" rest; size := String.length content |}.
Proof.
  unfold found, relative_to. cbn [fst snd]. split.
  - destruct n as [content|]; [|done].
    destruct (components_prefix base p) eqn:Hpre; [|done].
    apply components_prefix_spec in Hpre as [rest ->].
    rewrite drop_app_length. destruct rest as [|c rest]; [done|].
    destruct (walkable m base (c :: rest)) eqn:Hw; [|done].
    intros [= <-]. by exists (c :: rest), content.
  - intros (rest & content & Hne & -> & -> & Hw & ->).
    rewrite components_prefix_app, drop_app_length.
    destruct rest as [|c rest]; [done|]. by rewrite Hw.
Qed.

Lemma listed_sorted (l : list entry) : Sorted name_le (merge_sort name_le l).
Proof. apply (Sorted_merge_sort name_le). Qed.

(** The files of the listing before they are counted. *)
Lemma listed_spec (m : gmap (list string) node) (base : list string) (e : entry) :
  e ∈ merge_sort name_le (omap (found m base) (map_to_list m))
  <-> exists rest content,
        rest <> [] /\ m !! (base ++ rest) = Some (File content)
        /\ walkable m base rest = true
        /\ e = {| name := String.concat "/" rest; size := String.length content |}.
Proof.
  rewrite merge_sort_Permutation, list_elem_of_omap. split.
  - intros ([p n] & Hin & Hf). apply elem_of_map_to_list in Hin.
    apply found_spec in Hf as (rest & content & Hne & -> & -> & Hw & ->).
    by exists rest, content.
  - intros (rest & content & Hne & Hm & Hw & ->).
    exists (base ++ rest, File content). split; [by apply elem_of_map_to_list|].
    apply found_spec. by exists rest, content.
Qed.

Lemma mkdir_chain_keeps_dirs (done todo : list string)
    (m m' : gmap (list string) node) (q : list string) :
  mkdir_chain done todo m = Some m' ->
  m !! q = Some Dir -> m' !! q = Some Dir.
Proof.
  revert done m. induction todo as [|x todo IH]; intros done m; cbn [mkdir_chain].
  - destruct (m !! done) as [[?|]|] eqn:E; [done| |]; intros [= <-] Hq.
    all: destruct (decide (done = q)) as [->|Hne];
      [apply lookup_insert_eq | by rewrite lookup_insert_ne].
  - destruct (m !! done) as [[?|]|] eqn:E; [done| |]; intros Hm Hq.
    all: apply (IH _ _ Hm); destruct (decide (done = q)) as [->|Hne];
      [apply lookup_insert_eq | by rewrite lookup_insert_ne].
Qed.



End FileListFacts.

Module FileListClaims.
Import PyStr PyStrFacts Paths FileTools FileFacts FileExtras FileList FileListFacts.

(** X21.  [file_list] reports exactly the regular files that lie below the
    workspace directory, at any depth: each with its path relative to the
    workspace as name and the length of its content as size, in ascending
    order of the names, and [count] is their number.  The answer is
    "Workspace is empty" exactly when there is no such file (also when the
    workspace does not exist or is no directory). *)
Theorem file_list_is_exact (t : Tool) (ws : Path) (w : World) :
  workspace_dir t = Some ws ->
  exists files,
    match execute t w with
    | Empty => files = []
    | Found l n wsn _ => l = files /\ files <> [] /\ n = length files /\ wsn = str ws
    | ListError _ => False
    end
    /\ Sorted name_le files
    /\ forall e,
         e ∈ files
         <-> exists rest content,
               rest <> []
               /\ fs w !! (resolve (cwd t) ws ++ rest) = Some (File content)
               /\ walkable (fs w) (resolve (cwd t) ws) rest = true
               /\ e = {| name := String.concat "/" rest; size := String.length content |}.
Proof.
  intros Hws. unfold execute. rewrite Hws. cbv zeta.
  set (base := resolve (cwd t) ws).
  destruct (bool_decide (is_Some (fs w !! base))) eqn:Hex; cbn [negb].
  - exists (merge_sort name_le (omap (found (fs w) base) (map_to_list (fs w)))).
    split; [|split; [apply listed_sorted | apply listed_spec]].
    by destruct (merge_sort _ _).
  - exists []. split; [done|]. split; [constructor|].
    intros e. split; [by intros ?%elem_of_nil|].
    intros ([|c rest] & content & Hne & _ & Hw & _); [done|].
    cbn [walkable] in Hw. apply bool_decide_eq_false in Hex.
    destruct (fs w !! base) as [[?|]|]; try done. exfalso. apply Hex. by eexists.
Qed.

Lemma file_list_is_exact_witness :
  exists files,
    match execute Scenario.editor Scenario.disk with
    | Empty => files = []
    | Found l n wsn _ =>
        l = files /\ files <> [] /\ n = length files
        /\ wsn = str (parse "/data/chats/s1/workspace_agent")
    | ListError _ => False
    end
    /\ Sorted name_le files
    /\ forall e,
         e ∈ files
         <-> exists rest content,
               rest <> []
               /\ fs Scenario.disk
                    !! (resolve (cwd Scenario.editor) (parse "/data/chats/s1/workspace_agent")
                        ++ rest)
                  = Some (File content)
               /\ walkable (fs Scenario.disk)
                    (resolve (cwd Scenario.editor) (parse "/data/chats/s1/workspace_agent"))
                    rest = true
               /\ e = {| name := String.concat "/" rest; size := String.length content |}.
Proof.
  apply (file_list_is_exact Scenario.editor (parse "/data/chats/s1/workspace_agent")
           Scenario.disk).
  reflexivity.
Defined.

(** The listing of that workspace. *)
Example listing_of_disk :
  execute Scenario.editor Scenario.disk
  = Found [{| name := "notes.md"; size := 16 |}] 1 "/data/chats/s1/workspace_agent"
          "Found 1 file(s) in workspace".
Proof. vm_compute. reflexivity. Qed.



(** The listing after that write. *)
Example listing_after_write :
  execute Scenario.editor
    (file_write Scenario.editor "reports/./summary.md" "done" false Scenario.disk).2
  = Found [{| name := "notes.md"; size := 16 |}; {| name := "reports/summary.md"; size := 4 |}]
          2 "/data/chats/s1/workspace_agent" "Found 2 file(s) in workspace".
Proof. vm_compute. reflexivity. Qed.

End FileListClaims.
(** ** The life of the workspace directory *)

Module WorkspaceFacts.
Import PyStr PyStrFacts Paths FileTools FileFacts FileExtras FileList FileListFacts Workspace.

Lemma string_leb_trans (s1 s2 s3 : string) :
  String.leb s1 s2 = true -> String.leb s2 s3 = true -> String.leb s1 s3 = true.
Proof.
  unfold String.leb. revert s2 s3.
  induction s1 as [|a s1 IH]; intros [|b s2] [|c s3]; cbn [String.compare]; try done.
  unfold Ascii.compare.
  destruct (N.compare_spec (N_of_ascii a) (N_of_ascii b)) as [Hab|Hab|Hab]; [| |done].
  - rewrite Hab. destruct (N.compare (N_of_ascii b) (N_of_ascii c)); [apply IH|done..].
  - destruct (N.compare_spec (N_of_ascii b) (N_of_ascii c)) as [Hbc|Hbc|Hbc]; [| |done].
    + rewrite <- Hbc. by apply N.compare_lt_iff in Hab as ->.
    + assert (N_of_ascii a < N_of_ascii c)%N as ->%N.compare_lt_iff by lia. done.
Qed.

#[local] Instance name_le_trans : Transitive name_le.
Proof. intros a b c. apply string_leb_trans. Qed.

#[local] Instance name_le_total' : Total name_le.
Proof. intros a b. apply String.leb_total. Qed.


















(** The workspace that the set-up makes on an empty disk. *)
Lemma fresh_view_ok : (AgentMode._initialize_workspace at_root blank).1 = Some tt.
Proof. vm_compute. reflexivity. Qed.





Lemma keeps_and_then (a b : World -> option unit * World) :
  keeps a -> keeps b -> keeps (a >> b).
Proof.
  intros Ha Hb w q n Hq. unfold and_then. specialize (Ha w q n Hq).
  destruct (a w) as [[u|] w1]; cbn [snd] in *; [by apply Hb | done].
Qed.

Lemma keeps_mkdir_parents (p : list string) : keeps (mkdir_parents p).
Proof.
  intros w q n Hq. unfold mkdir_parents, touch. cbn [fs trace].
  destruct (mkdir_chain [] p (fs w)) as [m|] eqn:Hm; cbn [snd fs]; [|done].
  destruct n as [c|].
  - by eapply mkdir_chain_keeps_files.
  - by eapply mkdir_chain_keeps_dirs.
Qed.

Lemma keeps_mkdir (p : list string) : keeps (mkdir p).
Proof.
  intros w q n Hq. unfold mkdir, touch. cbn [fs trace].
  destruct (fs w !! p) as [[?|]|] eqn:Hp; [done..|].
  destruct (fs w !! parent p) as [[?|]|]; cbn [snd fs]; try done.
  rewrite lookup_insert_ne; [done|]. congruence.
Qed.

Lemma keeps_seed (p : list string) (c : string) : keeps (seed p c).
Proof.
  intros w q n Hq. unfold seed, exists_, write_text, touch. cbn [fs trace].
  destruct (fs w !! p) as [x|] eqn:Hp.
  - by rewrite bool_decide_eq_true_2 by eauto.
  - rewrite bool_decide_eq_false_2 by (by intros [? ?]).
    destruct (fs w !! parent p) as [[?|]|]; cbn [snd fs]; try done.
    rewrite lookup_insert_ne; [done|]. congruence.
Qed.

End WorkspaceFacts.

Module WorkspaceClaims.
Import PyStr PyStrFacts Paths FileTools FileFacts FileExtras FileList FileListFacts.
Import Workspace WorkspaceFacts.

(** X23.  Setting up a workspace never removes or changes what is already
    there: every file and directory of the file system is the same after
    [_initialize_workspace], in both modes, whether the set-up completes
    or raises on the way.  So the notes, draft and progress of a session
    survive the construction of a new agent for it. *)
Theorem initialize_keeps_entries (t : Tool) (w : World) (q : list string) (n : node) :
  fs w !! q = Some n ->
  fs (AgentMode._initialize_workspace t w).2 !! q = Some n
  /\ fs (ChatMode._initialize_workspace t w).2 !! q = Some n.
Proof.
  intros Hq.
  unfold AgentMode._initialize_workspace, ChatMode._initialize_workspace.
  destruct (workspace_dir t) as [ws|]; [|done]. cbv zeta. split.
  - revert w q n Hq. fold (keeps (fun w => (mkdir_parents (resolve (cwd t) ws)
      >> mkdir (resolve (cwd t) ws ++ ["cache"])
      >> mkdir (resolve (cwd t) ws ++ ["conversations"])
      >> mkdir_parents (resolve (cwd t) ws ++ ["analysis"; "images"])
      >> mkdir_parents (resolve (cwd t) ws ++ ["analysis"; "data"])
      >> mkdir_parents (resolve (cwd t) ws ++ ["analysis"; "reports"])
      >> seed (resolve (cwd t) ws ++ ["progress.md"]) progress_template
      >> seed (resolve (cwd t) ws ++ ["notes.md"]) notes_template
      >> seed (resolve (cwd t) ws ++ ["draft.md"]) draft_template) w)).
    repeat apply keeps_and_then;
      auto using keeps_mkdir_parents, keeps_mkdir, keeps_seed.
  - revert w q n Hq. fold (keeps (fun w => (mkdir_parents (resolve (cwd t) ws)
      >> mkdir (resolve (cwd t) ws ++ ["cache"])
      >> mkdir_parents (resolve (cwd t) ws ++ ["analysis"; "images"])
      >> mkdir_parents (resolve (cwd t) ws ++ ["analysis"; "data"])) w)).
    repeat apply keeps_and_then;
      auto using keeps_mkdir_parents, keeps_mkdir, keeps_seed.
Qed.

Lemma initialize_keeps_entries_witness :
  fs (AgentMode._initialize_workspace Scenario.editor Scenario.disk).2
    !! (Scenario.workspace ++ ["notes.md"]) = Some (File "alpha beta alpha")
  /\ fs (ChatMode._initialize_workspace Scenario.editor Scenario.disk).2
       !! (Scenario.workspace ++ ["notes.md"]) = Some (File "alpha beta alpha").
Proof.
  apply (initialize_keeps_entries Scenario.editor Scenario.disk
           (Scenario.workspace ++ ["notes.md"]) (File "alpha beta alpha")).
  vm_compute. reflexivity.
Defined.



End WorkspaceClaims.
(** ** A search between two research stages *)

Module StageFacts.
Import PyStr PyStrFacts Paths FileTools FileFacts FileExtras FileListFacts.
Import WebSearch WebSearchFacts Workspace WorkspaceFacts.









End StageFacts.

Module StageClaims.
Import PyStr PyStrFacts Paths FileTools FileFacts FileExtras.
Import WebSearch WebSearchFacts Workspace WorkspaceFacts StageFacts.



End StageClaims.
(** ** The response history across the two agents *)

Module HistoryFacts.
Import PyStr Json History.

(** What one call leaves, for an agent with a session and a file that can
    be written. *)
Lemma add_response_spec (dump : Thinking.ThinkingStep -> jval) (a : Agent) (d : Disk)
    (t : Turn) (s : Stamps) (sid : string) :
  session a = Some sid -> writable d = true ->
  let h := {| session_id := session_id (_load_chat_history a d s);
              created_at := created_at (_load_chat_history a d s);
              updated_at := saved_now s;
              responses := stored_responses (file d) ++ [response_entry dump a t s] |} in
  _add_response_to_history dump a d t s
  = (response_id s, with_history h a, {| file := Stored h; writable := true |}).
Proof.
  intros Hs Hw. unfold _add_response_to_history, _save_chat_history, _load_chat_history.
  cbn [with_history session chat_history session_id created_at updated_at responses].
  rewrite Hs, Hw. by destruct (file d) as [| |h0].
Qed.

Lemma entry_of_agents (dump : Thinking.ThinkingStep -> jval) (r r' : Router) :
  model (chat_agent r') = model (chat_agent r) ->
  temperature (chat_agent r') = temperature (chat_agent r) ->
  model (agent_mode r') = model (agent_mode r) ->
  temperature (agent_mode r') = temperature (agent_mode r) ->
  forall x, entry_of dump r' x = entry_of dump r x.
Proof.
  intros H1 H2 H3 H4 [[[|] t] s]; unfold entry_of, response_entry; congruence.
Qed.

(** One turn, seen from the file and from the two agents. *)
Lemma respond_spec (dump : Thinking.ThinkingStep -> jval) (m : Mode) (t : Turn) (s : Stamps)
    (r : Router) (sid sid' : string) :
  session (chat_agent r) = Some sid -> session (agent_mode r) = Some sid' ->
  writable (disk r) = true ->
  let r' := respond dump m t s r in
  session (chat_agent r') = Some sid /\ session (agent_mode r') = Some sid'
  /\ writable (disk r') = true
  /\ (forall x, entry_of dump r' x = entry_of dump r x)
  /\ exists h,
       file (disk r') = Stored h
       /\ responses h = stored_responses (file (disk r)) ++ [entry_of dump r (m, t, s)]
       /\ updated_at h = saved_now s
       /\ (forall h0, file (disk r) = Stored h0 ->
             created_at h = created_at h0 /\ session_id h = session_id h0)
       /\ match m with
          | ChatMode => chat_history (chat_agent r') = h
          | AgentMode => chat_history (chat_agent r') = chat_history (chat_agent r)
          end.
Proof.
  intros Hc Ha Hw r'. subst r'. unfold respond.
  destruct m.
  - rewrite (add_response_spec dump _ _ t s sid Hc Hw). cbv zeta.
    cbn [chat_agent agent_mode disk with_history session writable file].
    repeat split; try done.
    + by apply entry_of_agents.
    + eexists. split; [reflexivity|]. cbn [responses updated_at created_at session_id].
      split; [done|]. split; [done|]. split; [|done].
      intros h0 Hh0. unfold _load_chat_history. by rewrite Hc, Hh0.
  - rewrite (add_response_spec dump _ _ t s sid' Ha Hw). cbv zeta.
    cbn [chat_agent agent_mode disk with_history session writable file].
    repeat split; try done.
    + by apply entry_of_agents.
    + eexists. split; [reflexivity|]. cbn [responses updated_at created_at session_id].
      split; [done|]. split; [done|]. split; [|done].
      intros h0 Hh0. unfold _load_chat_history. by rewrite Ha, Hh0.
Qed.

Lemma respond_all_app (dump : Thinking.ThinkingStep -> jval)
    (l1 l2 : list (Mode * Turn * Stamps)) (r : Router) :
  respond_all dump (l1 ++ l2) r = respond_all dump l2 (respond_all dump l1 r).
Proof. unfold respond_all. by rewrite foldl_app. Qed.

(** Any number of turns. *)
Lemma respond_all_spec (dump : Thinking.ThinkingStep -> jval)
    (turns : list (Mode * Turn * Stamps)) (r : Router) (sid sid' : string) :
  session (chat_agent r) = Some sid -> session (agent_mode r) = Some sid' ->
  writable (disk r) = true ->
  let r' := respond_all dump turns r in
  session (chat_agent r') = Some sid /\ session (agent_mode r') = Some sid'
  /\ writable (disk r') = true
  /\ (forall x, entry_of dump r' x = entry_of dump r x)
  /\ stored_responses (file (disk r'))
     = stored_responses (file (disk r)) ++ map (entry_of dump r) turns
  /\ (forall h0, file (disk r) = Stored h0 ->
        exists h, file (disk r') = Stored h
                  /\ created_at h = created_at h0 /\ session_id h = session_id h0)
  /\ (turns <> [] -> exists h, file (disk r') = Stored h).
Proof.
  intros Hc Ha Hw. induction turns as [|[[m t] s] turns IH] using rev_ind.
  - cbn. rewrite app_nil_r. split; [done|]. split; [done|]. split; [done|].
    split; [done|]. split; [done|]. split; [|done]. intros h0 ->. by exists h0.
  - cbv zeta in *. rewrite respond_all_app.
    destruct IH as (Hc1 & Ha1 & Hw1 & He1 & Hr1 & Hk1 & _).
    set (r1 := respond_all dump turns r) in *.
    change (respond_all dump [(m, t, s)] r1) with (respond dump m t s r1).
    destruct (respond_spec dump m t s r1 sid sid' Hc1 Ha1 Hw1)
      as (Hc2 & Ha2 & Hw2 & He2 & h & Hf2 & Hr2 & _ & Hk2 & _).
    split; [done|]. split; [done|]. split; [done|]. split; [|split; [|split]].
    + intros x. by rewrite He2, He1.
    + rewrite Hf2. cbn [stored_responses]. rewrite Hr2, Hr1, He1, map_app, <- app_assoc. done.
    + intros h0 Hh0. destruct (Hk1 h0 Hh0) as (h1 & Hf1 & Hcr & Hsid).
      destruct (Hk2 h1 Hf1) as [Hcr2 Hsid2]. exists h. split; [done|]. split; congruence.
    + intros _. by exists h.
Qed.

(** A turn of Agent Mode leaves the copy of the Chat Mode agent alone. *)
Lemma agent_turns_keep_chat_copy (dump : Thinking.ThinkingStep -> jval)
    (after : list (Mode * Turn * Stamps)) (r : Router) :
  Forall (fun x => x.1.1 = AgentMode) after ->
  chat_agent (respond_all dump after r) = chat_agent r.
Proof.
  induction after as [|[[m t] s] after IH] using rev_ind; [done|].
  intros [Hall Hlast]%Forall_app. apply Forall_cons in Hlast as [Hm _]. cbn in Hm. subst m.
  rewrite respond_all_app.
  change (respond_all dump [(AgentMode, t, s)] (respond_all dump after r))
    with (respond dump AgentMode t s (respond_all dump after r)).
  unfold respond. destruct (_add_response_to_history _ _ _ _ _) as [[rid a] d].
  cbn [chat_agent]. by apply IH.
Qed.

End HistoryFacts.

Module HistoryClaims.
Import PyStr Json History HistoryFacts.

(** X26.  The responses of a session accumulate in [chat_history.json]
    whichever agent adds them: after any turns of the two modes, in any
    order, [get_conversation_history_public] returns the responses that
    the file held before, followed by one entry per turn in the order of
    the turns, with their number as [total_messages]; the creation time of
    an existing file is kept.  (Each agent reads the file again before it
    appends; the file is assumed writable.) *)
Theorem history_accumulates (dump : Thinking.ThinkingStep -> jval)
    (turns : list (Mode * Turn * Stamps)) (r : Router) (sid sid' : string) :
  session (chat_agent r) = Some sid -> session (agent_mode r) = Some sid' ->
  writable (disk r) = true ->
  turns <> [] ->
  exists p,
    get_conversation_history_public (disk (respond_all dump turns r)) = Some p
    /\ p_responses p = stored_responses (file (disk r)) ++ map (entry_of dump r) turns
    /\ p_total_messages p = length (stored_responses (file (disk r))) + length turns
    /\ forall h0, file (disk r) = Stored h0 -> p_created_at p = created_at h0.
Proof.
  intros Hc Ha Hw Hne.
  destruct (respond_all_spec dump turns r sid sid' Hc Ha Hw)
    as (_ & _ & _ & _ & Hr & Hk & Hsome).
  destruct (Hsome Hne) as [h Hf]. unfold get_conversation_history_public.
  rewrite Hf in *. cbn [stored_responses] in Hr.
  destruct (responses h) as [|e es] eqn:E.
  { symmetry in Hr. apply app_eq_nil in Hr as [_ Hr]. destruct turns; done. }
  eexists. split; [reflexivity|]. cbn [p_responses p_total_messages p_created_at].
  split; [done|]. split.
  - by rewrite Hr, length_app, length_map.
  - intros h0 Hh0. destruct (Hk h0 Hh0) as (h' & [= <-] & Hcr & _). exact Hcr.
Qed.

Lemma history_accumulates_witness :
  exists p,
    get_conversation_history_public
      (disk (respond_all Cases.dump_step [Cases.chat_turn; Cases.agent_turn]
               Cases.new_session)) = Some p
    /\ p_responses p
       = stored_responses (file (disk Cases.new_session))
         ++ map (entry_of Cases.dump_step Cases.new_session)
              [Cases.chat_turn; Cases.agent_turn]
    /\ p_total_messages p
       = length (stored_responses (file (disk Cases.new_session)))
         + length [Cases.chat_turn; Cases.agent_turn]
    /\ forall h0, file (disk Cases.new_session) = Stored h0 -> p_created_at p = created_at h0.
Proof.
  apply (history_accumulates Cases.dump_step [Cases.chat_turn; Cases.agent_turn]
           Cases.new_session "s1" "s1").
  - reflexivity.
  - reflexivity.
  - reflexivity.
  - discriminate.
Defined.

(** X27.  [AgentRouter.get_chat_history] returns the copy of the Chat Mode
    agent, which is read from the file only when that agent is made and
    when it adds a response.  So in a router made over a writable file,
    the history it returns holds the responses up to the last Chat Mode
    turn, and lacks the Agent Mode responses that came after it, which
    the file holds. *)
Theorem router_history_lags (dump : Thinking.ThinkingStep -> jval) (sid model_chat model_agent
    temp : string) (d : Disk) (s_chat s_agent : Stamps)
    (before after : list (Mode * Turn * Stamps)) :
  writable d = true ->
  Forall (fun x => x.1.1 = AgentMode) after ->
  before = [] \/ (exists b t s, before = b ++ [(ChatMode, t, s)]) ->
  let r := new_router (Some sid) model_chat model_agent temp d s_chat s_agent in
  responses (router_chat_history (respond_all dump (before ++ after) r))
  = stored_responses (file d) ++ map (entry_of dump r) before
  /\ stored_responses (file (disk (respond_all dump (before ++ after) r)))
     = stored_responses (file d) ++ map (entry_of dump r) (before ++ after).
Proof.
  intros Hw Hafter Hbefore r.
  assert (session (chat_agent r) = Some sid /\ session (agent_mode r) = Some sid
          /\ writable (disk r) = true /\ file (disk r) = file d) as (Hc & Ha & Hwr & Hfile)
    by done.
  split.
  2: { destruct (respond_all_spec dump (before ++ after) r sid sid Hc Ha Hwr)
         as (_ & _ & _ & _ & Hr & _). by rewrite Hr, Hfile. }
  unfold router_chat_history, get_chat_history.
  rewrite respond_all_app, (agent_turns_keep_chat_copy dump after _ Hafter).
  destruct Hbefore as [->|(b & t & s & ->)].
  - cbn [respond_all foldl map]. rewrite app_nil_r. subst r. unfold new_router.
    cbn [chat_agent with_history chat_history]. unfold _load_chat_history.
    cbn [session]. by destruct (file d).
  - rewrite respond_all_app.
    change (respond_all dump [(ChatMode, t, s)] (respond_all dump b r))
      with (respond dump ChatMode t s (respond_all dump b r)).
    destruct (respond_all_spec dump b r sid sid Hc Ha Hwr)
      as (Hc1 & Ha1 & Hw1 & He1 & Hr1 & _).
    destruct (respond_spec dump ChatMode t s _ sid sid Hc1 Ha1 Hw1)
      as (_ & _ & _ & _ & h & _ & Hr2 & _ & _ & Hcopy).
    rewrite Hcopy, Hr2, Hr1, He1, Hfile, map_app, <- app_assoc. done.
Qed.

Lemma router_history_lags_witness :
  responses (router_chat_history
               (respond_all Cases.dump_step ([Cases.chat_turn] ++ [Cases.agent_turn])
                  (new_router (Some "s1") "openai/gpt-5-chat" "openai/gpt-5" "0.7"
                     Cases.no_history (Cases.stamps_at "00") (Cases.stamps_at "01"))))
  = stored_responses (file Cases.no_history)
    ++ map (entry_of Cases.dump_step
              (new_router (Some "s1") "openai/gpt-5-chat" "openai/gpt-5" "0.7"
                 Cases.no_history (Cases.stamps_at "00") (Cases.stamps_at "01")))
         [Cases.chat_turn]
  /\ stored_responses
       (file (disk (respond_all Cases.dump_step ([Cases.chat_turn] ++ [Cases.agent_turn])
                      (new_router (Some "s1") "openai/gpt-5-chat" "openai/gpt-5" "0.7"
                         Cases.no_history (Cases.stamps_at "00") (Cases.stamps_at "01")))))
     = stored_responses (file Cases.no_history)
       ++ map (entry_of Cases.dump_step
                 (new_router (Some "s1") "openai/gpt-5-chat" "openai/gpt-5" "0.7"
                    Cases.no_history (Cases.stamps_at "00") (Cases.stamps_at "01")))
            ([Cases.chat_turn] ++ [Cases.agent_turn]).
Proof.
  apply (router_history_lags Cases.dump_step "s1" "openai/gpt-5-chat" "openai/gpt-5" "0.7"
           Cases.no_history (Cases.stamps_at "00") (Cases.stamps_at "01")
           [Cases.chat_turn] [Cases.agent_turn]).
  - reflexivity.
  - repeat constructor.
  - right. by exists [], (Cases.turn_of "hello" "Hi there." "chat" None), (Cases.stamps_at "10").
Defined.

End HistoryClaims.
(** ** The session records *)

Module SessionsFacts.
Import PyStr Json History HistoryFacts Sessions.

Lemma dict_get_set_eq {A} (k : string) (v : A) (d : dict A) :
  dict_get k (dict_set k v d) = Some v.
Proof.
  induction d as [|[k' v'] d IH]; cbn [dict_set dict_get].
  - by rewrite String.eqb_refl.
  - destruct (String.eqb k' k) eqn:E; cbn [dict_get]; by rewrite E.
Qed.

Lemma dict_get_set_ne {A} (k k' : string) (v : A) (d : dict A) :
  k <> k' -> dict_get k (dict_set k' v d) = dict_get k d.
Proof.
  intros Hne. induction d as [|[k0 v0] d IH]; cbn [dict_set dict_get].
  - destruct (String.eqb_spec k' k); [congruence | done].
  - destruct (String.eqb_spec k0 k') as [->|Hk0]; cbn [dict_get].
    + by destruct (String.eqb_spec k' k); [congruence|].
    + destruct (String.eqb k0 k); [done | exact IH].
Qed.

(** A directory whose name is not shared is found in the records as the
    loop stored it. *)
Lemma loaded_record (fromisoformat : string -> option Z) (dirs : list SessionDir)
    (d : SessionDir) (r : ChatRecord) :
  NoDup (map name dirs) -> d ∈ dirs ->
  load_session fromisoformat d = Some r ->
  dict_get (name d) (_load_existing_sessions fromisoformat (Some dirs)) = Some r.
Proof.
  unfold _load_existing_sessions. intros Hnd Hin Hload.
  induction dirs as [|x dirs IH] using rev_ind; [by apply elem_of_nil in Hin|].
  rewrite foldl_app. cbn [foldl]. rewrite map_app in Hnd.
  apply NoDup_app in Hnd as (Hnd & Hfresh & _).
  apply elem_of_app in Hin as [Hin|Hin%list_elem_of_singleton].
  - assert (name d <> name x) as Hne.
    { intros Heq. apply (Hfresh (name d)).
      - apply list_elem_of_fmap. by exists d.
      - rewrite Heq. cbn. by left. }
    destruct (load_session fromisoformat x); [rewrite dict_get_set_ne by done|]; by apply IH.
  - subst x. rewrite Hload. apply dict_get_set_eq.
Qed.

(** The entries that the agents write carry no [user_id]. *)
Lemma entry_has_no_user (dump : Thinking.ThinkingStep -> jval) (a : Agent) (t : Turn)
    (s : Stamps) :
  get "user_id" (response_entry dump a t s) = None
  /\ get "user_message" (response_entry dump a t s) = Some (JStr (user_message t)).
Proof.
  split; [|done]. unfold response_entry.
  destruct (artifact t) as [[|x l]|], (stage t) as [[|c st]|]; reflexivity.
Qed.

(** The times in a file that the turns made anew. *)
Lemma respond_all_times (dump : Thinking.ThinkingStep -> jval) (m1 : Mode) (t1 : Turn)
    (s1 : Stamps) (rest : list (Mode * Turn * Stamps)) (r : Router) (sid sid' : string)
    (m : Mode) (t : Turn) (s : Stamps) :
  session (chat_agent r) = Some sid -> session (agent_mode r) = Some sid' ->
  writable (disk r) = true -> file (disk r) = Missing ->
  last ((m1, t1, s1) :: rest) = Some (m, t, s) ->
  exists h,
    file (disk (respond_all dump ((m1, t1, s1) :: rest) r)) = Stored h
    /\ created_at h = created_now s1
    /\ updated_at h = saved_now s
    /\ responses h = map (entry_of dump r) ((m1, t1, s1) :: rest).
Proof.
  intros Hc Ha Hw Hmiss Hlast.
  destruct (respond_all_spec dump ((m1, t1, s1) :: rest) r sid sid' Hc Ha Hw)
    as (_ & _ & _ & _ & Hr & _ & Hsome).
  destruct (Hsome ltac:(done)) as [h Hf]. exists h. split; [done|].
  rewrite Hf, Hmiss in Hr. cbn [stored_responses app] in Hr.
  split; [|split; [|done]].
  - (* the first turn makes the file, the others keep its creation time *)
    change (respond_all dump ((m1, t1, s1) :: rest) r)
      with (respond_all dump rest (respond dump m1 t1 s1 r)) in Hf.
    destruct (respond_spec dump m1 t1 s1 r sid sid' Hc Ha Hw)
      as (Hc1 & Ha1 & Hw1 & _ & h1 & Hf1 & _).
    assert (created_at h1 = created_now s1) as Hcr1.
    { revert Hf1. unfold respond.
      destruct m1.
      - rewrite (add_response_spec dump _ _ t1 s1 sid Hc Hw). cbv zeta. cbn [disk file].
        intros [= <-]. cbn [created_at]. unfold _load_chat_history. by rewrite Hc, Hmiss.
      - rewrite (add_response_spec dump _ _ t1 s1 sid' Ha Hw). cbv zeta. cbn [disk file].
        intros [= <-]. cbn [created_at]. unfold _load_chat_history. by rewrite Ha, Hmiss. }
    destruct (respond_all_spec dump rest _ sid sid' Hc1 Ha1 Hw1)
      as (_ & _ & _ & _ & _ & Hk & _).
    destruct (Hk h1 Hf1) as (h' & Hf' & Hcr & _). congruence.
  - (* the last turn sets the time of the update *)
    destruct (exists_last (l := (m1, t1, s1) :: rest) ltac:(done)) as (init & x & Hsplit).
    rewrite Hsplit in Hlast, Hf. rewrite last_snoc in Hlast. injection Hlast as ->.
    rewrite respond_all_app in Hf.
    change (respond_all dump [(m, t, s)] (respond_all dump init r))
      with (respond dump m t s (respond_all dump init r)) in Hf.
    destruct (respond_all_spec dump init r sid sid' Hc Ha Hw) as (Hc1 & Ha1 & Hw1 & _).
    destruct (respond_spec dump m t s _ sid sid' Hc1 Ha1 Hw1)
      as (_ & _ & _ & _ & h' & Hf' & _ & Hup & _). congruence.
Qed.

Lemma insert_desc_perm (x : Summary) (l : list Summary) : insert_desc x l ≡ₚ x :: l.
Proof.
  induction l as [|y l IH]; cbn [insert_desc]; [done|].
  destruct (s_updated_at x <? s_updated_at y)%Z; [|done].
  rewrite IH. apply Permutation_swap.
Qed.

Lemma sort_desc_perm (l : list Summary) : sort_desc l ≡ₚ l.
Proof.
  induction l as [|x l IH]; [done|]. unfold sort_desc in *. cbn [foldr].
  by rewrite insert_desc_perm, IH.
Qed.

Lemma insert_desc_sorted (x : Summary) (l : list Summary) :
  StronglySorted newer_first l -> StronglySorted newer_first (insert_desc x l).
Proof.
  induction l as [|y l IH]; cbn [insert_desc]; intros Hl.
  - repeat constructor.
  - apply StronglySorted_cons in Hl as [Hy Hl].
    destruct (Z.ltb_spec (s_updated_at x) (s_updated_at y)) as [Hlt|Hge].
    + apply StronglySorted_cons. split; [|by apply IH].
      rewrite insert_desc_perm. constructor; [unfold newer_first; lia | done].
    + apply StronglySorted_cons. split; [|by apply StronglySorted_cons].
      constructor; [done|]. eapply Forall_impl; [exact Hy|].
      unfold newer_first. intros z Hz. lia.
Qed.

Lemma sort_desc_sorted (l : list Summary) : StronglySorted newer_first (sort_desc l).
Proof.
  induction l as [|x l IH]; [constructor|]. unfold sort_desc in *. cbn [foldr].
  by apply insert_desc_sorted.
Qed.

Lemma slice_to_take {A} (limit : Z) (l : list A) :
  exists n, slice_to limit l = take n l /\ ((0 <= limit)%Z -> n = Z.to_nat limit).
Proof.
  unfold slice_to. destruct (Z.leb_spec 0 limit).
  - by eexists.
  - eexists. split; [done|]. lia.
Qed.

Lemma of_user_spec (user_id : string) (records : dict ChatRecord) (x : Summary) :
  x ∈ of_user user_id records
  <-> exists k r, (k, r) ∈ records /\ r_user_id r = JStr user_id /\ x = summary k r.
Proof.
  induction records as [|[k r] records IH]; cbn [of_user].
  - split; [by intros ?%elem_of_nil | by intros (? & ? & ?%elem_of_nil & _)].
  - destruct (bool_decide_reflect (r_user_id r = JStr user_id)) as [Hu|Hu].
    + rewrite elem_of_cons, IH. split.
      * intros [->|(k' & r' & Hin & Hr & ->)]; [exists k, r | exists k', r'];
          (split; [|done]); [by left | by right].
      * intros (k' & r' & [[= -> ->]|Hin]%elem_of_cons & Hr & ->); [by left|].
        right. by exists k', r'.
    + rewrite IH. split.
      * intros (k' & r' & Hin & Hr & ->). exists k', r'. split; [by right | done].
      * intros (k' & r' & [[= -> ->]|Hin]%elem_of_cons & Hr & ->); [done|].
        by exists k', r'.
Qed.

End SessionsFacts.

Module SessionsClaims.
Import PyStr Json History HistoryFacts Sessions SessionsFacts.

(** X28.  A session survives a restart of the service: if the history
    file of a session directory was made by the turns of the two agents
    (at least one) and its two times can be parsed,
    [_load_existing_sessions] stores for it a record with the number of
    turns as [message_count], the first 100 characters of the first user
    message (of ASCII characters), the creation time of the first turn and
    the time of the last one.  The record belongs to the user "anonymous",
    since the entries of the file carry no [user_id]. *)
Theorem sessions_survive_restart (fromisoformat : string -> option Z)
    (dump : Thinking.ThinkingStep -> jval) (dirs : list SessionDir) (d : SessionDir)
    (r : Router) (sid sid' : string) (m1 : Mode) (t1 : Turn) (s1 : Stamps)
    (rest : list (Mode * Turn * Stamps)) (m : Mode) (t : Turn) (s : Stamps)
    (created updated : Z) :
  NoDup (map name dirs) -> d ∈ dirs -> is_dir d = true ->
  session (chat_agent r) = Some sid -> session (agent_mode r) = Some sid' ->
  writable (disk r) = true -> file (disk r) = Missing ->
  history d = file (disk (respond_all dump ((m1, t1, s1) :: rest) r)) ->
  Forall (fun c => WebSearch.is_ascii c = true) (chars (user_message t1)) ->
  last ((m1, t1, s1) :: rest) = Some (m, t, s) ->
  fromisoformat (replace (created_now s1) "Z" "+00:00") = Some created ->
  fromisoformat (replace (saved_now s) "Z" "+00:00") = Some updated ->
  dict_get (name d) (_load_existing_sessions fromisoformat (Some dirs))
  = Some {| r_session_id := name d;
            r_user_id := JStr "anonymous";
            r_first_message := JStr (String.substring 0 100 (user_message t1));
            r_display_name := None;
            r_message_count := S (length rest);
            r_created_at := created;
            r_updated_at := updated |}.
Proof.
  intros Hnd Hin Hdir Hc Ha Hw Hmiss Hhist _ Hlast Hcreated Hupdated.
  apply loaded_record; [done..|].
  destruct (respond_all_times dump m1 t1 s1 rest r sid sid' m t s Hc Ha Hw Hmiss Hlast)
    as (h & Hf & Hcr & Hup & Hr).
  unfold load_session. rewrite Hdir, Hhist, Hf, Hr, Hcr, Hup. cbn [negb map].
  rewrite Hcreated, Hupdated. cbn [entry_of].
  destruct (entry_has_no_user dump
              (match m1 with ChatMode => chat_agent r | AgentMode => agent_mode r end) t1 s1)
    as [-> ->].
  cbn [from_option id first_100 length]. by rewrite length_map.
Qed.

Lemma sessions_survive_restart_witness :
  dict_get (name Cases.stored_session)
    (_load_existing_sessions Cases.seconds (Some [Cases.stored_session]))
  = Some {| r_session_id := name Cases.stored_session;
            r_user_id := JStr "anonymous";
            r_first_message := JStr (String.substring 0 100 (user_message (Cases.chat_turn.1.2)));
            r_display_name := None;
            r_message_count := S (length [Cases.agent_turn]);
            r_created_at := 10;
            r_updated_at := 20 |}.
Proof.
  apply (sessions_survive_restart Cases.seconds Cases.dump_step [Cases.stored_session]
           Cases.stored_session Cases.new_session "s1" "s1"
           ChatMode (Cases.chat_turn.1.2) (Cases.chat_turn.2) [Cases.agent_turn]
           AgentMode (Cases.agent_turn.1.2) (Cases.agent_turn.2) 10 20).
  - repeat constructor. by intros ?%elem_of_nil.
  - by left.
  - reflexivity.
  - reflexivity.
  - reflexivity.
  - reflexivity.
  - reflexivity.
  - reflexivity.
  - vm_compute. repeat constructor.
  - reflexivity.
  - vm_compute. reflexivity.
  - vm_compute. reflexivity.
Defined.

(** X29.  [get_user_chat_sessions] returns sessions of the given user
    only, the most recently updated first; for a limit that is not
    negative it returns as many as the limit allows; and a session of the
    user that it leaves out was not updated after any session it
    returns. *)
Theorem recent_sessions_first (records : dict ChatRecord) (user_id : string) (limit : Z) :
  let out := get_user_chat_sessions records user_id limit in
  StronglySorted newer_first out
  /\ (forall x, x ∈ out ->
        exists k r, (k, r) ∈ records /\ r_user_id r = JStr user_id /\ x = summary k r)
  /\ ((0 <= limit)%Z ->
      length out = Nat.min (Z.to_nat limit) (length (of_user user_id records)))
  /\ forall k r,
       (k, r) ∈ records -> r_user_id r = JStr user_id ->
       summary k r ∈ out
       \/ Forall (fun x => (r_updated_at r <= s_updated_at x)%Z) out.
Proof.
  intros out. subst out. unfold get_user_chat_sessions.
  destruct (slice_to_take limit (sort_desc (of_user user_id records))) as (n & -> & Hn).
  pose proof (sort_desc_sorted (of_user user_id records)) as Hsorted.
  rewrite <- (take_drop n (sort_desc (of_user user_id records))) in Hsorted.
  split; [by apply StronglySorted_app_1_l in Hsorted|]. split; [|split].
  - intros x Hx. apply of_user_spec. rewrite <- sort_desc_perm.
    rewrite <- (take_drop n (sort_desc _)). apply elem_of_app. by left.
  - intros Hlimit. rewrite length_take, (Hn Hlimit). f_equal.
    by rewrite sort_desc_perm.
  - intros k r Hin Hu.
    assert (summary k r ∈ take n (sort_desc (of_user user_id records))
                          ++ drop n (sort_desc (of_user user_id records))) as Hmem.
    { rewrite take_drop, sort_desc_perm. apply of_user_spec. by exists k, r. }
    apply elem_of_app in Hmem as [Htake|Hdrop]; [by left|]. right.
    apply Forall_forall. intros x Hx.
    by apply (StronglySorted_app_1_elem_of newer_first _ _ x (summary k r) Hsorted).
Qed.

(** The list for a user with three sessions and a limit of two. *)
Example sessions_of_ann :
  map s_session_id
    (get_user_chat_sessions
       [ Cases.record_of "a" "ann" 5; Cases.record_of "b" "bob" 9;
         Cases.record_of "c" "ann" 7; Cases.record_of "d" "ann" 7 ] "ann" 2)
  = ["c"; "d"].
Proof. vm_compute. reflexivity. Qed.

End SessionsClaims.
(** ** The shape of an extracted artifact *)

Module ArtifactFacts.
Import PyStr PyStrFacts.

Lemma lazy_until_split (dot : ascii -> bool) (stop : list ascii -> bool) (l x r : list ascii) :
  Artifact.lazy_until dot stop l = Some (x, r) -> l = x ++ r /\ stop r = true.
Proof.
  revert x. induction l as [|c l IH]; intros x; cbn [Artifact.lazy_until].
  - destruct (stop []) eqn:E; [|done]. by intros [= <- <-].
  - destruct (stop (c :: l)) eqn:E; [by intros [= <- <-]|].
    destruct (dot c); [|done].
    destruct (Artifact.lazy_until dot stop l) as [[x' r']|]; [|done].
    intros [= <- <-]. destruct (IH x' eq_refl) as [-> Hr]. by split.
Qed.

Lemma search_split {G} (m : list ascii -> option G) (l before : list ascii) (g : G) :
  Artifact.search m l = Some (before, g) ->
  exists rest, l = before ++ rest /\ m rest = Some g.
Proof.
  revert before. induction l as [|c l IH]; intros before; cbn [Artifact.search].
  - destruct (m []) as [g'|] eqn:E; [|done]. intros [= <- <-]. by exists [].
  - destruct (m (c :: l)) as [g'|] eqn:E; [intros [= <- <-]; by exists (c :: l)|].
    destruct (Artifact.search m l) as [[b g']|]; [|done].
    intros [= <- <-]. destruct (IH b eq_refl) as (rest & -> & Hm). by exists rest.
Qed.

Lemma is_prefix_ci_take (p l : list ascii) :
  Artifact.is_prefix_ci p l = true ->
  length (take (length p) l) = length p
  /\ forall y, Artifact.is_prefix_ci p (take (length p) l ++ y) = true.
Proof.
  revert l. induction p as [|a p IH]; intros l; cbn [Artifact.is_prefix_ci length take].
  - done.
  - destruct l as [|b l]; [done|]. intros [Hab Hp]%andb_true_iff.
    destruct (IH l Hp) as [Hlen Hy]. cbn [take length app Artifact.is_prefix_ci].
    split; [by rewrite Hlen|]. intros y. by rewrite Hab, Hy.
Qed.

Lemma is_prefix_ci_app (p l y : list ascii) :
  Artifact.is_prefix_ci p l = true -> Artifact.is_prefix_ci p (l ++ y) = true.
Proof.
  revert l. induction p as [|a p IH]; intros l; cbn [Artifact.is_prefix_ci]; [done|].
  destruct l as [|b l]; [done|]. intros [Hab Hp]%andb_true_iff.
  cbn [app Artifact.is_prefix_ci]. by rewrite Hab, IH.
Qed.

(** What the document pattern captures: a part of the text that begins
    with the doctype and ends with the closing tag, in any case. *)
Lemma match_document_spec (tail : list ascii -> bool) (l doc : list ascii) :
  Artifact.match_document tail l = Some doc ->
  (exists after, l = doc ++ after)
  /\ Artifact.is_prefix_ci (chars Artifact.DOCTYPE) doc = true
  /\ exists body close,
       doc = body ++ close /\ length close = 7
       /\ Artifact.is_prefix_ci (chars Artifact.html_close) close = true.
Proof.
  unfold Artifact.match_document.
  destruct (Artifact.is_prefix_ci (chars Artifact.DOCTYPE) l) eqn:Hd; [|done].
  destruct (Artifact.lazy_until _ _ _) as [[x r]|] eqn:Hl; [|done].
  intros [= <-]. apply lazy_until_split in Hl as [Hsplit [Hclose _]%andb_true_iff].
  destruct (is_prefix_ci_take _ _ Hd) as [_ Hdoc].
  destruct (is_prefix_ci_take _ _ Hclose) as [Hlen Hc].
  specialize (Hc []). rewrite app_nil_r in Hc.
  split; [|split].
  - exists (drop (length (chars Artifact.html_close)) r).
    rewrite <- !app_assoc, take_drop, <- Hsplit, take_drop. done.
  - apply Hdoc.
  - exists (take (length (chars Artifact.DOCTYPE)) l ++ x),
      (take (length (chars Artifact.html_close)) r).
    rewrite <- app_assoc. done.
Qed.

Lemma lstrip_chars_suffix (l : list ascii) : exists pre, l = pre ++ lstrip_chars l.
Proof.
  induction l as [|c l [pre IH]]; [by exists []|]. cbn [lstrip_chars].
  destruct (is_space c); [|by exists []]. exists (c :: pre). cbn [app]. by f_equal.
Qed.

Lemma match_fenced_spec (l doc : list ascii) :
  Artifact.match_fenced l = Some doc ->
  (exists pre after, l = pre ++ doc ++ after)
  /\ Artifact.is_prefix_ci (chars Artifact.DOCTYPE) doc = true
  /\ exists body close,
       doc = body ++ close /\ length close = 7
       /\ Artifact.is_prefix_ci (chars Artifact.html_close) close = true.
Proof.
  unfold Artifact.match_fenced.
  destruct (Artifact.is_prefix_ci (chars Artifact.fence_html) l); [|done].
  intros [[after Hafter] Hrest]%match_document_spec. split; [|exact Hrest].
  destruct (lstrip_chars_suffix (drop (length (chars Artifact.fence_html)) l)) as [pre Hpre].
  exists (take (length (chars Artifact.fence_html)) l ++ pre), after.
  rewrite <- app_assoc, <- Hafter, <- Hpre, take_drop. done.
Qed.

Lemma html_match_spec (final_response : string) (before doc : list ascii) :
  Artifact.html_match final_response = Some (before, doc) ->
  (exists pre after, chars final_response = pre ++ doc ++ after)
  /\ Artifact.is_prefix_ci (chars Artifact.DOCTYPE) doc = true
  /\ exists body close,
       doc = body ++ close /\ length close = 7
       /\ Artifact.is_prefix_ci (chars Artifact.html_close) close = true.
Proof.
  unfold Artifact.html_match.
  destruct (Artifact.search Artifact.match_fenced (chars final_response)) as [[b g]|] eqn:E.
  - intros [= <- <-]. apply search_split in E as (rest & Hsplit & Hm).
    apply match_fenced_spec in Hm as [(pre & after & ->) Hrest]. split; [|exact Hrest].
    exists (b ++ pre), after. by rewrite Hsplit, <- app_assoc.
  - intros (rest & Hsplit & Hm)%search_split.
    apply match_document_spec in Hm as [(after & ->) Hrest]. split; [|exact Hrest].
    by exists before, after.
Qed.

(** A letter that matches [<] or [>] without regard to case is no white
    space. *)
Lemma matched_bracket_no_space (b c : ascii) :
  b = Artifact.lt \/ b = Artifact.gt ->
  Ascii.eqb (lower_char b) (lower_char c) = true -> is_space c = false.
Proof.
  intros Hb Heq. apply Ascii.eqb_eq in Heq. revert Heq.
  destruct Hb as [->| ->];
    destruct c as [[] [] [] [] [] [] [] []]; vm_compute; congruence.
Qed.

Lemma strip_chars_id (l : list ascii) (c d : ascii) :
  head l = Some c -> is_space c = false ->
  last l = Some d -> is_space d = false ->
  strip_chars l = l.
Proof.
  intros Hh Hc Hl Hd. unfold strip_chars.
  assert (forall k x, head k = Some x -> is_space x = false -> lstrip_chars k = k) as Hid.
  { intros [|y k] x; [done|]. cbn [head lstrip_chars]. by intros [= ->] ->. }
  rewrite (Hid l c Hh Hc), (Hid (reverse l) d); [apply reverse_involutive| |done].
  by rewrite <- last_reverse, reverse_involutive.
Qed.

(** A captured document has no white space at its ends. *)
Lemma document_is_stripped (doc body close : list ascii) :
  Artifact.is_prefix_ci (chars Artifact.DOCTYPE) doc = true ->
  doc = body ++ close -> length close = 7 ->
  Artifact.is_prefix_ci (chars Artifact.html_close) close = true ->
  strip_chars doc = doc.
Proof.
  intros Hd -> Hlen Hc.
  destruct close as [|c1 [|c2 [|c3 [|c4 [|c5 [|c6 [|c7 [|? ?]]]]]]]]; try done.
  cbn in Hc. repeat (apply andb_true_iff in Hc as [? Hc]).
  destruct (body ++ [c1; c2; c3; c4; c5; c6; c7]) as [|x rest] eqn:E.
  { by destruct body. }
  cbn in Hd. apply andb_true_iff in Hd as [Hx _].
  apply (strip_chars_id _ x c7).
  - done.
  - apply (matched_bracket_no_space Artifact.lt); [by left | exact Hx].
  - rewrite <- E.
    change [c1; c2; c3; c4; c5; c6; c7] with ([c1; c2; c3; c4; c5; c6] ++ [c7]).
    by rewrite app_assoc, last_snoc.
  - by apply (matched_bracket_no_space Artifact.gt); [right|].
Qed.

End ArtifactFacts.

Module ArtifactExtras.
Import PyStr PyStrFacts ArtifactFacts.

(** X30.  An artifact is always a well-delimited part of the final answer:
    whenever the extraction yields one, its [html_content] occurs in the
    final answer as it is, begins with the doctype and ends with the
    closing [html] tag (both in any case) without white space around it;
    its type is "html_blog" and its path is [artifact.html] in the
    workspace; and the assistant message that goes with it is not empty. *)
Theorem artifact_is_the_document (ready : bool) (workspace_dir : option string)
    (final_response : string) (a : Artifact.Artifact) (message : string) :
  Artifact.extract ready workspace_dir final_response = (Some a, message) ->
  (exists before after,
     final_response = before +:+ Artifact.html_content a +:+ after)
  /\ Artifact.is_prefix_ci (chars Artifact.DOCTYPE) (chars (Artifact.html_content a)) = true
  /\ (exists body close,
        chars (Artifact.html_content a) = body ++ close /\ length close = 7
        /\ Artifact.is_prefix_ci (chars Artifact.html_close) close = true)
  /\ strip (Artifact.html_content a) = Artifact.html_content a
  /\ Artifact.type a = "html_blog"
  /\ (exists dir, workspace_dir = Some dir
                  /\ Artifact.file_path a = dir +:+ "/artifact.html")
  /\ message <> "".
Proof.
  unfold Artifact.extract.
  destruct (ready && contains Artifact.DOCTYPE final_response); [|done].
  destruct (Artifact.html_match final_response) as [[before doc]|] eqn:Hm; [|done].
  destruct workspace_dir as [dir|]; [|done].
  intros [= <- <-]. cbn [Artifact.html_content Artifact.type Artifact.file_path].
  apply html_match_spec in Hm as ((pre & after & Hwhole) & Hd & body & close & Hdoc & Hlen & Hc).
  assert (strip (text doc) = text doc) as Hstrip.
  { unfold strip. rewrite chars_text.
    by rewrite (document_is_stripped doc body close Hd Hdoc Hlen Hc). }
  rewrite Hstrip, chars_text. split; [|split; [done|split; [by exists body, close|]]].
  - exists (text pre), (text after). rewrite <- !text_app, <- Hwhole. by rewrite text_chars.
  - split; [by rewrite Hstrip|]. split; [done|]. split; [by exists dir|].
    destruct (is_empty _) eqn:E; [done|]. intros Heq. by rewrite Heq in E.
Qed.

Lemma artifact_is_the_document_witness :
  (exists before after,
     Cases.fenced_report
     = before +:+ Artifact.html_content Cases.report_artifact +:+ after)
  /\ Artifact.is_prefix_ci (chars Artifact.DOCTYPE)
       (chars (Artifact.html_content Cases.report_artifact)) = true
  /\ (exists body close,
        chars (Artifact.html_content Cases.report_artifact) = body ++ close
        /\ length close = 7
        /\ Artifact.is_prefix_ci (chars Artifact.html_close) close = true)
  /\ strip (Artifact.html_content Cases.report_artifact)
     = Artifact.html_content Cases.report_artifact
  /\ Artifact.type Cases.report_artifact = "html_blog"
  /\ (exists dir, Some "/data/chats/s1/workspace_agent" = Some dir
                  /\ Artifact.file_path Cases.report_artifact = dir +:+ "/artifact.html")
  /\ "Here is the report." <> "".
Proof.
  apply (artifact_is_the_document true (Some "/data/chats/s1/workspace_agent")
           Cases.fenced_report Cases.report_artifact "Here is the report.").
  vm_compute. reflexivity.
Defined.

End ArtifactExtras.
